(** * Interactive 3D particle system: gesture logic and particle engine

    A shallow embedding of [gesture-logic.js], of the generation, colour,
    size, mode, rotation and animation code of [particles.js], and of the
    frame handling of [hand-tracking.js] and [main.js], with the properties
    of the specification stated and settled on it, followed by further
    properties of the code.

    Numbers.
    - [gesture-logic.js] only uses [+ - * /], [Math.sqrt] and comparisons
      on JavaScript numbers.  These are IEEE 754 binary64 operations, which
      are the primitive floats of Rocq: the module [GestureLogic] is written
      over [float] and runs on concrete landmarks.
    - [particles.js] uses [Math.sin], [Math.cos], [Math.acos], [Math.cbrt],
      [Math.pow] and [Float32Array] storage.  The module [Particles] is
      written over the real numbers: every number is the real it denotes
      and no rounding is performed.  [Math.random()] is a stream of reals
      given from outside, consumed one call at a time.  Two places where
      the rounding decides are kept in binary64: [Math.floor(count * 0.7)]
      and [Math.floor(count * 0.6)], which split the particles into
      layers.
    - The animation tick only uses [+ - *] and [Math.sin] on numbers and
      stores into a [Float32Array].  The module [Binary32] has the tick
      once more over [float], with the rounding to binary32 of every
      store; what the specification says on the size of a step is settled
      there. *)

From Stdlib Require Import ZArith List String Floats Reals Lra Lia.
From stdpp Require Import base list.
Import ListNotations.

Set Warnings "-inexact-float".

(* ================================================================== *)
(** * Part I: the embedding                                            *)
(* ================================================================== *)

(** ** gesture-logic.js *)

Module GestureLogic.

Local Open Scope float_scope.

(** MediaPipe hand-landmark indices, the object [LANDMARKS]. *)
Definition WRIST : nat := 0.
Definition THUMB_CMC : nat := 1.
Definition THUMB_MCP : nat := 2.
Definition THUMB_IP : nat := 3.
Definition THUMB_TIP : nat := 4.
Definition INDEX_MCP : nat := 5.
Definition INDEX_PIP : nat := 6.
Definition INDEX_DIP : nat := 7.
Definition INDEX_TIP : nat := 8.
Definition MIDDLE_MCP : nat := 9.
Definition MIDDLE_PIP : nat := 10.
Definition MIDDLE_DIP : nat := 11.
Definition MIDDLE_TIP : nat := 12.
Definition RING_MCP : nat := 13.
Definition RING_PIP : nat := 14.
Definition RING_DIP : nat := 15.
Definition RING_TIP : nat := 16.
Definition PINKY_MCP : nat := 17.
Definition PINKY_PIP : nat := 18.
Definition PINKY_DIP : nat := 19.
Definition PINKY_TIP : nat := 20.

Definition FINGERTIPS : list nat :=
  [THUMB_TIP; INDEX_TIP; MIDDLE_TIP; RING_TIP; PINKY_TIP].

Definition MCP_JOINTS : list nat :=
  [INDEX_MCP; MIDDLE_MCP; RING_MCP; PINKY_MCP].

(** A landmark [{x, y, z}].  A two-dimensional landmark has no [z]
    property: reading it gives [undefined], here [None]. *)
Record Point : Type := mkPoint {
  pt_x : float;
  pt_y : float;
  pt_z : option float
}.

(** [v || 0] for a property that is a number or [undefined]: the falsy
    numbers are [NaN], [+0] and [-0]. *)
Definition orZero (v : option float) : float :=
  match v with
  | None => 0
  | Some f => if is_nan f || is_zero f then 0 else f
  end.

(** The two gesture names; [null] is [None] of [option HandState]. *)
Inductive HandState : Type := open | fist.

Definition HandState_eqb (a b : HandState) : bool :=
  match a, b with
  | open, open | fist, fist => true
  | _, _ => false
  end.

(** [a === b] on values that are ['open'], ['fist'] or [null]. *)
Definition strictEq (a b : option HandState) : bool :=
  match a, b with
  | None, None => true
  | Some s, Some t => HandState_eqb s t
  | _, _ => false
  end.

(** Evaluation with exceptions and a log of the landmark indices read.
    [landmarks[i]] past the end of the array is [undefined], and the code
    reads a property of the element right away, which throws a
    [TypeError]. *)
Inductive outcome (A : Type) : Type :=
| Returned (v : A)
| Thrown (e : string).
Arguments Returned {A} v.
Arguments Thrown {A} e.

Definition Eval (A : Type) : Type := list nat -> outcome A * list nat.

Definition ret {A} (v : A) : Eval A := fun log => (Returned v, log).

Definition bind {A B} (m : Eval A) (k : A -> Eval B) : Eval B :=
  fun log =>
    match m log with
    | (Returned v, log') => k v log'
    | (Thrown e, log') => (Thrown e, log')
    end.

Notation "'let*' x ':=' m 'in' k" := (bind m (fun x => k))
  (at level 10, x name, m at level 200, k at level 200,
   format "'[v' 'let*'  x  ':='  m  'in' '/' k ']'").

Definition landmarkAt (landmarks : list Point) (idx : nat) : Eval Point :=
  fun log =>
    match landmarks !! idx with
    | Some p => (Returned p, log ++ [idx])
    | None => (Thrown "TypeError"%string, log ++ [idx])
    end.

(** [for (const idx of idxs) body], threading the loop-carried variables. *)
Fixpoint forOf {S} (idxs : list nat) (body : nat -> S -> Eval S) (s : S)
  : Eval S :=
  match idxs with
  | [] => ret s
  | idx :: rest => let* s' := body idx s in forOf rest body s'
  end.

(** [distance(p1, p2)] *)
Definition distance (p1 p2 : Point) : float :=
  let dx := pt_x p1 - pt_x p2 in
  let dy := pt_y p1 - pt_y p2 in
  let dz := orZero (pt_z p1) - orZero (pt_z p2) in
  PrimFloat.sqrt (dx * dx + dy * dy + dz * dz).

(** [getPalmCenter(landmarks)] *)
Definition getPalmCenter (landmarks : list Point) : Eval Point :=
  let* wrist := landmarkAt landmarks WRIST in
  let* sums := forOf MCP_JOINTS
    (fun idx '(sumX, sumY, sumZ) =>
       let* p := landmarkAt landmarks idx in
       ret (sumX + pt_x p, sumY + pt_y p, sumZ + orZero (pt_z p)))
    (pt_x wrist, pt_y wrist, orZero (pt_z wrist)) in
  let '(sumX, sumY, sumZ) := sums in
  let count := of_uint63 (Uint63.of_Z (Z.of_nat (length MCP_JOINTS + 1))) in
  ret (mkPoint (sumX / count) (sumY / count) (Some (sumZ / count))).

(** [getHandSize(landmarks)] *)
Definition getHandSize (landmarks : list Point) : Eval float :=
  let* wrist := landmarkAt landmarks WRIST in
  let* middle := landmarkAt landmarks MIDDLE_MCP in
  ret (distance wrist middle).

(** [detectHandState(landmarks)]; the argument is [None] when the caller
    passes [null] or [undefined]. *)
Definition detectHandState (landmarks : option (list Point))
  : Eval (option HandState) :=
  match landmarks with
  | None => ret None
  | Some lm =>
    if (length lm <? 21)%nat then ret None
    else
      let* palmCenter := getPalmCenter lm in
      let* handSize := getHandSize lm in
      if handSize <? 0.01 then ret None
      else
        let* extendedFingers := forOf FINGERTIPS
          (fun tipIdx extendedFingers =>
             let* tip := landmarkAt lm tipIdx in
             let dist := distance tip palmCenter in
             let normalizedDist := dist / handSize in
             if 1.3 <? normalizedDist
             then ret (extendedFingers + 1)%nat
             else ret extendedFingers)
          0%nat in
        if (4 <=? extendedFingers)%nat then ret (Some open)
        else if (extendedFingers <=? 1)%nat then ret (Some fist)
        else ret None
  end.

(** The class [GestureDetector]. *)
Record GestureDetector : Type := mkDetector {
  debounceFrames : Z;
  currentState : option HandState;
  pendingState : option HandState;
  pendingCount : Z
}.

(** [new GestureDetector(debounceFrames)] *)
Definition constructor (debounceFrames : Z) : GestureDetector :=
  mkDetector debounceFrames None None 0.

(** The body of [update] after its first line, as a function of [rawState]:
    the new detector and the value returned. *)
Definition updateRaw (this : GestureDetector) (rawState : option HandState)
  : GestureDetector * option HandState :=
  if strictEq rawState None then
    (mkDetector (debounceFrames this) (currentState this) None 0, None)
  else if strictEq rawState (currentState this) then
    (mkDetector (debounceFrames this) (currentState this) None 0, None)
  else if negb (strictEq rawState (pendingState this)) then
    (mkDetector (debounceFrames this) (currentState this) rawState 1, None)
  else
    let pendingCount' := (pendingCount this + 1)%Z in
    if (debounceFrames this <=? pendingCount')%Z then
      let newState := pendingState this in
      (mkDetector (debounceFrames this) newState None 0, newState)
    else
      (mkDetector (debounceFrames this) (currentState this)
                  (pendingState this) pendingCount', None).

(** [update(landmarks)]: classify the frame, then [updateRaw]. *)
Definition update (this : GestureDetector) (landmarks : option (list Point))
  : Eval (GestureDetector * option HandState) :=
  let* rawState := detectHandState landmarks in
  ret (updateRaw this rawState).

(** [getState()] and [reset()] *)
Definition getState (this : GestureDetector) : option HandState :=
  currentState this.

Definition reset (this : GestureDetector) : GestureDetector :=
  mkDetector (debounceFrames this) None None 0.

(** Feeding a sequence of raw labels, one [update] per frame: the final
    detector and the value each call returned. *)
Fixpoint feed (this : GestureDetector) (raws : list (option HandState))
  : GestureDetector * list (option HandState) :=
  match raws with
  | [] => (this, [])
  | r :: rest =>
    let '(this', out) := updateRaw this r in
    let '(final, outs) := feed this' rest in
    (final, out :: outs)
  end.

End GestureLogic.

(** ** particles.js *)

Module Particles.

Local Open Scope R_scope.

(** The tunable constants at the head of the file. *)
Definition PARTICLE_COUNT : nat := Z.to_nat 50000.
Definition SPACE_RADIUS : R := 15.
Definition EASING : R := 0.025.
Definition ROTATION_SENSITIVITY : R := 1.5.
Definition ROTATION_EASING : R := 0.08.
Definition HEARTBEAT_AMPLITUDE : R := 0.05.
Definition HEARTBEAT_SPEED : R := 1.2.

Definition HEART_SIZE : R := 3.0.
Definition HEART_SCALE_X : R := 1.3.
Definition HEART_SCALE_Y : R := 1.1.
Definition HEART_SCALE_Z : R := 0.9.
Definition CENTER_LINE_AVOID : R := 0.15.

(** [a < b] and [a > b] as the booleans the conditions test. *)
Definition ltb (a b : R) : bool := if Rlt_dec a b then true else false.
Definition gtb (a b : R) : bool := ltb b a.

(** [Math.cbrt] *)
Definition Math_cbrt (x : R) : R :=
  if Rlt_dec 0 x then Rpower x (/ 3)
  else if Rlt_dec x 0 then - Rpower (- x) (/ 3)
  else 0.

(** [Math.floor(count * 0.7)] on a natural [count].  It decides which
    slots are surface points, so it is computed as the program computes
    it, in binary64: [count] as a JavaScript number, the rounded product
    with the literal [0.7], and the floor of that.  The product falls just
    below the integer for some counts (90 * 0.7 is 62.99999999999999, so
    the floor is 62 and not 63). *)
Definition Number_of_nat (n : nat) : float :=
  SF2Prim (binary_normalize 53 1024 (Z.of_nat n) 0 false).

(** [Math.floor] of a number that is zero or positive and finite. *)
Definition Math_floor_nat (x : float) : nat :=
  match Prim2SF x with
  | S754_finite false m e =>
    Z.to_nat (if (0 <=? e)%Z then Z.pos m * 2 ^ e else Z.pos m / 2 ^ (- e))
  | _ => 0
  end.

Definition floor_0_7 (count : nat) : nat :=
  Math_floor_nat (Number_of_nat count * 0.7)%float.

(** *** Random numbers

    [random k] is the value the [k]-th call of [Math.random()] returns; a
    computation that draws numbers takes the count of calls made so far
    and returns it updated. *)
Definition Gen (A : Type) : Type := nat -> A * nat.

Definition gret {A} (v : A) : Gen A := fun k => (v, k).

Definition gbind {A B} (m : Gen A) (f : A -> Gen B) : Gen B :=
  fun k => let '(v, k') := m k in f v k'.

Declare Scope gen_scope.
Delimit Scope gen_scope with gen.
Notation "'let*' x ':=' m 'in' k" := (gbind m (fun x => k))
  (at level 10, x name, m at level 200, k at level 200,
   format "'[v' 'let*'  x  ':='  m  'in' '/' k ']'") : gen_scope.
Local Open Scope gen_scope.

(** [for (let i = 0; i < count; i++) body] *)
Fixpoint forFrom {T} (i count : nat) (body : nat -> T -> Gen T) (s : T)
  : Gen T :=
  match count with
  | O => gret s
  | S count' => let* s' := body i s in forFrom (S i) count' body s'
  end.

Section Generators.

Variable random : nat -> R.

Definition Math_random : Gen R := fun k => (random k, S k).

(** The surface branch of the loop of [generateHeartPoints]: the candidate
    [(x, y, z)] before the centre-line test. *)
Definition surfaceCandidate : Gen (R * R * R) :=
  let* r1 := Math_random in
  let u := r1 * PI * 2 in
  let* r2 := Math_random in
  let v := r2 * PI in
  let sinU := sin u in
  let cosU := cos u in
  let sinV := sin v in
  let cosV := cos v in
  let heartX := 16 * sinU ^ 3 in
  let heartY := 13 * cosU - 5 * cos (2 * u) - 2 * cos (3 * u) - cos (4 * u) in
  let nx := heartX / 16 in
  let ny := heartY / 17 in
  let heartRadius := sqrt (nx * nx + ny * ny) in
  let zFactor := cosV in
  let xyFactor := sinV in
  let x := nx * xyFactor * 0.9 + nx * 0.1 in
  let y := ny * xyFactor * 0.9 + ny * 0.1 in
  let z := zFactor * heartRadius * 0.7 in
  let surfaceNoise := 0.05 in
  let* n1 := Math_random in
  let x := x + (n1 - 0.5) * surfaceNoise in
  let* n2 := Math_random in
  let y := y + (n2 - 0.5) * surfaceNoise in
  let* n3 := Math_random in
  let z := z + (n3 - 0.5) * surfaceNoise * 0.5 in
  gret (x, y, z).

(** The interior branch; [Math.pow(r, 0.5)] of a sample [r] in [[0, 1)]
    is its square root. *)
Definition interiorCandidate : Gen (R * R * R) :=
  let* r1 := Math_random in
  let u := r1 * PI * 2 in
  let* r2 := Math_random in
  let fillFactor := sqrt r2 * 0.85 in
  let heartX := 16 * sin u ^ 3 in
  let heartY := 13 * cos u - 5 * cos (2 * u) - 2 * cos (3 * u) - cos (4 * u) in
  let nx := heartX / 16 * fillFactor in
  let ny := heartY / 17 * fillFactor in
  let heartRadius := sqrt (nx * nx + ny * ny) in
  let x := nx in
  let y := ny in
  let* r3 := Math_random in
  let z := (r3 - 0.5) * heartRadius * 1.2 in
  gret (x, y, z).

(** The centre-line test: [true] when the loop takes [continue]. *)
Definition centerLineSkip (x z : R) : Gen bool :=
  let distFromCenterX := Rabs x in
  let distFromCenterZ := Rabs z in
  if ltb distFromCenterX CENTER_LINE_AVOID
     && ltb distFromCenterZ CENTER_LINE_AVOID
  then let* r := Math_random in gret (gtb r 0.08)
  else gret false.

(** [while (generated < count) { ... }].  The loop need not end, so it
    runs on [fuel], one unit per iteration; [None] is fuel exhausted with
    [generated < count] still true. *)
Fixpoint heartLoop (fuel count surfaceCount generated : nat) (points : list R)
  : Gen (option (list R)) :=
  if (generated <? count)%nat then
    match fuel with
    | O => gret None
    | S fuel' =>
      let* c := (if (generated <? surfaceCount)%nat
                 then surfaceCandidate else interiorCandidate) in
      let '(x, y, z) := c in
      let* skip := centerLineSkip x z in
      if skip then heartLoop fuel' count surfaceCount generated points
      else
        let finalX := x * HEART_SCALE_X * HEART_SIZE in
        let finalY := y * HEART_SCALE_Y * HEART_SIZE in
        let finalZ := z * HEART_SCALE_Z * HEART_SIZE in
        let points := <[(generated * 3)%nat := finalX]> points in
        let points := <[(generated * 3 + 1)%nat := finalY]> points in
        let points := <[(generated * 3 + 2)%nat := finalZ]> points in
        heartLoop fuel' count surfaceCount (S generated) points
    end
  else gret (Some points).

(** [generateHeartPoints(count)] *)
Definition generateHeartPoints (fuel count : nat) : Gen (option (list R)) :=
  let points := replicate (count * 3) 0 in
  let generated := 0%nat in
  let surfaceCount := floor_0_7 count in
  heartLoop fuel count surfaceCount generated points.

(** [generateSpacePoints(count, radius)] *)
Definition generateSpacePoints (count : nat) (radius : R) : Gen (list R) :=
  let points := replicate (count * 3) 0 in
  forFrom 0 count
    (fun i points =>
       let* r1 := Math_random in
       let theta := r1 * PI * 2 in
       let* r2 := Math_random in
       let phi := acos (2 * r2 - 1) in
       let* r3 := Math_random in
       let r := radius * Math_cbrt r3 in
       let points := <[(i * 3)%nat := r * sin phi * cos theta]> points in
       let points := <[(i * 3 + 1)%nat := r * sin phi * sin theta]> points in
       let points := <[(i * 3 + 2)%nat := r * cos phi]> points in
       gret points)
    points.

End Generators.

(** *** The engine state

    The module-level variables of [particles.js].  A [Float32Array] is a
    list of reals kept in [heap]; a variable that holds an array holds its
    index in [heap], so that two variables may name one array.  [null] is
    [None].  The scene, camera, renderer, colours and sizes only feed the
    renderer and are left out. *)

Abbreviation Buffer := (list R).

(** A JavaScript value, as far as [setMode] can tell values apart. *)
Inductive jsval : Type :=
| JString (s : string)
| JNumber (x : R)
| JBoolean (b : bool)
| JNull
| JUndefined.

(** [v === 'lit'] for a string literal. *)
Definition strictEqStr (v : jsval) (lit : string) : bool :=
  match v with
  | JString s => String.eqb s lit
  | _ => false
  end.

(** The shader uniforms [time] and [mode] of [particleMaterial]. *)
Record Uniforms : Type := mkUniforms {
  u_time : R;
  u_mode : R
}.

Inductive ConsoleCall : Type :=
| console_log (msg : string)
| console_warn (msg : string).

Record Engine : Type := mkEngine {
  heap : list Buffer;
  positions : option nat;
  heartTargets : option nat;
  spaceTargets : option nat;
  (** the array of the ['position'] attribute of [particleGeometry] *)
  particleGeometry : option nat;
  particleMaterial : option Uniforms;
  (** [rotation.x] and [rotation.y] of [particleContainer] *)
  particleContainer : option (R * R);
  currentMode : jsval;
  time : R;
  targetRotationX : R;
  targetRotationY : R;
  currentRotationX : R;
  currentRotationY : R;
  console : list ConsoleCall
}.

(** The state when the module has been loaded. *)
Definition initialEngine : Engine :=
  {| heap := [];
     positions := None;
     heartTargets := None;
     spaceTargets := None;
     particleGeometry := None;
     particleMaterial := None;
     particleContainer := None;
     currentMode := JString "space";
     time := 0;
     targetRotationX := 0;
     targetRotationY := 0;
     currentRotationX := 0;
     currentRotationY := 0;
     console := [] |}.

(** [new Float32Array(...)]: a fresh array, and the heap that holds it. *)
Definition alloc (h : list Buffer) (b : Buffer) : nat * list Buffer :=
  (length h, h ++ [b]).

(** [a[i]] on an array variable.  [None] stands for a [TypeError] ([a] is
    [null]) and for a read past the end, whose [undefined] has no real
    number to denote. *)
Definition readAt (h : list Buffer) (a : option nat) (i : nat) : option R :=
  match a with
  | None => None
  | Some r =>
    match h !! r with
    | None => None
    | Some b => b !! i
    end
  end.

(** [a[i] = v] on a typed array: a write past the end is ignored.  Over
    the reals the value kept is [v] itself; the rounding to binary32 of a
    store into a [Float32Array] is in the module [Binary32] below, which
    has the tick on the numbers of the program. *)
Definition writeAt (h : list Buffer) (a : nat) (i : nat) (v : R)
  : list Buffer :=
  match h !! a with
  | None => h
  | Some b => <[a := <[i := v]> b]> h
  end.

(** [setMode(mode)] *)
Definition setMode (mode : jsval) (e : Engine) : Engine :=
  if negb (strictEqStr mode "heart") && negb (strictEqStr mode "space") then
    {| heap := heap e;
       positions := positions e;
       heartTargets := heartTargets e;
       spaceTargets := spaceTargets e;
       particleGeometry := particleGeometry e;
       particleMaterial := particleMaterial e;
       particleContainer := particleContainer e;
       currentMode := currentMode e;
       time := time e;
       targetRotationX := targetRotationX e;
       targetRotationY := targetRotationY e;
       currentRotationX := currentRotationX e;
       currentRotationY := currentRotationY e;
       console := console e ++ [console_warn "Invalid mode:"] |}
  else
    {| heap := heap e;
       positions := positions e;
       heartTargets := heartTargets e;
       spaceTargets := spaceTargets e;
       particleGeometry := particleGeometry e;
       particleMaterial :=
         match particleMaterial e with
         | Some u =>
           Some {| u_time := u_time u;
                   u_mode := if strictEqStr mode "heart" then 1.0 else 0.0 |}
         | None => None
         end;
       particleContainer := particleContainer e;
       currentMode := mode;
       time := time e;
       targetRotationX := targetRotationX e;
       targetRotationY := targetRotationY e;
       currentRotationX := currentRotationX e;
       currentRotationY := currentRotationY e;
       console := console e ++ [console_log "3D 粒子模式切換為:"] |}.

(** [getMode()] *)
Definition getMode (e : Engine) : jsval := currentMode e.

(** [setRotationFromHand(normX, normY)] *)
Definition setRotationFromHand (normX normY : R) (e : Engine) : Engine :=
  let targetRotationY' := - normX * PI * ROTATION_SENSITIVITY in
  let targetRotationX' := normY * PI * 0.5 * ROTATION_SENSITIVITY in
  let targetRotationX' :=
    Rmax (- PI * 0.4) (Rmin (PI * 0.4) targetRotationX') in
  {| heap := heap e;
     positions := positions e;
     heartTargets := heartTargets e;
     spaceTargets := spaceTargets e;
     particleGeometry := particleGeometry e;
     particleMaterial := particleMaterial e;
     particleContainer := particleContainer e;
     currentMode := currentMode e;
     time := time e;
     targetRotationX := targetRotationX';
     targetRotationY := targetRotationY';
     currentRotationX := currentRotationX e;
     currentRotationY := currentRotationY e;
     console := console e |}.

(** The body of the particle loop of [animate] for particle [i]. *)
Definition animateParticle (currentMode : jsval) (heartbeat : R)
    (heartTargets spaceTargets : option nat) (posArray : nat)
    (i : nat) (h : list Buffer) : option (list Buffer) :=
  let i3 := (i * 3)%nat in
  target ← (if strictEqStr currentMode "heart" then
              targetX ← readAt h heartTargets i3;
              targetY ← readAt h heartTargets (i3 + 1);
              targetZ ← readAt h heartTargets (i3 + 2);
              Some (targetX * heartbeat, targetY * heartbeat,
                    targetZ * heartbeat)
            else
              targetX ← readAt h spaceTargets i3;
              targetY ← readAt h spaceTargets (i3 + 1);
              targetZ ← readAt h spaceTargets (i3 + 2);
              Some (targetX, targetY, targetZ));
  let '(targetX, targetY, targetZ) := target in
  px ← readAt h (Some posArray) i3;
  let h := writeAt h posArray i3 (px + (targetX - px) * EASING) in
  py ← readAt h (Some posArray) (i3 + 1);
  let h := writeAt h posArray (i3 + 1) (py + (targetY - py) * EASING) in
  pz ← readAt h (Some posArray) (i3 + 2);
  let h := writeAt h posArray (i3 + 2) (pz + (targetZ - pz) * EASING) in
  Some h.

(** [for (let i = 0; i < count; i++)] over the heap, stopping at the first
    failing iteration. *)
Fixpoint forParticles (i count : nat)
    (body : nat -> list Buffer -> option (list Buffer)) (h : list Buffer)
  : option (list Buffer) :=
  match count with
  | O => Some h
  | S count' => h' ← body i h; forParticles (S i) count' body h'
  end.

(** [animate()], one animation tick; rendering and the request of the next
    frame are outside the model. *)
Definition animate (e : Engine) : option Engine :=
  let time' := time e + 0.016 in
  let particleMaterial' :=
    match particleMaterial e with
    | Some u => Some {| u_time := time'; u_mode := u_mode u |}
    | None => None
    end in
  let heartbeat :=
    if strictEqStr (currentMode e) "heart"
    then 1 + HEARTBEAT_AMPLITUDE * sin (time' * HEARTBEAT_SPEED)
    else 1 in
  posArray ← particleGeometry e;
  heap' ← forParticles 0 PARTICLE_COUNT
             (animateParticle (currentMode e) heartbeat
                (heartTargets e) (spaceTargets e) posArray)
             (heap e);
  let currentRotationX' :=
    currentRotationX e
    + (targetRotationX e - currentRotationX e) * ROTATION_EASING in
  let currentRotationY' :=
    currentRotationY e
    + (targetRotationY e - currentRotationY e) * ROTATION_EASING in
  Some {| heap := heap';
          positions := positions e;
          heartTargets := heartTargets e;
          spaceTargets := spaceTargets e;
          particleGeometry := particleGeometry e;
          particleMaterial := particleMaterial';
          particleContainer :=
            match particleContainer e with
            | Some _ => Some (currentRotationX', currentRotationY')
            | None => None
            end;
          currentMode := currentMode e;
          time := time';
          targetRotationX := targetRotationX e;
          targetRotationY := targetRotationY e;
          currentRotationX := currentRotationX';
          currentRotationY := currentRotationY';
          console := console e |}.

(** [K] ticks in a row. *)
Fixpoint ticks (K : nat) (e : Engine) : option Engine :=
  match K with
  | O => Some e
  | S K' => e' ← animate e; ticks K' e'
  end.

Section Lifecycle.

Variable random : nat -> R.

(** [startAnimation()]: it defines [animate] and calls it once; each
    [animate] asks the scheduler for the next one. *)
Definition startAnimation (e : Engine) : option Engine := animate e.

(** The statements of [initParticles(containerElement)] up to the call
    of [startAnimation()]: the targets are generated, the live buffer is
    [new Float32Array(spaceTargets)], and the material is created with
    [time = 0] and [mode = 0.0].  [None] when the heart loop runs out of
    [fuel]. *)
Definition initScene (fuel : nat) (e : Engine) : Gen (option Engine) :=
  let* heartPoints := generateHeartPoints random fuel PARTICLE_COUNT in
  match heartPoints with
  | None => gret None
  | Some heartPoints =>
    let '(heartTargets', h) := alloc (heap e) heartPoints in
    let* spacePoints :=
      generateSpacePoints random PARTICLE_COUNT SPACE_RADIUS in
    let '(spaceTargets', h) := alloc h spacePoints in
    let '(positions', h) :=
      alloc h (default [] (h !! spaceTargets')) in
    gret (Some
            {| heap := h;
               positions := Some positions';
               heartTargets := Some heartTargets';
               spaceTargets := Some spaceTargets';
               particleGeometry := Some positions';
               particleMaterial := Some {| u_time := 0; u_mode := 0.0 |};
               particleContainer := Some (0, 0);
               currentMode := currentMode e;
               time := time e;
               targetRotationX := targetRotationX e;
               targetRotationY := targetRotationY e;
               currentRotationX := currentRotationX e;
               currentRotationY := currentRotationY e;
               console := console e |})
  end.

(** [initParticles(containerElement)] *)
Definition initParticles (fuel : nat) (e : Engine) : Gen (option Engine) :=
  let* scene := initScene fuel e in
  match scene with
  | None => gret None
  | Some e1 =>
    match startAnimation e1 with
    | None => gret None
    | Some e2 =>
      gret (Some
              {| heap := heap e2;
                 positions := positions e2;
                 heartTargets := heartTargets e2;
                 spaceTargets := spaceTargets e2;
                 particleGeometry := particleGeometry e2;
                 particleMaterial := particleMaterial e2;
                 particleContainer := particleContainer e2;
                 currentMode := currentMode e2;
                 time := time e2;
                 targetRotationX := targetRotationX e2;
                 targetRotationY := targetRotationY e2;
                 currentRotationX := currentRotationX e2;
                 currentRotationY := currentRotationY e2;
                 console :=
                   console e2 ++ [console_log "3D 粒子系統初始化完成"] |})
    end
  end.

(** [resetParticles()] *)
Definition resetParticles (fuel : nat) (e : Engine) : Gen (option Engine) :=
  let* heartPoints := generateHeartPoints random fuel PARTICLE_COUNT in
  match heartPoints with
  | None => gret None
  | Some heartPoints =>
    let '(heartTargets', h) := alloc (heap e) heartPoints in
    let* spacePoints :=
      generateSpacePoints random PARTICLE_COUNT SPACE_RADIUS in
    let '(spaceTargets', h) := alloc h spacePoints in
    gret (Some
            {| heap := h;
               positions := positions e;
               heartTargets := Some heartTargets';
               spaceTargets := Some spaceTargets';
               particleGeometry := particleGeometry e;
               particleMaterial := particleMaterial e;
               particleContainer := particleContainer e;
               currentMode := currentMode e;
               time := time e;
               targetRotationX := targetRotationX e;
               targetRotationY := targetRotationY e;
               currentRotationX := currentRotationX e;
               currentRotationY := currentRotationY e;
               console := console e ++ [console_log "粒子位置已重置"] |})
  end.

End Lifecycle.

End Particles.

(** ** particles.js: the tick with its [Float32Array] stores *)

(** [animate] again, on the numbers of the program: binary64 arithmetic,
    and a rounding to binary32 at every store into the live
    [Float32Array].  [Math.sin] is left to the implementation by the
    language and is a parameter.  The rotation, the uniforms and the
    rendering are left out. *)
Module Binary32.

Import Particles.

Local Open Scope float_scope.

(** [Math.fround(x)]: the binary32 number nearest to [x], ties to even,
    as a binary64 number; what a store into a [Float32Array] keeps. *)
Definition fround (x : float) : float :=
  match Prim2SF x with
  | S754_finite s m e =>
    SF2Prim (binary_normalize 24 128 (cond_Zopp s (Z.pos m)) e s)
  | _ => x
  end.

Definition EASING : float := 0.025.
Definition HEARTBEAT_AMPLITUDE : float := 0.05.
Definition HEARTBEAT_SPEED : float := 1.2.

(** The variables of [particles.js] that the particle loop uses; an
    array variable is an index into [heap] or [null]. *)
Record Engine : Type := mkEngine {
  heap : list (list float);
  heartTargets : option nat;
  spaceTargets : option nat;
  (** the array of the ['position'] attribute of [particleGeometry] *)
  particleGeometry : option nat;
  currentMode : jsval;
  time : float
}.

(** [a[i]]; [None] stands for a [TypeError] ([a] is [null]) and for a
    read past the end. *)
Definition readAt (h : list (list float)) (a : option nat) (i : nat)
  : option float :=
  match a with
  | None => None
  | Some r =>
    match h !! r with
    | None => None
    | Some b => b !! i
    end
  end.

(** [a[i] = v] on a [Float32Array]: the value kept is [fround v]; a write
    past the end is ignored. *)
Definition writeAt (h : list (list float)) (a : nat) (i : nat) (v : float)
  : list (list float) :=
  match h !! a with
  | None => h
  | Some b => <[a := <[i := fround v]> b]> h
  end.

(** The body of the particle loop of [animate] for particle [i]. *)
Definition animateParticle (currentMode : jsval) (heartbeat : float)
    (heartTargets spaceTargets : option nat) (posArray : nat)
    (i : nat) (h : list (list float)) : option (list (list float)) :=
  let i3 := (i * 3)%nat in
  target ← (if strictEqStr currentMode "heart" then
              targetX ← readAt h heartTargets i3;
              targetY ← readAt h heartTargets (i3 + 1);
              targetZ ← readAt h heartTargets (i3 + 2);
              Some (targetX * heartbeat, targetY * heartbeat,
                    targetZ * heartbeat)
            else
              targetX ← readAt h spaceTargets i3;
              targetY ← readAt h spaceTargets (i3 + 1);
              targetZ ← readAt h spaceTargets (i3 + 2);
              Some (targetX, targetY, targetZ));
  let '(targetX, targetY, targetZ) := target in
  px ← readAt h (Some posArray) i3;
  let h := writeAt h posArray i3 (px + (targetX - px) * EASING) in
  py ← readAt h (Some posArray) (i3 + 1);
  let h := writeAt h posArray (i3 + 1) (py + (targetY - py) * EASING) in
  pz ← readAt h (Some posArray) (i3 + 2);
  let h := writeAt h posArray (i3 + 2) (pz + (targetZ - pz) * EASING) in
  Some h.

(** [for (let i = 0; i < count; i++)] over the heap. *)
Fixpoint forParticles (i count : nat)
    (body : nat -> list (list float) -> option (list (list float)))
    (h : list (list float)) : option (list (list float)) :=
  match count with
  | O => Some h
  | S count' => h' ← body i h; forParticles (S i) count' body h'
  end.

Section Tick.

Variable Math_sin : float -> float.

(** [animate()]: the time, the heartbeat and the particle loop. *)
Definition animate (e : Engine) : option Engine :=
  let time' := time e + 0.016 in
  let heartbeat :=
    if strictEqStr (currentMode e) "heart"
    then 1 + HEARTBEAT_AMPLITUDE * Math_sin (time' * HEARTBEAT_SPEED)
    else 1 in
  posArray ← particleGeometry e;
  heap' ← forParticles 0 PARTICLE_COUNT
             (animateParticle (currentMode e) heartbeat
                (heartTargets e) (spaceTargets e) posArray)
             (heap e);
  Some {| heap := heap';
          heartTargets := heartTargets e;
          spaceTargets := spaceTargets e;
          particleGeometry := particleGeometry e;
          currentMode := currentMode e;
          time := time' |}.

(** [K] ticks in a row. *)
Fixpoint ticks (K : nat) (e : Engine) : option Engine :=
  match K with
  | O => Some e
  | S K' => e' ← animate e; ticks K' e'
  end.

End Tick.

End Binary32.

(** ** particles.js: colours and sizes *)

Module Palette.

Import Particles.

Local Open Scope R_scope.
Local Open Scope gen_scope.



(** The helper [hue2rgb] of [hslToRgb]. *)
Definition hue2rgb (p q t : R) : R :=
  let t := if ltb t 0 then t + 1 else t in
  let t := if gtb t 1 then t - 1 else t in
  if ltb t (1 / 6) then p + (q - p) * 6 * t
  else if ltb t (1 / 2) then q
  else if ltb t (2 / 3) then p + (q - p) * (2 / 3 - t) * 6
  else p.

(** [hslToRgb(h, s, l)] *)
Definition hslToRgb (h s l : R) : R * R * R :=
  if Req_dec_T s 0 then (l, l, l)
  else
    let q := if ltb l 0.5 then l * (1 + s) else l + s - l * s in
    let p := 2 * l - q in
    (hue2rgb p q (h + 1 / 3), hue2rgb p q h, hue2rgb p q (h - 1 / 3)).

Section Generators.

Variable random : nat -> R.




End Generators.

End Palette.

(** ** hand-tracking.js and main.js: from a camera frame to the mode *)

Module App.

Import GestureLogic Particles.

(** *** hand-tracking.js *)

(** A call of one of the two callbacks that [main.js] registers. *)
Inductive CallbackCall : Type :=
| HandStateChange (state : HandState)
| HandPosition (normX normY : float).

(** The module variables of [hand-tracking.js] that a frame uses: the
    detector, and whether each callback is set. *)
Record Tracker : Type := mkTracker {
  gestureDetector : GestureDetector;
  onHandStateChangeCallback : bool;
  onHandPositionCallback : bool
}.

(** [getPalmCenter(landmarks)] of [hand-tracking.js]: the mean of [x] and
    of [y] over the wrist and the four MCP joints. *)
Definition getPalmCenter2D (landmarks : list Point) : Eval (float * float) :=
  let* wrist := landmarkAt landmarks 0 in
  let* indexMcp := landmarkAt landmarks 5 in
  let* middleMcp := landmarkAt landmarks 9 in
  let* ringMcp := landmarkAt landmarks 13 in
  let* pinkyMcp := landmarkAt landmarks 17 in
  let points := [wrist; indexMcp; middleMcp; ringMcp; pinkyMcp] in
  let '(sumX, sumY) :=
    fold_left (fun '(sumX, sumY) p =>
                 ((sumX + pt_x p)%float, (sumY + pt_y p)%float))
              points (0%float, 0%float) in
  let n := of_uint63 (Uint63.of_Z (Z.of_nat (length points))) in
  ret ((sumX / n)%float, (sumY / n)%float).

(** The body of [detectLoop] for one video frame, given the result of
    [detectForVideo]: the hands found, each a list of landmarks, or
    nothing.  It returns the tracker and the callbacks called, in order.
    An exception is caught by the [try] of the loop and ends the frame. *)
Definition detectFrame (results : option (list (list Point)))
    (tr : Tracker) : Tracker * list CallbackCall :=
  match results with
  | Some (landmarks :: _) =>
    match update (gestureDetector tr) (Some landmarks) [] with
    | (Returned (detector', stateChange), _) =>
      let tr' := mkTracker detector' (onHandStateChangeCallback tr)
                           (onHandPositionCallback tr) in
      let calls :=
        match stateChange with
        | Some s =>
          if onHandStateChangeCallback tr then [HandStateChange s] else []
        | None => []
        end in
      if onHandPositionCallback tr then
        match getPalmCenter2D landmarks [] with
        | (Returned (x, y), _) =>
          let normX := ((x - 0.5) * 2)%float in
          let normY := ((y - 0.5) * 2)%float in
          (tr', calls ++ [HandPosition normX normY])
        | (Thrown _, _) => (tr', calls)
        end
      else (tr', calls)
    | (Thrown _, _) => (tr, [])
    end
  | _ => (tr, [])
  end.

(** [startHandTracking(onHandStateChange, videoElement)], after
    [setHandPositionCallback]: a new detector with a threshold of 5. *)
Definition startHandTracking : Tracker :=
  mkTracker (constructor 5) true true.

(** *** main.js *)

(** The module variable [currentGestureState], the particle engine, and
    the messages given to [showNotification]. *)
Record Main : Type := mkMain {
  currentGestureState : option HandState;
  engine : Engine;
  notifications : list string
}.

(** [onHandStateChange(state)] *)
Definition onHandStateChange (state : HandState) (m : Main) : Main :=
  if strictEq (Some state) (currentGestureState m) then m
  else
    match state with
    | fist =>
      mkMain (Some state) (setMode (JString "heart") (engine m))
             (notifications m ++ ["✊ 握拳 → 3D 愛心聚合中..."%string])
    | open =>
      mkMain (Some state) (setMode (JString "space") (engine m))
             (notifications m ++ ["🖐️ 張開手 → 3D 星空散開中..."%string])
    end.

(** [onHandPosition(normX, normY)] *)
Definition onHandPosition (normX normY : R) (m : Main) : Main :=
  mkMain (currentGestureState m)
         (setRotationFromHand normX normY (engine m))
         (notifications m).

Section Wiring.

(** The real number a JavaScript number stands for, where the numbers of
    a position callback enter the real-number model of [particles.js]. *)
Variable toReal : float -> R.

Definition dispatch (m : Main) (c : CallbackCall) : Main :=
  match c with
  | HandStateChange s => onHandStateChange s m
  | HandPosition normX normY =>
    onHandPosition (toReal normX) (toReal normY) m
  end.

(** One video frame through the tracker and the handlers of [main.js]. *)
Definition onFrame (results : option (list (list Point)))
    (sys : Tracker * Main) : Tracker * Main :=
  let '(tr', calls) := detectFrame results (fst sys) in
  (tr', fold_left dispatch calls (snd sys)).

(** A sequence of frames. *)
Definition onFrames (frames : list (option (list (list Point))))
    (sys : Tracker * Main) : Tracker * Main :=
  fold_left (fun sys results => onFrame results sys) frames sys.

End Wiring.

End App.

(** ** main.js: the mouse and touch fallback *)

Module Fallback.

Import Particles App.

Local Open Scope R_scope.

(** The variables of [setupFallbackInteraction] that its listeners
    share, with the state of [main.js] and of the particle engine.
    Coordinates are real numbers. *)
Record Handlers : Type := mkHandlers {
  isHeartMode : bool;
  isDragging : bool;
  lastMouseX : R;
  lastMouseY : R;
  touchStartX : R;
  touchStartY : R;
  page : Main
}.

(** An event, with the properties its listener reads: [clientX] and
    [clientY] of a mouse event, and of each touch of [e.touches] or
    [e.changedTouches]. *)
Inductive Event : Type :=
| click (clientX clientY : R)
| mousedown (clientX clientY : R)
| mousemove (clientX clientY : R)
| mouseup
| touchstart (touches : list (R * R))
| touchmove (touches : list (R * R))
| touchend (changedTouches : list (R * R)).

Definition showNotification (message : string) (m : Main) : Main :=
  mkMain (currentGestureState m) (engine m) (notifications m ++ [message]).

Definition withEngine (f : Engine -> Engine) (m : Main) : Main :=
  mkMain (currentGestureState m) (f (engine m)) (notifications m).

(** [setupFallbackInteraction(container)], up to the listeners. *)
Definition setupFallbackInteraction (m : Main) : Handlers :=
  mkHandlers false false 0 0 0 0
    (showNotification "💡 點擊切換模式，拖曳旋轉 3D" m).

(** [isHeartMode = !isHeartMode] and the branch that follows it, the same
    in the [click] and the [touchend] listener. *)
Definition toggle (st : Handlers) : Handlers :=
  let isHeartMode' := negb (isHeartMode st) in
  let page' :=
    if isHeartMode' then
      showNotification "❤️ 3D 愛心模式"
        (withEngine (setMode (JString "heart")) (page st))
    else
      showNotification "✨ 3D 星空模式"
        (withEngine (setMode (JString "space")) (page st)) in
  mkHandlers isHeartMode' (isDragging st) (lastMouseX st) (lastMouseY st)
             (touchStartX st) (touchStartY st) page'.

Section Window.

(** [window.innerWidth] and [window.innerHeight], not zero. *)
Variables innerWidth innerHeight : R.

(** The listener of each event. *)
Definition listener (e : Event) (st : Handlers) : Handlers :=
  match e with
  | click clientX clientY =>
    if gtb (Rabs (clientX - lastMouseX st)) 5
       || gtb (Rabs (clientY - lastMouseY st)) 5
    then st
    else toggle st
  | mousedown clientX clientY =>
    mkHandlers (isHeartMode st) true clientX clientY
               (touchStartX st) (touchStartY st) (page st)
  | mousemove clientX clientY =>
    if negb (isDragging st) then st
    else
      let deltaX := clientX - lastMouseX st in
      let deltaY := clientY - lastMouseY st in
      let normX := deltaX / innerWidth * 20 in
      let normY := deltaY / innerHeight * 20 in
      mkHandlers (isHeartMode st) (isDragging st) clientX clientY
                 (touchStartX st) (touchStartY st)
                 (withEngine (setRotationFromHand normX normY) (page st))
  | mouseup =>
    mkHandlers (isHeartMode st) false (lastMouseX st) (lastMouseY st)
               (touchStartX st) (touchStartY st) (page st)
  | touchstart touches =>
    match touches with
    | [(clientX, clientY)] =>
      mkHandlers (isHeartMode st) (isDragging st)
                 (lastMouseX st) (lastMouseY st) clientX clientY (page st)
    | _ => st
    end
  | touchmove touches =>
    match touches with
    | [(clientX, clientY)] =>
      let deltaX := clientX - touchStartX st in
      let deltaY := clientY - touchStartY st in
      let normX := deltaX / innerWidth * 20 in
      let normY := deltaY / innerHeight * 20 in
      mkHandlers (isHeartMode st) (isDragging st)
                 (lastMouseX st) (lastMouseY st) clientX clientY
                 (withEngine (setRotationFromHand normX normY) (page st))
    | _ => st
    end
  | touchend changedTouches =>
    match changedTouches with
    | [(clientX, clientY)] =>
      if ltb (Rabs (clientX - touchStartX st)) 10
         && ltb (Rabs (clientY - touchStartY st)) 10
      then toggle st
      else st
    | _ => st
    end
  end.

(** A sequence of events, in order. *)
Definition listeners (es : list Event) (st : Handlers) : Handlers :=
  fold_left (fun st e => listener e st) es st.

End Window.

End Fallback.

(* ================================================================== *)
(** * Part II: properties                                              *)
(* ================================================================== *)

(** ** The debouncer *)

Module DebounceFacts.

Import GestureLogic.

Local Open Scope Z_scope.

(** What [update] leaves behind when it drops the pending label. *)
Definition clearPending (d : GestureDetector) : GestureDetector :=
  mkDetector (debounceFrames d) (currentState d) None 0.

Definition emissions (d : GestureDetector) (raws : list (option HandState))
  : list (option HandState) := snd (feed d raws).

Definition final (d : GestureDetector) (raws : list (option HandState))
  : GestureDetector := fst (feed d raws).

Lemma strictEq_true (a b : option HandState) :
  strictEq a b = true <-> a = b.
Proof.
  destruct a as [[]|], b as [[]|]; simpl; split; intro H;
    try reflexivity; try discriminate H.
Qed.

Lemma strictEq_false (a b : option HandState) :
  strictEq a b = false <-> a <> b.
Proof.
  split.
  - intros H E. apply strictEq_true in E. congruence.
  - intro H. destruct (strictEq a b) eqn:E; [|reflexivity].
    apply strictEq_true in E. contradiction.
Qed.

Lemma strictEq_refl (a : option HandState) : strictEq a a = true.
Proof. now apply strictEq_true. Qed.

(** An Unknown frame drops the pending label and returns [null]. *)
Lemma updateRaw_unknown (d : GestureDetector) :
  updateRaw d None = (clearPending d, None).
Proof. reflexivity. Qed.

(** So does a frame equal to the confirmed state. *)
Lemma updateRaw_confirmed (d : GestureDetector) :
  updateRaw d (currentState d) = (clearPending d, None).
Proof.
  unfold updateRaw. rewrite strictEq_refl.
  destruct (strictEq (currentState d) None); reflexivity.
Qed.

(** The first frame of a label that is neither confirmed nor pending
    starts the count at 1 and returns [null], whatever the threshold. *)
Lemma updateRaw_new_pending (d : GestureDetector) (l : HandState) :
  currentState d <> Some l -> pendingState d <> Some l ->
  updateRaw d (Some l)
  = (mkDetector (debounceFrames d) (currentState d) (Some l) 1, None).
Proof.
  intros Hc Hp. unfold updateRaw. simpl (strictEq (Some l) None).
  cbv iota.
  assert (strictEq (Some l) (currentState d) = false) as ->
    by (apply strictEq_false; congruence).
  assert (strictEq (Some l) (pendingState d) = false) as ->
    by (apply strictEq_false; congruence).
  reflexivity.
Qed.

(** A further frame of the pending label: one more, and the emission
    exactly when the count reaches the threshold. *)
Lemma updateRaw_pending (d : GestureDetector) (l : HandState) :
  currentState d <> Some l -> pendingState d = Some l ->
  updateRaw d (Some l)
  = if debounceFrames d <=? pendingCount d + 1
    then (mkDetector (debounceFrames d) (Some l) None 0, Some l)
    else (mkDetector (debounceFrames d) (currentState d) (Some l)
                     (pendingCount d + 1), None).
Proof.
  intros Hc Hp. unfold updateRaw. simpl (strictEq (Some l) None).
  cbv iota.
  assert (strictEq (Some l) (currentState d) = false) as ->
    by (apply strictEq_false; congruence).
  rewrite Hp, strictEq_refl. reflexivity.
Qed.

(** [update] returns a state only in its last branch. *)
Lemma updateRaw_emits (d d' : GestureDetector) (r : option HandState)
    (l : HandState) :
  updateRaw d r = (d', Some l) ->
  r = Some l /\ pendingState d = Some l /\ currentState d <> Some l
  /\ debounceFrames d <= pendingCount d + 1
  /\ d' = mkDetector (debounceFrames d) (Some l) None 0.
Proof.
  unfold updateRaw.
  destruct (strictEq r None) eqn:E1; [discriminate|].
  destruct (strictEq r (currentState d)) eqn:E2; [discriminate|].
  destruct (strictEq r (pendingState d)) eqn:E3; simpl; [|discriminate].
  destruct (debounceFrames d <=? pendingCount d + 1) eqn:E4; [|discriminate].
  intro H. injection H as Hd Hl.
  apply strictEq_true in E3. apply strictEq_false in E2.
  apply Z.leb_le in E4.
  subst d'. repeat split; try congruence; try assumption.
Qed.

Lemma feed_app (d : GestureDetector) (a b : list (option HandState)) :
  feed d (a ++ b)
  = (final (final d a) b, emissions d a ++ emissions (final d a) b).
Proof.
  unfold final, emissions. revert d.
  induction a as [|r a IH]; intro d; simpl.
  - destruct (feed d b); reflexivity.
  - destruct (updateRaw d r) as [d1 o1]. rewrite IH.
    destruct (feed d1 a) as [d2 o2]. simpl.
    destruct (feed d2 b); reflexivity.
Qed.

(** While the count stays below the threshold, frames of the pending
    label only count. *)
Lemma feed_counting (n : nat) (d : GestureDetector) (l : HandState) :
  currentState d <> Some l -> pendingState d = Some l ->
  pendingCount d + Z.of_nat n < debounceFrames d ->
  feed d (repeat (Some l) n)
  = (mkDetector (debounceFrames d) (currentState d) (Some l)
                (pendingCount d + Z.of_nat n),
     repeat None n).
Proof.
  revert d. induction n as [|n IH]; intros d Hc Hp Hlt.
  - simpl. rewrite Z.add_0_r. destruct d; simpl in *. now subst.
  - cbn [repeat feed]. rewrite updateRaw_pending by assumption.
    destruct (Z.leb_spec (debounceFrames d) (pendingCount d + 1)); [lia|].
    rewrite IH; simpl; try assumption; try reflexivity; [|lia].
    do 2 f_equal. lia.
Qed.

(** From a detector on which [l] is neither confirmed nor pending, fewer
    than [T] frames of [l] return nothing and leave the count at their
    number. *)
Lemma feed_streak_below (n : nat) (d : GestureDetector) (l : HandState) :
  currentState d <> Some l -> pendingState d <> Some l ->
  (1 <= n)%nat -> Z.of_nat n < debounceFrames d ->
  feed d (repeat (Some l) n)
  = (mkDetector (debounceFrames d) (currentState d) (Some l) (Z.of_nat n),
     repeat None n).
Proof.
  intros Hc Hp Hn Hlt. destruct n as [|n]; [lia|].
  cbn [repeat feed]. rewrite updateRaw_new_pending by assumption.
  rewrite feed_counting; simpl; try assumption; try reflexivity; [|lia].
  do 2 f_equal. lia.
Qed.

(** With a threshold of 2 or more, [T] frames of [l] return [l] once, on
    the last of them. *)
Lemma feed_streak_full (d : GestureDetector) (l : HandState) :
  2 <= debounceFrames d ->
  currentState d <> Some l -> pendingState d <> Some l ->
  feed d (repeat (Some l) (Z.to_nat (debounceFrames d)))
  = (mkDetector (debounceFrames d) (Some l) None 0,
     repeat None (Z.to_nat (debounceFrames d - 1)) ++ [Some l]).
Proof.
  intros HT Hc Hp.
  replace (Z.to_nat (debounceFrames d))
    with (Z.to_nat (debounceFrames d - 1) + 1)%nat by lia.
  rewrite repeat_app, feed_app. unfold final, emissions.
  rewrite (feed_streak_below (Z.to_nat (debounceFrames d - 1)) d l)
    by (try assumption; lia).
  cbn [fst snd repeat feed]. rewrite updateRaw_pending by (simpl; congruence).
  cbn [debounceFrames pendingCount currentState].
  destruct (Z.leb_spec (debounceFrames d)
              (Z.of_nat (Z.to_nat (debounceFrames d - 1)) + 1)); [|lia].
  reflexivity.
Qed.

(** *** What an emission says about the frames before it *)

Definition endsWith (hist : list (option HandState)) (r : option HandState)
  : Prop := exists pre, hist = pre ++ [r].

(** [d] is the detector reached after the frames [hist], which returned
    [outs]: the count is the length of the run of the pending label that
    ends [hist], and that run returned nothing. *)
Definition Tracked (T : Z) (hist outs : list (option HandState))
    (d : GestureDetector) : Prop :=
  debounceFrames d = T
  /\ length outs = length hist
  /\ (forall l, currentState d <> Some l -> pendingState d <> Some l ->
                ~ endsWith hist (Some l))
  /\ match pendingState d with
     | None => pendingCount d = 0
     | Some l =>
       currentState d <> Some l
       /\ exists pre outs' c,
           (1 <= c)%nat /\ Z.of_nat c < T /\ pendingCount d = Z.of_nat c
           /\ hist = pre ++ repeat (Some l) c /\ ~ endsWith pre (Some l)
           /\ outs = outs' ++ repeat None c /\ length outs' = length pre
     end.

Lemma endsWith_snoc (hist : list (option HandState)) (r r' : option HandState) :
  endsWith (hist ++ [r]) r' -> r = r'.
Proof.
  intros [pre E]. apply app_inj_tail in E. tauto.
Qed.

Lemma Tracked_start (T : Z) (c : option HandState) :
  Tracked T [] [] (mkDetector T c None 0).
Proof.
  repeat split; simpl.
  intros l _ _ [pre E]. destruct pre; discriminate E.
Qed.

(** One frame keeps the relation, and a frame that returns [l] ends a run
    of exactly [T] frames of [l], none of which returned anything before. *)
Lemma Tracked_step (T : Z) (hist outs : list (option HandState))
    (d d' : GestureDetector) (r o : option HandState) :
  2 <= T -> Tracked T hist outs d -> updateRaw d r = (d', o) ->
  Tracked T (hist ++ [r]) (outs ++ [o]) d'
  /\ forall l, o = Some l ->
       r = Some l /\ currentState d <> Some l
       /\ exists pre outs',
           hist = pre ++ repeat (Some l) (Z.to_nat (T - 1))
           /\ ~ endsWith pre (Some l)
           /\ outs = outs' ++ repeat None (Z.to_nat (T - 1))
           /\ length outs' = length pre.
Proof.
  intros HT (HdT & Hlen0 & Hend & Hpend) Hup.
  assert (length (outs ++ [o]) = length (hist ++ [r])) as Hlen1
    by (rewrite !length_app; simpl; lia).
  destruct r as [l|].
  2:{ rewrite updateRaw_unknown in Hup. injection Hup as <- <-.
      split; [|discriminate].
      repeat split; simpl; try assumption.
      intros l _ _ E. apply endsWith_snoc in E. discriminate E. }
  destruct (strictEq (Some l) (currentState d)) eqn:Ecur.
  { apply strictEq_true in Ecur. rewrite Ecur, updateRaw_confirmed in Hup.
    injection Hup as <- <-. split; [|discriminate].
    repeat split; simpl; try assumption.
    intros l' Hl' _ E. apply endsWith_snoc in E. congruence. }
  apply strictEq_false in Ecur.
  destruct (strictEq (Some l) (pendingState d)) eqn:Epen.
  - apply strictEq_true in Epen. symmetry in Epen.
    rewrite updateRaw_pending in Hup by congruence.
    rewrite Epen in Hpend.
    destruct Hpend as (Hcl & pre & outs' & c & Hc1 & HcT & Hpc & Hh & Hpre
                       & Ho & Hlen).
    destruct (Z.leb_spec (debounceFrames d) (pendingCount d + 1)).
    + injection Hup as <- <-. split.
      * repeat split; simpl; try assumption.
        intros l' Hl' _ E. apply endsWith_snoc in E. congruence.
      * intros l' E. injection E as <-.
        split; [reflexivity|]. split; [assumption|].
        exists pre, outs'. replace (Z.to_nat (T - 1)) with c by lia.
        auto.
    + injection Hup as <- <-. split; [|discriminate].
      repeat split; simpl; try assumption.
      * intros l' _ Hl' E. apply endsWith_snoc in E. congruence.
      * exists pre, outs', (S c). repeat split; try assumption; try lia.
        -- rewrite Hh, <- app_assoc. f_equal.
           change [Some l] with (repeat (Some l) 1).
           rewrite <- repeat_app. f_equal. lia.
        -- rewrite Ho, <- app_assoc. f_equal.
           change [@None HandState] with (repeat (@None HandState) 1).
           rewrite <- repeat_app. f_equal. lia.
  - apply strictEq_false in Epen.
    rewrite updateRaw_new_pending in Hup by congruence.
    injection Hup as <- <-. split; [|discriminate].
    repeat split; simpl; try assumption; try congruence.
    + intros l' _ Hl' E. apply endsWith_snoc in E. congruence.
    + exists hist, outs, 1%nat. repeat split; try lia.
      apply Hend; congruence.
Qed.

Lemma feed_snoc (d : GestureDetector) (raws : list (option HandState))
    (r : option HandState) :
  feed d (raws ++ [r])
  = (fst (updateRaw (final d raws) r),
     emissions d raws ++ [snd (updateRaw (final d raws) r)]).
Proof.
  rewrite feed_app. unfold final at 1, emissions at 2. cbn [feed].
  destruct (updateRaw (final d raws) r); reflexivity.
Qed.

Lemma Tracked_feed (T : Z) (c : option HandState)
    (raws : list (option HandState)) :
  2 <= T ->
  Tracked T raws (emissions (mkDetector T c None 0) raws)
            (final (mkDetector T c None 0) raws).
Proof.
  intro HT. induction raws as [|r raws IH] using rev_ind.
  - apply Tracked_start.
  - unfold emissions, final. rewrite feed_snoc. cbn [fst snd].
    destruct (updateRaw (final (mkDetector T c None 0) raws) r) as [d' o] eqn:E.
    cbn [fst snd].
    exact (proj1 (Tracked_step T _ _ _ _ _ _ HT IH E)).
Qed.

Lemma emissions_length (d : GestureDetector)
    (raws : list (option HandState)) :
  length (emissions d raws) = length raws.
Proof.
  unfold emissions. revert d. induction raws as [|r raws IH]; intro d.
  - reflexivity.
  - cbn [feed]. destruct (updateRaw d r) as [d1 o1]. specialize (IH d1).
    destruct (feed d1 raws). simpl in *. now rewrite IH.
Qed.

(** C1, as amended: for every threshold [T >= 2].
    (1) An Unknown frame, and a frame equal to the confirmed state, drop
    the pending label, set the count to 0 and return nothing.
    (2) On a detector where [l] is neither confirmed nor pending, fewer
    than [T] frames of [l] in a row return nothing.
    (3) [T] such frames return [l] exactly once, on the [T]-th, and leave
    [l] confirmed with the count back at 0.
    (4) Whenever a frame returns [l] in a run started with nothing
    pending, that frame is [l], [l] was not the confirmed state, and the
    frames before it end with exactly [T - 1] frames of [l] (the frame
    before those is not [l]) which returned nothing. *)
Theorem debounce_emits_on_Tth_frame (T : Z) :
  2 <= T ->
  (forall d,
      updateRaw d None = (clearPending d, None)
      /\ updateRaw d (currentState d) = (clearPending d, None))
  /\ (forall d l n,
         debounceFrames d = T ->
         currentState d <> Some l -> pendingState d <> Some l ->
         Z.of_nat n < T ->
         emissions d (repeat (Some l) n) = repeat None n
         /\ getState (final d (repeat (Some l) n)) = getState d)
  /\ (forall d l,
         debounceFrames d = T ->
         currentState d <> Some l -> pendingState d <> Some l ->
         feed d (repeat (Some l) (Z.to_nat T))
         = (mkDetector T (Some l) None 0,
            repeat None (Z.to_nat (T - 1)) ++ [Some l]))
  /\ (forall c raws r l,
         let d0 := mkDetector T c None 0 in
         snd (updateRaw (final d0 raws) r) = Some l ->
         r = Some l
         /\ getState (final d0 raws) <> Some l
         /\ exists pre,
             raws = pre ++ repeat (Some l) (Z.to_nat (T - 1))
             /\ ~ endsWith pre (Some l)
             /\ emissions (final d0 pre) (repeat (Some l) (Z.to_nat (T - 1)))
                = repeat None (Z.to_nat (T - 1))).
Proof.
  intro HT. repeat apply conj.
  - intro d. split; [apply updateRaw_unknown | apply updateRaw_confirmed].
  - intros d l n HdT Hc Hp Hn. unfold emissions, final, getState.
    destruct n as [|n]; [split; reflexivity|].
    rewrite feed_streak_below by (try assumption; lia).
    split; reflexivity.
  - intros d l HdT Hc Hp. subst T. apply feed_streak_full; assumption.
  - intros c raws r l d0 Hem.
    destruct (updateRaw (final d0 raws) r) as [d' o] eqn:E.
    simpl in Hem. subst o.
    destruct (Tracked_step T _ _ _ _ _ _ HT (Tracked_feed T c raws HT) E)
      as [_ Hstep].
    destruct (Hstep l eq_refl) as (Hr & Hcur & pre & outs' & Hh & Hpre & Ho
                                   & Hlen).
    split; [assumption|]. split; [assumption|].
    exists pre. split; [assumption|]. split; [assumption|].
    fold d0 in Ho. rewrite Hh in Ho.
    pose proof (feed_app d0 pre (repeat (Some l) (Z.to_nat (T - 1)))) as Happ.
    unfold emissions at 1 in Ho. rewrite Happ in Ho. cbn [snd] in Ho.
    apply app_inj_1 in Ho; [tauto|].
    rewrite emissions_length. symmetry. exact Hlen.
Qed.

(** C1, witness: the scenario of the specification.  With [T = 5] and
    Fist confirmed, five Open frames return Open once, on the fifth. *)
Lemma debounce_five_open_after_fist :
  2 <= 5
  /\ feed (mkDetector 5 (Some fist) None 0) (repeat (Some open) 5)
     = (mkDetector 5 (Some open) None 0,
        [None; None; None; None; Some open]).
Proof.
  split; [lia|].
  apply (proj1 (proj2 (proj2 (debounce_emits_on_Tth_frame 5 ltac:(lia))))
           (mkDetector 5 (Some fist) None 0) open);
    simpl; congruence.
Defined.

(** C1, as stated, fails for the threshold [T = 1]: the first Open frame
    after a confirmed Fist only starts the count, and Open is returned on
    the second frame, not on the [T]-th. *)
Lemma debounce_threshold_one_needs_two_frames :
  feed (mkDetector 1 (Some fist) None 0) [Some open]
  = (mkDetector 1 (Some fist) (Some open) 1, [None])
  /\ feed (mkDetector 1 (Some fist) None 0) [Some open; Some open]
     = (mkDetector 1 (Some open) None 0, [None; Some open]).
Proof. split; reflexivity. Qed.

End DebounceFacts.

(** ** The classifier *)

Module ClassifierFacts.

Import GestureLogic.

Local Open Scope float_scope.

(** *** Comparisons of binary64 numbers *)

Lemma SFcompare_antisym (a b : spec_float) :
  SFcompare b a = option_map CompOpp (SFcompare a b).
Proof.
  destruct a as [sa|sa| |sa ma ea], b as [sb|sb| |sb mb eb];
    try reflexivity;
    try (destruct sa; reflexivity); try (destruct sb; reflexivity);
    try (destruct sa, sb; reflexivity).
  pose proof (Pos.compare_cont_antisym ma mb Eq) as HP. simpl in HP.
  simpl. destruct sa, sb; try reflexivity;
    rewrite (Z.compare_antisym ea eb);
    destruct (ea ?= eb)%Z; simpl; try reflexivity;
    rewrite <- HP; try rewrite CompOpp_involutive; reflexivity.
Qed.

(** [a >= b] excludes [a < b]. *)
Lemma leb_not_ltb (a b : float) :
  (b <=? a) = true -> (a <? b) = false.
Proof.
  rewrite FloatAxioms.leb_spec, FloatAxioms.ltb_spec. unfold SFleb, SFltb.
  rewrite (SFcompare_antisym (Prim2SF b) (Prim2SF a)).
  destruct (SFcompare (Prim2SF b) (Prim2SF a)) as [[]|];
    simpl; congruence.
Qed.

(** A number [==] to a finite non-zero constant is that constant. *)
Lemma eqb_finite (x c : float) (s : bool) (m : positive) (e : Z) :
  Prim2SF c = S754_finite s m e -> (x =? c) = true -> x = c.
Proof.
  intros Hc H. rewrite FloatAxioms.eqb_spec in H. apply Prim2SF_inj. rewrite Hc in *.
  unfold SFeqb in H.
  destruct (Prim2SF x) as [sx|sx| |sx mx ex]; simpl in H;
    try discriminate H;
    try (destruct sx; discriminate H); try (destruct s; discriminate H).
  destruct sx, s; try discriminate H;
    destruct (ex ?= e)%Z eqn:Ee; try discriminate H;
    apply Z.compare_eq in Ee; subst ex;
    destruct (Pos.compare_cont Eq mx m) eqn:Em; try discriminate H;
    apply Pos.compare_eq in Em; subst mx; reflexivity.
Qed.

(** *** The quantities of the specification, as functions of the
    landmarks *)

Definition pointAt (lm : list Point) (i : nat) : Point :=
  default (mkPoint 0 0 None) (lm !! i).

(** PalmCenter: the mean of the wrist and the four MCP joints. *)
Definition palmCenterOf (lm : list Point) : Point :=
  let w := pointAt lm WRIST in
  let a := pointAt lm INDEX_MCP in
  let b := pointAt lm MIDDLE_MCP in
  let c := pointAt lm RING_MCP in
  let d := pointAt lm PINKY_MCP in
  mkPoint ((pt_x w + pt_x a + pt_x b + pt_x c + pt_x d) / 5)
          ((pt_y w + pt_y a + pt_y b + pt_y c + pt_y d) / 5)
          (Some ((orZero (pt_z w) + orZero (pt_z a) + orZero (pt_z b)
                  + orZero (pt_z c) + orZero (pt_z d)) / 5)).

(** HandSize: the distance from the wrist to the middle MCP joint. *)
Definition handSizeOf (lm : list Point) : float :=
  distance (pointAt lm WRIST) (pointAt lm MIDDLE_MCP).

(** The distance of a fingertip to the palm centre over the hand size. *)
Definition normalizedDist (lm : list Point) (tipIdx : nat) : float :=
  distance (pointAt lm tipIdx) (palmCenterOf lm) / handSizeOf lm.

Definition extended (lm : list Point) (tipIdx : nat) : bool :=
  1.3 <? normalizedDist lm tipIdx.

(** The number of extended fingertips. *)
Definition extendedCount (lm : list Point) : nat :=
  length (List.filter (extended lm) FINGERTIPS).

Definition classifyByCount (n : nat) : option HandState :=
  if (4 <=? n)%nat then Some open
  else if (n <=? 1)%nat then Some fist
  else None.

Lemma landmarkAt_pointAt (lm : list Point) (i : nat) (log : list nat) :
  (i < length lm)%nat ->
  landmarkAt lm i log = (Returned (pointAt lm i), log ++ [i]).
Proof.
  intro Hi. unfold landmarkAt, pointAt.
  destruct (lookup_lt_is_Some_2 lm i Hi) as [p ->]. reflexivity.
Qed.

Lemma getPalmCenter_spec (lm : list Point) (log : list nat) :
  (21 <= length lm)%nat ->
  getPalmCenter lm log
  = (Returned (palmCenterOf lm),
     log ++ [WRIST; INDEX_MCP; MIDDLE_MCP; RING_MCP; PINKY_MCP]).
Proof.
  intro Hlen.
  cbv [getPalmCenter bind forOf MCP_JOINTS ret].
  repeat (rewrite landmarkAt_pointAt
            by (cbv [WRIST INDEX_MCP MIDDLE_MCP RING_MCP PINKY_MCP]; lia);
          cbv beta iota).
  rewrite <- !app_assoc. reflexivity.
Qed.

Lemma getHandSize_spec (lm : list Point) (log : list nat) :
  (21 <= length lm)%nat ->
  getHandSize lm log
  = (Returned (handSizeOf lm), log ++ [WRIST; MIDDLE_MCP]).
Proof.
  intro Hlen.
  cbv [getHandSize bind ret].
  repeat (rewrite landmarkAt_pointAt by (cbv [WRIST MIDDLE_MCP]; lia);
          cbv beta iota).
  rewrite <- !app_assoc. reflexivity.
Qed.

(** The fingertip loop counts the fingertips that pass the test. *)
Lemma count_loop (lm : list Point) (palmCenter : Point) (handSize : float)
    (idxs : list nat) (n : nat) (log : list nat) :
  Forall (fun i => (i < length lm)%nat) idxs ->
  forOf idxs
    (fun tipIdx extendedFingers =>
       let* tip := landmarkAt lm tipIdx in
       let dist := distance tip palmCenter in
       let normalizedDist := dist / handSize in
       if 1.3 <? normalizedDist
       then ret (extendedFingers + 1)%nat
       else ret extendedFingers)
    n log
  = (Returned
       (n + length (List.filter
                      (fun i => (1.3 <? distance (pointAt lm i) palmCenter
                                         / handSize)%float) idxs))%nat,
     log ++ idxs).
Proof.
  intro Hall. revert n log.
  induction Hall as [|i idxs Hi _ IH]; intros n log.
  - simpl. unfold ret. now rewrite Nat.add_0_r, app_nil_r.
  - cbn [forOf List.filter]. unfold bind at 1.
    unfold bind at 1. rewrite landmarkAt_pointAt by assumption.
    cbv zeta.
    destruct (1.3 <? distance (pointAt lm i) palmCenter / handSize);
      unfold ret at 1; rewrite IH, <- app_assoc; simpl;
      do 2 f_equal; lia.
Qed.

(** What [detectHandState] returns on 21 landmarks or more. *)
Definition classification (lm : list Point) : option HandState :=
  if handSizeOf lm <? 0.01 then None
  else classifyByCount (extendedCount lm).

(** The landmark indices it reads, in order. *)
Definition reads (lm : list Point) : list nat :=
  [WRIST; INDEX_MCP; MIDDLE_MCP; RING_MCP; PINKY_MCP; WRIST; MIDDLE_MCP]
  ++ (if handSizeOf lm <? 0.01 then [] else FINGERTIPS).

Lemma detectHandState_spec (lm : list Point) (log : list nat) :
  (21 <= length lm)%nat ->
  detectHandState (Some lm) log
  = (Returned (classification lm), log ++ reads lm).
Proof.
  intro Hlen. unfold detectHandState, classification, reads.
  destruct (Nat.ltb_spec (length lm) 21) as [Hlt|_]; [lia|].
  unfold bind at 1. rewrite getPalmCenter_spec by assumption.
  unfold bind at 1. rewrite getHandSize_spec by assumption.
  destruct (handSizeOf lm <? 0.01).
  - unfold ret. rewrite <- !app_assoc. reflexivity.
  - unfold bind at 1. rewrite count_loop.
    + change (0 + length
                (List.filter
                   (fun i => (1.3 <? distance (pointAt lm i) (palmCenterOf lm)
                                     / handSizeOf lm)%float) FINGERTIPS))%nat
        with (extendedCount lm).
      unfold classifyByCount, ret.
      rewrite <- !app_assoc.
      destruct (4 <=? extendedCount lm)%nat; [reflexivity|].
      destruct (extendedCount lm <=? 1)%nat; reflexivity.
    + unfold FINGERTIPS, THUMB_TIP, INDEX_TIP, MIDDLE_TIP, RING_TIP,
        PINKY_TIP.
      repeat constructor; lia.
Qed.

Lemma detectHandState_short (lm : list Point) (log : list nat) :
  (length lm < 21)%nat ->
  detectHandState (Some lm) log = (Returned None, log).
Proof.
  intro Hlen. unfold detectHandState.
  destruct (Nat.ltb_spec (length lm) 21) as [_|Hge]; [reflexivity|lia].
Qed.

Lemma extendedCount_all (lm : list Point) :
  (forall tip, In tip FINGERTIPS -> extended lm tip = true) ->
  extendedCount lm = 5%nat.
Proof.
  intro H. unfold extendedCount, FINGERTIPS in *. cbn [List.filter].
  rewrite !H by (simpl; tauto). reflexivity.
Qed.

Lemma extendedCount_none (lm : list Point) :
  (forall tip, In tip FINGERTIPS -> extended lm tip = false) ->
  extendedCount lm = 0%nat.
Proof.
  intro H. unfold extendedCount, FINGERTIPS in *. cbn [List.filter].
  rewrite !H by (simpl; tauto). reflexivity.
Qed.

(** C2: on 21 landmarks or more, [detectHandState] returns [null] when
    the hand size is below 0.01; when the hand size is at least 0.01 it
    returns the classification of the number of fingertips whose
    normalized distance exceeds 1.3: Open for 4 or 5, Fist for 0 or 1,
    [null] for 2 or 3.  The value does not depend on anything but the
    landmarks.  Five normalized distances equal to 1.6 give Open, five
    equal to 1.0 give Fist. *)
Theorem detectHandState_counts_extended_fingertips
    (lm : list Point) (log : list nat) :
  (21 <= length lm)%nat ->
  let result := fst (detectHandState (Some lm) log) in
  extendedCount lm
  = length (List.filter (fun tip => 1.3 <? normalizedDist lm tip)
                        FINGERTIPS)
  /\ ((handSizeOf lm <? 0.01) = true -> result = Returned None)
  /\ ((0.01 <=? handSizeOf lm) = true ->
      result = Returned (classifyByCount (extendedCount lm))
      /\ ((4 <= extendedCount lm)%nat -> result = Returned (Some open))
      /\ ((extendedCount lm <= 1)%nat -> result = Returned (Some fist))
      /\ ((1 < extendedCount lm < 4)%nat -> result = Returned None)
      /\ ((forall tip, In tip FINGERTIPS ->
                       (normalizedDist lm tip =? 1.6) = true) ->
          result = Returned (Some open))
      /\ ((forall tip, In tip FINGERTIPS ->
                       (normalizedDist lm tip =? 1.0) = true) ->
          result = Returned (Some fist)))
  /\ (forall log', fst (detectHandState (Some lm) log') = result).
Proof.
  intros Hlen result. subst result.
  split; [reflexivity|].
  rewrite detectHandState_spec by assumption. cbn [fst].
  unfold classification.
  split; [intros ->; reflexivity|].
  split.
  - intro Hge. apply leb_not_ltb in Hge. rewrite Hge.
    split; [reflexivity|].
    repeat split; intro H.
    + unfold classifyByCount.
      destruct (Nat.leb_spec 4 (extendedCount lm)); [reflexivity|lia].
    + unfold classifyByCount.
      destruct (Nat.leb_spec 4 (extendedCount lm)); [lia|].
      destruct (Nat.leb_spec (extendedCount lm) 1); [reflexivity|lia].
    + unfold classifyByCount.
      destruct (Nat.leb_spec 4 (extendedCount lm)); [lia|].
      destruct (Nat.leb_spec (extendedCount lm) 1); [lia|reflexivity].
    + rewrite extendedCount_all; [reflexivity|].
      intros tip Htip. unfold extended.
      rewrite (eqb_finite (normalizedDist lm tip) 1.6 false
                 7205759403792794 (-52));
        [reflexivity | reflexivity | now apply H].
    + rewrite extendedCount_none; [reflexivity|].
      intros tip Htip. unfold extended.
      rewrite (eqb_finite (normalizedDist lm tip) 1.0 false
                 4503599627370496 (-52));
        [reflexivity | reflexivity | now apply H].
  - intro log'. rewrite detectHandState_spec by assumption. reflexivity.
Qed.

(** Two hands to run the classifier on.  The wrist is at [(0, -2, 0)] and
    the MCP joints at height [0.5], so the palm centre is the origin and
    the hand size is [2.5]; the five fingertips are at distance [4]
    (normalized [1.6]) or [2.5] (normalized [1.0]) from the origin. *)
Definition hand (r : float) : list Point :=
  let P x y z := mkPoint x y (Some z) in
  [ P 0 (-2) 0; P 0 0 0; P 0 0 0; P 0 0 0; P r 0 0;
    P (-1) 0.5 0; P 0 0 0; P 0 0 0; P (- r) 0 0;
    P 0 0.5 0; P 0 0 0; P 0 0 0; P 0 r 0;
    P 1 0.5 0; P 0 0 0; P 0 0 0; P 0 (- r) 0;
    P 0 0.5 0; P 0 0 0; P 0 0 0; P 0 0 r ].

Definition openHand : list Point := hand 4.
Definition fistHand : list Point := hand 2.5.

(** C2, witness: the two hands are classified Open and Fist. *)
Lemma detectHandState_open_and_fist_hands :
  ((21 <= length openHand)%nat
   /\ fst (detectHandState (Some openHand) []) = Returned (Some open))
  /\ ((21 <= length fistHand)%nat
      /\ fst (detectHandState (Some fistHand) []) = Returned (Some fist)).
Proof.
  split.
  - assert (21 <= length openHand)%nat as Hlen by (simpl; lia).
    split; [exact Hlen|].
    destruct (detectHandState_counts_extended_fingertips openHand [] Hlen)
      as (_ & _ & Hge & _).
    assert ((0.01 <=? handSizeOf openHand) = true) as Hsize
      by (vm_compute; reflexivity).
    destruct (Hge Hsize) as (_ & _ & _ & _ & Hall & _).
    apply Hall. intros tip Htip. simpl in Htip.
    destruct Htip as [<-|[<-|[<-|[<-|[<-|[]]]]]]; vm_compute; reflexivity.
  - assert (21 <= length fistHand)%nat as Hlen by (simpl; lia).
    split; [exact Hlen|].
    destruct (detectHandState_counts_extended_fingertips fistHand [] Hlen)
      as (_ & _ & Hge & _).
    assert ((0.01 <=? handSizeOf fistHand) = true) as Hsize
      by (vm_compute; reflexivity).
    destruct (Hge Hsize) as (_ & _ & _ & _ & _ & Hall).
    apply Hall. intros tip Htip. simpl in Htip.
    destruct Htip as [<-|[<-|[<-|[<-|[<-|[]]]]]]; vm_compute; reflexivity.
Defined.

(** *** Malformed and two-dimensional input *)

(** A landmark with its [z] replaced by what [z || 0] reads from it; a
    landmark without [z] gets [z = 0]. *)
Definition zAsZero (p : Point) : Point :=
  mkPoint (pt_x p) (pt_y p) (Some (orZero (pt_z p))).

Lemma orZero_idem (v : option float) : orZero (Some (orZero v)) = orZero v.
Proof.
  destruct v as [f|]; [|reflexivity].
  simpl. destruct (is_nan f || is_zero f) eqn:E; [reflexivity|].
  now rewrite E.
Qed.

Lemma distance_zAsZero (p q : Point) :
  distance (zAsZero p) q = distance p q
  /\ distance p (zAsZero q) = distance p q.
Proof.
  unfold distance, zAsZero. cbn [pt_x pt_y pt_z].
  now rewrite !orZero_idem.
Qed.

Lemma pointAt_zAsZero (lm : list Point) (i : nat) :
  (i < length lm)%nat ->
  pointAt (map zAsZero lm) i = zAsZero (pointAt lm i).
Proof.
  intro Hi. unfold pointAt. rewrite list_lookup_fmap.
  destruct (lookup_lt_is_Some_2 lm i Hi) as [p ->]. reflexivity.
Qed.

Lemma classification_zAsZero (lm : list Point) :
  (21 <= length lm)%nat ->
  classification (map zAsZero lm) = classification lm
  /\ reads (map zAsZero lm) = reads lm.
Proof.
  intro Hlen.
  assert (palmCenterOf (map zAsZero lm) = palmCenterOf lm) as Hpalm.
  { unfold palmCenterOf.
    rewrite !pointAt_zAsZero
      by (cbv [WRIST INDEX_MCP MIDDLE_MCP RING_MCP PINKY_MCP]; lia).
    unfold zAsZero. cbn [pt_x pt_y pt_z]. now rewrite !orZero_idem. }
  assert (handSizeOf (map zAsZero lm) = handSizeOf lm) as Hsize.
  { unfold handSizeOf.
    rewrite !pointAt_zAsZero by (cbv [WRIST MIDDLE_MCP]; lia).
    rewrite (proj1 (distance_zAsZero _ _)).
    now rewrite (proj2 (distance_zAsZero _ _)). }
  assert (forall tip, In tip FINGERTIPS ->
            extended (map zAsZero lm) tip = extended lm tip) as Hext.
  { intros tip Htip. unfold extended, normalizedDist.
    rewrite Hpalm, Hsize, pointAt_zAsZero.
    - now rewrite (proj1 (distance_zAsZero _ _)).
    - simpl in Htip.
      destruct Htip as [<-|[<-|[<-|[<-|[<-|[]]]]]];
        cbv [THUMB_TIP INDEX_TIP MIDDLE_TIP RING_TIP PINKY_TIP]; lia. }
  unfold classification, reads, extendedCount. rewrite Hsize.
  split; [|reflexivity].
  destruct (handSizeOf lm <? 0.01); [reflexivity|].
  f_equal. f_equal. unfold FINGERTIPS in *. cbn [List.filter].
  rewrite !Hext by (simpl; tauto). reflexivity.
Qed.

(** C9: [detectHandState] never throws.  Without landmarks, or with
    fewer than 21, it returns [null] and reads no landmark.  With 21 or
    more, every index it reads is inside the array.  [distance] reads a
    missing [z] as [0], and the classifier gives the same answer on
    landmarks without [z] as on the same landmarks with [z = 0]. *)
Theorem detectHandState_total (lm : list Point) (log : list nat) :
  detectHandState None log = (Returned None, log)
  /\ ((length lm < 21)%nat ->
      detectHandState (Some lm) log = (Returned None, log))
  /\ (exists v idxs,
         detectHandState (Some lm) log = (Returned v, log ++ idxs)
         /\ Forall (fun i => (i < length lm)%nat) idxs)
  /\ (forall x y q,
         distance (mkPoint x y None) q = distance (mkPoint x y (Some 0)) q
         /\ distance q (mkPoint x y None)
            = distance q (mkPoint x y (Some 0)))
  /\ detectHandState (Some (map zAsZero lm)) log
     = detectHandState (Some lm) log.
Proof.
  split; [reflexivity|].
  split; [apply detectHandState_short|].
  split.
  - destruct (Nat.lt_ge_cases (length lm) 21) as [Hlt|Hge].
    + exists None, []. rewrite app_nil_r.
      split; [now apply detectHandState_short | constructor].
    + exists (classification lm), (reads lm).
      split; [now apply detectHandState_spec|].
      unfold reads, FINGERTIPS, WRIST, INDEX_MCP, MIDDLE_MCP, RING_MCP,
        PINKY_MCP, THUMB_TIP, INDEX_TIP, MIDDLE_TIP, RING_TIP, PINKY_TIP.
      destruct (handSizeOf lm <? 0.01); repeat constructor; lia.
  - split; [intros x y q; split; reflexivity|].
    destruct (Nat.lt_ge_cases (length lm) 21) as [Hlt|Hge].
    + rewrite !detectHandState_short; [reflexivity|assumption|].
      now rewrite length_map.
    + rewrite !detectHandState_spec; [|assumption|now rewrite length_map].
      destruct (classification_zAsZero lm Hge) as [-> ->]. reflexivity.
Qed.

End ClassifierFacts.

(** ** Mode and orientation *)

Module ControlFacts.

Import Particles.

Local Open Scope R_scope.

(** The modes [setMode] accepts. *)
Definition recognized (m : jsval) : bool :=
  strictEqStr m "heart" || strictEqStr m "space".

Lemma recognized_iff (m : jsval) :
  recognized m = true <-> m = JString "heart" \/ m = JString "space".
Proof.
  unfold recognized, strictEqStr. split.
  - destruct m as [s| | | |]; try discriminate.
    intro H. apply orb_true_iff in H.
    destruct H as [H|H]; apply String.eqb_eq in H; subst; auto.
  - intros [->| ->]; reflexivity.
Qed.

(** C6: [setMode(m)] with an unrecognized [m] logs a warning and keeps
    the mode (and everything else); with ['heart'] or ['space'] a later
    [getMode()] returns [m].  In both cases the buffers, the variables
    that name them, the rotation state and the time accumulator are left
    as they were. *)
Theorem setMode_is_a_field_write (m : jsval) (e : Engine) :
  let e' := setMode m e in
  (recognized m = false ->
     getMode e' = getMode e
     /\ console e' = console e ++ [console_warn "Invalid mode:"]
     /\ particleMaterial e' = particleMaterial e)
  /\ (recognized m = true -> getMode e' = m)
  /\ heap e' = heap e
  /\ positions e' = positions e
  /\ particleGeometry e' = particleGeometry e
  /\ heartTargets e' = heartTargets e
  /\ spaceTargets e' = spaceTargets e
  /\ targetRotationX e' = targetRotationX e
  /\ targetRotationY e' = targetRotationY e
  /\ currentRotationX e' = currentRotationX e
  /\ currentRotationY e' = currentRotationY e
  /\ particleContainer e' = particleContainer e
  /\ time e' = time e.
Proof.
  unfold setMode, recognized, getMode.
  destruct (strictEqStr m "heart"), (strictEqStr m "space"); simpl;
    repeat split; try reflexivity; try discriminate.
Qed.

(** C7: [setRotationFromHand] sets the target yaw to [-normX] times pi
    times the sensitivity and the target pitch to [normY] times pi/2 times
    the sensitivity, clamped to [-0.4 pi, 0.4 pi]; it changes no other
    variable, the current rotation included. *)
Theorem setRotationFromHand_sets_targets_only (normX normY : R) (e : Engine) :
  let e' := setRotationFromHand normX normY e in
  let pitch := normY * PI * 0.5 * ROTATION_SENSITIVITY in
  targetRotationY e' = - normX * PI * ROTATION_SENSITIVITY
  /\ targetRotationX e' = Rmax (- PI * 0.4) (Rmin (PI * 0.4) pitch)
  /\ - (0.4 * PI) <= targetRotationX e' <= 0.4 * PI
  /\ (- (0.4 * PI) <= pitch <= 0.4 * PI -> targetRotationX e' = pitch)
  /\ (0.4 * PI <= pitch -> targetRotationX e' = 0.4 * PI)
  /\ (pitch <= - (0.4 * PI) -> targetRotationX e' = - (0.4 * PI))
  /\ currentRotationX e' = currentRotationX e
  /\ currentRotationY e' = currentRotationY e
  /\ particleContainer e' = particleContainer e
  /\ heap e' = heap e
  /\ positions e' = positions e
  /\ particleGeometry e' = particleGeometry e
  /\ heartTargets e' = heartTargets e
  /\ spaceTargets e' = spaceTargets e
  /\ particleMaterial e' = particleMaterial e
  /\ currentMode e' = currentMode e
  /\ time e' = time e
  /\ console e' = console e.
Proof.
  pose proof PI_RGT_0 as Hpi.
  unfold setRotationFromHand. cbn [targetRotationX targetRotationY
    currentRotationX currentRotationY particleContainer heap positions
    particleGeometry heartTargets spaceTargets particleMaterial currentMode
    time console].
  set (pitch := normY * PI * 0.5 * ROTATION_SENSITIVITY).
  repeat split; try reflexivity.
  - unfold Rmax, Rmin. repeat destruct (Rle_dec _ _); lra.
  - unfold Rmax, Rmin. repeat destruct (Rle_dec _ _); lra.
  - intros [H1 H2]. unfold Rmax, Rmin. repeat destruct (Rle_dec _ _); lra.
  - intro H. unfold Rmax, Rmin. repeat destruct (Rle_dec _ _); lra.
  - intro H. unfold Rmax, Rmin. repeat destruct (Rle_dec _ _); lra.
Qed.

End ControlFacts.

(** ** The generators *)

Module GeneratorFacts.

Import Particles.

Local Open Scope R_scope.
Local Open Scope gen_scope.

(** *** Points of a flat coordinate array *)

(** Point [i] of an array: the coordinates at [3i], [3i + 1], [3i + 2]. *)
Definition pointOf (pts : list R) (i : nat) : option (R * R * R) :=
  match pts !! (i * 3)%nat, pts !! (i * 3 + 1)%nat, pts !! (i * 3 + 2)%nat with
  | Some x, Some y, Some z => Some (x, y, z)
  | _, _, _ => None
  end.

(** The three writes that end an iteration of either generator. *)
Definition write3 (i : nat) (p : R * R * R) (pts : list R) : list R :=
  let '(x, y, z) := p in
  <[(i * 3 + 2)%nat := z]> (<[(i * 3 + 1)%nat := y]> (<[(i * 3)%nat := x]> pts)).

Lemma write3_length (i : nat) (p : R * R * R) (pts : list R) :
  length (write3 i p pts) = length pts.
Proof.
  destruct p as [[x y] z]. unfold write3. now rewrite !length_insert.
Qed.

Lemma pointOf_write3_eq (i : nat) (p : R * R * R) (pts : list R) :
  (i * 3 + 2 < length pts)%nat -> pointOf (write3 i p pts) i = Some p.
Proof.
  intro Hi. destruct p as [[x y] z]. unfold write3, pointOf.
  rewrite list_lookup_insert_ne by lia.
  rewrite list_lookup_insert_ne by lia.
  rewrite list_lookup_insert_eq by lia.
  rewrite list_lookup_insert_ne by lia.
  rewrite list_lookup_insert_eq by (rewrite length_insert; lia).
  rewrite list_lookup_insert_eq by (rewrite !length_insert; lia).
  reflexivity.
Qed.

Lemma pointOf_write3_ne (i j : nat) (p : R * R * R) (pts : list R) :
  i <> j -> pointOf (write3 i p pts) j = pointOf pts j.
Proof.
  intro Hij. destruct p as [[x y] z]. unfold write3, pointOf.
  now rewrite !list_lookup_insert_ne by lia.
Qed.

Lemma pointOf_replicate (n i : nat) :
  (i < n)%nat -> pointOf (replicate (n * 3) 0) i = Some (0, 0, 0).
Proof.
  intro Hi. unfold pointOf. now rewrite !lookup_replicate_2 by lia.
Qed.

(** *** The cube root *)

Lemma Math_cbrt_cube (x : R) : Math_cbrt x ^ 3 = x.
Proof.
  assert (forall y, 0 < y -> Rpower y (/ 3) ^ 3 = y) as Hpos.
  { intros y Hy. rewrite <- Rpower_pow by apply exp_pos.
    rewrite Rpower_mult. replace (/ 3 * INR 3) with 1 by (simpl; lra).
    now apply Rpower_1. }
  unfold Math_cbrt. destruct (Rlt_dec 0 x) as [Hx|Hx].
  - now apply Hpos.
  - destruct (Rlt_dec x 0) as [Hx'|Hx'].
    + replace ((- Rpower (- x) (/ 3)) ^ 3)
        with (- (Rpower (- x) (/ 3) ^ 3)) by ring.
      rewrite Hpos; lra.
    + replace x with 0 by lra. ring.
Qed.

(** The cube root of a sample in [[0, 1)] is in [[0, 1)]. *)
Lemma Math_cbrt_unit (u : R) : 0 <= u < 1 -> 0 <= Math_cbrt u < 1.
Proof.
  intros [H0 H1]. unfold Math_cbrt.
  destruct (Rlt_dec 0 u) as [Hu|Hu].
  - unfold Rpower. split; [left; apply exp_pos|].
    rewrite <- exp_0. apply exp_increasing.
    assert (ln u < 0) by (rewrite <- ln_1; now apply ln_increasing).
    nra.
  - destruct (Rlt_dec u 0); lra.
Qed.

(** *** The starfield *)

Section Starfield.

Variable random : nat -> R.
Variable radius : R.

(** The point written by the iteration that starts at draw [k]. *)
Definition starPoint (k : nat) : R * R * R :=
  let theta := random k * PI * 2 in
  let phi := acos (2 * random (k + 1) - 1) in
  let r := radius * Math_cbrt (random (k + 2)) in
  (r * sin phi * cos theta, r * sin phi * sin theta, r * cos phi).

Definition spaceBody (i : nat) (points : list R) : Gen (list R) :=
  let* r1 := Math_random random in
  let theta := r1 * PI * 2 in
  let* r2 := Math_random random in
  let phi := acos (2 * r2 - 1) in
  let* r3 := Math_random random in
  let r := radius * Math_cbrt r3 in
  let points := <[(i * 3)%nat := r * sin phi * cos theta]> points in
  let points := <[(i * 3 + 1)%nat := r * sin phi * sin theta]> points in
  let points := <[(i * 3 + 2)%nat := r * cos phi]> points in
  gret points.

Lemma generateSpacePoints_unfold (count : nat) :
  generateSpacePoints random count radius
  = forFrom 0 count spaceBody (replicate (count * 3) 0).
Proof. reflexivity. Qed.

Lemma spaceBody_spec (i : nat) (points : list R) (k : nat) :
  spaceBody i points k = (write3 i (starPoint k) points, (k + 3)%nat).
Proof.
  unfold spaceBody, gbind, Math_random, gret, starPoint, write3.
  replace (S k) with (k + 1)%nat by lia.
  replace (S (k + 1)) with (k + 2)%nat by lia.
  replace (S (k + 2)) with (k + 3)%nat by lia.
  reflexivity.
Qed.

Lemma forFrom_space (n : nat) :
  forall (i : nat) (pts : list R) (k : nat),
    let res := forFrom i n spaceBody pts k in
    snd res = (k + 3 * n)%nat
    /\ length (fst res) = length pts
    /\ (forall j, (j < i)%nat -> pointOf (fst res) j = pointOf pts j)
    /\ (forall j, (i <= j < i + n)%nat -> (j * 3 + 2 < length pts)%nat ->
                  pointOf (fst res) j
                  = Some (starPoint (k + 3 * (j - i)))).
Proof.
  induction n as [|n IH]; intros i pts k res.
  - subst res. simpl. repeat split; intros; lia.
  - subst res.
    assert (forFrom i (S n) spaceBody pts k
            = forFrom (S i) n spaceBody (write3 i (starPoint k) pts)
                (k + 3)%nat) as ->
      by (cbn [forFrom]; unfold gbind; now rewrite spaceBody_spec).
    specialize (IH (S i) (write3 i (starPoint k) pts) (k + 3)%nat).
    cbv zeta in IH. destruct IH as (Hk & Hlen & Hold & Hnew).
    rewrite write3_length in *.
    repeat split.
    + rewrite Hk. lia.
    + exact Hlen.
    + intros j Hj. rewrite Hold by lia. apply pointOf_write3_ne. lia.
    + intros j Hj Hlt. destruct (Nat.eq_dec j i) as [->|Hne].
      * rewrite Hold by lia. rewrite pointOf_write3_eq by assumption.
        now replace (k + 3 * (i - i))%nat with k by lia.
      * rewrite Hnew by lia.
        now replace (k + 3 + 3 * (j - S i))%nat
          with (k + 3 * (j - i))%nat by lia.
Qed.

(** Every point of the starfield: where its coordinates come from. *)
Lemma generateSpacePoints_points (count k : nat) :
  let res := generateSpacePoints random count radius k in
  snd res = (k + 3 * count)%nat
  /\ length (fst res) = (count * 3)%nat
  /\ forall i, (i < count)%nat ->
               pointOf (fst res) i = Some (starPoint (k + 3 * i)).
Proof.
  intro res. subst res. rewrite generateSpacePoints_unfold.
  destruct (forFrom_space count 0 (replicate (count * 3) 0) k)
    as (Hk & Hlen & _ & Hnew).
  rewrite length_replicate in *.
  repeat split; try assumption.
  intros i Hi. rewrite Hnew by lia. now rewrite Nat.sub_0_r.
Qed.

(** The spherical mapping keeps the radial coordinate. *)
Lemma starPoint_norm (k : nat) :
  0 <= radius -> 0 <= random (k + 2) < 1 ->
  let '(x, y, z) := starPoint k in
  sqrt (x * x + y * y + z * z) = radius * Math_cbrt (random (k + 2))
  /\ sqrt (x * x + y * y + z * z) <= radius.
Proof.
  intros Hr Hu. unfold starPoint.
  set (theta := random k * PI * 2).
  set (phi := acos (2 * random (k + 1) - 1)).
  pose proof (Math_cbrt_unit _ Hu) as Hc.
  set (c := Math_cbrt (random (k + 2))) in *.
  pose proof (sin2_cos2 theta) as Ht. pose proof (sin2_cos2 phi) as Hp.
  unfold Rsqr in Ht, Hp.
  replace (radius * c * sin phi * cos theta * (radius * c * sin phi * cos theta)
           + radius * c * sin phi * sin theta
             * (radius * c * sin phi * sin theta)
           + radius * c * cos phi * (radius * c * cos phi))
    with (radius * c * (radius * c)
          * (sin phi * sin phi * (sin theta * sin theta + cos theta * cos theta)
             + cos phi * cos phi)) by ring.
  rewrite Ht, Rmult_1_r, Hp, Rmult_1_r.
  rewrite sqrt_square by nra.
  split; [reflexivity | nra].
Qed.

End Starfield.

(** C8: for every count, every radius [r >= 0] and every sequence of
    samples in [[0, 1)], each point of [generateSpacePoints(count, r)] is
    at distance [r] times the cube root of its third sample from the
    origin, which is at most [r]. *)
Theorem generateSpacePoints_within_radius
    (random : nat -> R) (count : nat) (radius : R) (k : nat) :
  0 <= radius ->
  (forall n, 0 <= random n < 1) ->
  let points := fst (generateSpacePoints random count radius k) in
  forall i, (i < count)%nat ->
    exists x y z,
      pointOf points i = Some (x, y, z)
      /\ sqrt (x * x + y * y + z * z)
         = radius * Math_cbrt (random (k + 3 * i + 2)%nat)
      /\ sqrt (x * x + y * y + z * z) <= radius.
Proof.
  intros Hr Hrand points i Hi. subst points.
  destruct (generateSpacePoints_points random radius count k)
    as (_ & _ & Hpts).
  rewrite (Hpts i Hi).
  pose proof (starPoint_norm random radius (k + 3 * i) Hr (Hrand _)) as Hn.
  destruct (starPoint random radius (k + 3 * i)) as [[x y] z].
  exists x, y, z. split; [reflexivity | exact Hn].
Qed.

(** C8, witness: radius 15 and the constant sample 0. *)
Lemma generateSpacePoints_within_radius_example :
  0 <= 15
  /\ (forall n : nat, 0 <= 0 < 1)
  /\ exists x y z,
       pointOf (fst (generateSpacePoints (fun _ => 0) 2 15 0%nat)) 1
       = Some (x, y, z)
       /\ sqrt (x * x + y * y + z * z) <= 15.
Proof.
  assert (0 <= 15) as Hr by lra.
  assert (forall n : nat, 0 <= 0 < 1) as Hrand by (intro; lra).
  split; [exact Hr|]. split; [exact Hrand|].
  destruct (generateSpacePoints_within_radius (fun _ => 0) 2 15 0%nat Hr Hrand
              1%nat)
    as (x & y & z & Hp & _ & Hle); [lia|].
  exists x, y, z. split; assumption.
Defined.

(** *** The heart *)

(** The three scale factors applied to an accepted candidate. *)
Definition scaled (c : R * R * R) : R * R * R :=
  let '(x, y, z) := c in
  (x * HEART_SCALE_X * HEART_SIZE,
   y * HEART_SCALE_Y * HEART_SIZE,
   z * HEART_SCALE_Z * HEART_SIZE).

Lemma ltb_true (a b : R) : ltb a b = true <-> a < b.
Proof.
  unfold ltb. destruct (Rlt_dec a b); split; intro; try assumption;
    try reflexivity; try discriminate; contradiction.
Qed.

Lemma ltb_false (a b : R) : ltb a b = false <-> b <= a.
Proof.
  unfold ltb. destruct (Rlt_dec a b); split; intro; try reflexivity;
    try discriminate; lra.
Qed.

Section Heart.

Variable random : nat -> R.

(** The candidate of an iteration with [generated] points written. *)
Definition candidate (surfaceCount generated : nat) : Gen (R * R * R) :=
  if (generated <? surfaceCount)%nat
  then surfaceCandidate random else interiorCandidate random.

(** The candidate [(x, _, z)] passes the centre-line test when the draw
    that follows it is [k]: it is outside the void, or the draw is at most
    0.08. *)
Definition accepts (x z : R) (k : nat) : Prop :=
  ~ (Rabs x < CENTER_LINE_AVOID /\ Rabs z < CENTER_LINE_AVOID)
  \/ random k <= 0.08.

Lemma centerLineSkip_false (x z : R) (k : nat) :
  fst (centerLineSkip random x z k) = false <-> accepts x z k.
Proof.
  unfold centerLineSkip, accepts, gbind, Math_random, gret, gtb.
  destruct (ltb (Rabs x) CENTER_LINE_AVOID) eqn:Ex;
    destruct (ltb (Rabs z) CENTER_LINE_AVOID) eqn:Ez; cbn [andb fst].
  - apply ltb_true in Ex, Ez. rewrite ltb_false. tauto.
  - apply ltb_false in Ez. split; [|reflexivity]. intros _. left. lra.
  - apply ltb_false in Ex. split; [|reflexivity]. intros _. left. lra.
  - apply ltb_false in Ex. split; [|reflexivity]. intros _. left. lra.
Qed.

(** One pass through the body of the loop. *)
Lemma heartLoop_step (fuel count surfaceCount generated : nat)
    (points : list R) (k : nat) :
  (generated < count)%nat ->
  heartLoop random (S fuel) count surfaceCount generated points k
  = let '(c, k1) := candidate surfaceCount generated k in
    let '(skip, k2) := centerLineSkip random (fst (fst c)) (snd c) k1 in
    if skip
    then heartLoop random fuel count surfaceCount generated points k2
    else heartLoop random fuel count surfaceCount (S generated)
           (write3 generated (scaled c) points) k2.
Proof.
  intro Hlt. cbn [heartLoop].
  destruct (Nat.ltb_spec generated count) as [_|Hge]; [|lia].
  unfold gbind at 1. unfold candidate.
  destruct ((if (generated <? surfaceCount)%nat
             then surfaceCandidate random else interiorCandidate random) k)
    as [[[x y] z] k1].
  unfold gbind at 1. cbn [fst snd].
  destruct (centerLineSkip random x z k1) as [[] k2]; reflexivity.
Qed.

Lemma heartLoop_done (fuel count surfaceCount generated : nat)
    (points : list R) (k : nat) :
  (count <= generated)%nat ->
  heartLoop random fuel count surfaceCount generated points k
  = (Some points, k).
Proof.
  intro Hge. destruct fuel; cbn [heartLoop];
    destruct (Nat.ltb_spec generated count); try lia; reflexivity.
Qed.

Lemma heartLoop_out_of_fuel (count surfaceCount generated : nat)
    (points : list R) (k : nat) :
  (generated < count)%nat ->
  heartLoop random 0 count surfaceCount generated points k = (None, k).
Proof.
  intro Hlt. cbn [heartLoop].
  destruct (Nat.ltb_spec generated count); try lia; reflexivity.
Qed.

(** Point [i] of [pts] is an accepted candidate of its phase, scaled. *)
Definition Filtered (surfaceCount : nat) (pts : list R) (i : nat) : Prop :=
  exists k x y z,
    fst (candidate surfaceCount i k) = (x, y, z)
    /\ accepts x z (snd (candidate surfaceCount i k))
    /\ pointOf pts i = Some (scaled (x, y, z)).

(** The loop writes accepted candidates only, and fills every slot. *)
Lemma heartLoop_filtered (fuel : nat) :
  forall (count surfaceCount generated : nat) (pts : list R) (k : nat)
         (pts' : list R),
    fst (heartLoop random fuel count surfaceCount generated pts k)
    = Some pts' ->
    length pts = (count * 3)%nat ->
    (generated <= count)%nat ->
    (forall i, (i < generated)%nat -> Filtered surfaceCount pts i) ->
    length pts' = (count * 3)%nat
    /\ forall i, (i < count)%nat -> Filtered surfaceCount pts' i.
Proof.
  induction fuel as [|fuel IH];
    intros count surfaceCount generated pts k pts' Hres Hlen Hle Hinv.
  - destruct (Nat.eq_dec generated count) as [->|Hne].
    + rewrite heartLoop_done in Hres by lia. injection Hres as <-. auto.
    + rewrite heartLoop_out_of_fuel in Hres by lia. discriminate Hres.
  - destruct (Nat.eq_dec generated count) as [->|Hne].
    { rewrite heartLoop_done in Hres by lia. injection Hres as <-. auto. }
    rewrite heartLoop_step in Hres by lia.
    destruct (candidate surfaceCount generated k) as [c k1] eqn:Ec.
    destruct (centerLineSkip random (fst (fst c)) (snd c) k1)
      as [skip k2] eqn:Es.
    destruct skip.
    + eapply IH; eauto.
    + eapply IH; [exact Hres | | lia |].
      * now rewrite write3_length.
      * intros i Hi. destruct (Nat.eq_dec i generated) as [->|Hne'].
        -- destruct c as [[x y] z]. exists k, x, y, z.
           rewrite Ec. cbn [fst snd] in *.
           split; [reflexivity|]. split.
           ++ apply centerLineSkip_false. now rewrite Es.
           ++ apply pointOf_write3_eq. lia.
        -- destruct (Hinv i ltac:(lia)) as (k' & x & y & z & H1 & H2 & H3).
           exists k', x, y, z. repeat split; try assumption.
           rewrite pointOf_write3_ne by lia. exact H3.
Qed.


(** When no draw exceeds 0.08 no candidate is skipped, and the loop ends
    after one iteration per point. *)
Lemma heartLoop_no_skip (fuel : nat) :
  (forall n, random n <= 0.08) ->
  forall (count surfaceCount generated : nat) (pts : list R) (k : nat),
    (count - generated <= fuel)%nat ->
    exists pts',
      fst (heartLoop random fuel count surfaceCount generated pts k)
      = Some pts'.
Proof.
  intro Hrand. induction fuel as [|fuel IH];
    intros count surfaceCount generated pts k Hfuel.
  - exists pts. now rewrite heartLoop_done by lia.
  - destruct (Nat.le_gt_cases count generated) as [Hge|Hlt].
    { exists pts. now rewrite heartLoop_done by lia. }
    rewrite heartLoop_step by assumption.
    destruct (candidate surfaceCount generated k) as [c k1].
    pose proof (proj2 (centerLineSkip_false (fst (fst c)) (snd c) k1)
                  (or_intror (Hrand k1))) as Hacc.
    destruct (centerLineSkip random (fst (fst c)) (snd c) k1) as [skip k2].
    cbn [fst] in Hacc. subst skip. apply IH. lia.
Qed.

End Heart.

(** *** The attempts of the loop

    One iteration of the loop is an attempt at the slot [generated]: it
    draws a candidate from draw [k] on and tests it. *)

Section Attempts.

Variable random : nat -> R.

(** Whether the attempt at slot [generated] that starts at draw [k] takes
    [continue]. *)
Definition refusedAt (surfaceCount generated k : nat) : bool :=
  let '(c, k1) := candidate random surfaceCount generated k in
  fst (centerLineSkip random (fst (fst c)) (snd c) k1).

(** The number of draws made when that attempt is over. *)
Definition drawsAfter (surfaceCount generated k : nat) : nat :=
  let '(c, k1) := candidate random surfaceCount generated k in
  snd (centerLineSkip random (fst (fst c)) (snd c) k1).

(** From draw [k] to draw [k'] the loop makes refused attempts at slot
    [generated], and nothing else. *)
Inductive Refused (surfaceCount generated : nat) : nat -> nat -> Prop :=
| Refused_none (k : nat) : Refused surfaceCount generated k k
| Refused_more (k k' : nat) :
    refusedAt surfaceCount generated k = true ->
    Refused surfaceCount generated
      (drawsAfter surfaceCount generated k) k' ->
    Refused surfaceCount generated k k'.

(** A refused attempt is a candidate near the axis whose leak draw is
    above 0.08. *)
Lemma refusedAt_true (surfaceCount generated k : nat) :
  refusedAt surfaceCount generated k = true
  <-> (let '(x, _, z) := fst (candidate random surfaceCount generated k) in
       Rabs x < CENTER_LINE_AVOID /\ Rabs z < CENTER_LINE_AVOID
       /\ 0.08 < random (snd (candidate random surfaceCount generated k))).
Proof.
  unfold refusedAt.
  destruct (candidate random surfaceCount generated k) as [[[x y] z] k1].
  cbn [fst snd].
  unfold centerLineSkip, gbind, Math_random, gret, gtb.
  destruct (ltb (Rabs x) CENTER_LINE_AVOID) eqn:Ex;
    destruct (ltb (Rabs z) CENTER_LINE_AVOID) eqn:Ez; cbn [andb fst].
  - apply ltb_true in Ex, Ez. rewrite ltb_true. tauto.
  - apply ltb_false in Ez. split; [discriminate | lra].
  - apply ltb_false in Ex. split; [discriminate | lra].
  - apply ltb_false in Ex. split; [discriminate | lra].
Qed.

(** An attempt makes at least three draws. *)
Lemma drawsAfter_lt (surfaceCount generated k : nat) :
  (k + 3 <= drawsAfter surfaceCount generated k)%nat.
Proof.
  unfold drawsAfter, candidate.
  destruct (generated <? surfaceCount)%nat.
  - unfold surfaceCandidate, gbind, Math_random, gret. cbv zeta.
    match goal with
    | |- context [centerLineSkip random ?x ?z ?k1] =>
      unfold centerLineSkip, gbind, Math_random, gret;
      destruct (ltb (Rabs x) CENTER_LINE_AVOID
                && ltb (Rabs z) CENTER_LINE_AVOID)
    end; cbn [snd fst]; lia.
  - unfold interiorCandidate, gbind, Math_random, gret. cbv zeta.
    match goal with
    | |- context [centerLineSkip random ?x ?z ?k1] =>
      unfold centerLineSkip, gbind, Math_random, gret;
      destruct (ltb (Rabs x) CENTER_LINE_AVOID
                && ltb (Rabs z) CENTER_LINE_AVOID)
    end; cbn [snd fst]; lia.
Qed.

(** One pass through the body of the loop, as an attempt. *)
Lemma heartLoop_attempt (fuel count surfaceCount generated : nat)
    (points : list R) (k : nat) :
  (generated < count)%nat ->
  heartLoop random (S fuel) count surfaceCount generated points k
  = if refusedAt surfaceCount generated k
    then heartLoop random fuel count surfaceCount generated points
           (drawsAfter surfaceCount generated k)
    else heartLoop random fuel count surfaceCount (S generated)
           (write3 generated
              (scaled (fst (candidate random surfaceCount generated k)))
              points)
           (drawsAfter surfaceCount generated k).
Proof.
  intro Hlt. rewrite heartLoop_step by assumption.
  unfold refusedAt, drawsAfter.
  destruct (candidate random surfaceCount generated k) as [c k1].
  destruct (centerLineSkip random (fst (fst c)) (snd c) k1) as [[] k2];
    reflexivity.
Qed.

(** Every returned array is the run of the loop written out: slot by
    slot, refused attempts and then the accepted one, whose candidate is
    the point.  [start i] is the draw at which the accepted attempt at
    slot [i] begins. *)
Lemma heartLoop_trace (fuel : nat) :
  forall (count surfaceCount generated : nat) (pts : list R) (k : nat)
         (pts' : list R) (kend : nat),
    heartLoop random fuel count surfaceCount generated pts k
    = (Some pts', kend) ->
    length pts = (count * 3)%nat ->
    (generated <= count)%nat ->
    exists start : nat -> nat,
      (forall i, (generated <= i < count)%nat ->
         Refused surfaceCount i
           (if (i =? generated)%nat then k
            else drawsAfter surfaceCount (i - 1) (start (i - 1)%nat))
           (start i)
         /\ refusedAt surfaceCount i (start i) = false
         /\ pointOf pts' i
            = Some (scaled (fst (candidate random surfaceCount i (start i)))))
      /\ (forall i, (i < generated)%nat -> pointOf pts' i = pointOf pts i)
      /\ kend = (if (generated <? count)%nat
                 then drawsAfter surfaceCount (count - 1)
                        (start (count - 1)%nat)
                 else k)
      /\ length pts' = (count * 3)%nat.
Proof.
  induction fuel as [|fuel IH];
    intros count surfaceCount generated pts k pts' kend Hres Hlen Hle.
  - destruct (Nat.eq_dec generated count) as [->|Hne].
    + rewrite heartLoop_done in Hres by lia. injection Hres as <- <-.
      exists (fun _ => 0%nat). rewrite Nat.ltb_irrefl.
      split; [intros i Hi; lia|]. auto.
    + rewrite heartLoop_out_of_fuel in Hres by lia. discriminate Hres.
  - destruct (Nat.eq_dec generated count) as [->|Hne].
    { rewrite heartLoop_done in Hres by lia. injection Hres as <- <-.
      exists (fun _ => 0%nat). rewrite Nat.ltb_irrefl.
      split; [intros i Hi; lia|]. auto. }
    assert (generated < count)%nat as Hlt by lia.
    rewrite heartLoop_attempt in Hres by assumption.
    destruct (Nat.ltb_spec generated count) as [_|?]; [|lia].
    destruct (refusedAt surfaceCount generated k) eqn:Eref.
    + destruct (IH _ _ _ _ _ _ _ Hres Hlen Hle)
        as (start & Hall & Hold & Hend & Hlen').
      destruct (Nat.ltb_spec generated count) as [_|?]; [|lia].
      exists start. split; [|auto].
      intros i Hi. destruct (Hall i Hi) as (Href & Hacc & Hp).
      split; [|auto].
      destruct (Nat.eqb_spec i generated) as [->|Hne']; [|exact Href].
      now apply Refused_more.
    + destruct (IH _ _ _ _ _ _ _ Hres
                  ltac:(now rewrite write3_length) ltac:(lia))
        as (start1 & Hall & Hold & Hend & Hlen').
      set (start := fun i => if (i =? generated)%nat then k else start1 i).
      assert (start generated = k) as Hsg
        by (subst start; cbv beta; now rewrite Nat.eqb_refl).
      assert (forall i, i <> generated -> start i = start1 i) as Hso
        by (intros i Hi; subst start; cbv beta;
            now destruct (Nat.eqb_spec i generated)).
      exists start. split; [|split; [|split]].
      * intros i Hi. destruct (Nat.eqb_spec i generated) as [->|Hne'].
        -- rewrite Hsg.
           split; [apply Refused_none|]. split; [exact Eref|].
           rewrite Hold by lia. apply pointOf_write3_eq. lia.
        -- destruct (Hall i ltac:(lia)) as (Href & Hacc & Hp).
           rewrite (Hso i Hne'). split; [|auto].
           destruct (Nat.eqb_spec i (S generated)) as [->|Hne''].
           ++ replace (S generated - 1)%nat with generated by lia.
              now rewrite Hsg.
           ++ rewrite (Hso (i - 1)%nat) by lia. exact Href.
      * intros i Hi. rewrite Hold by lia.
        apply pointOf_write3_ne. lia.
      * rewrite Hend.
        destruct (Nat.ltb_spec (S generated) count) as [Hlt'|Hge].
        -- now rewrite (Hso (count - 1)%nat) by lia.
        -- replace (count - 1)%nat with generated by lia.
           now rewrite Hsg.
      * exact Hlen'.
Qed.

(** *** When the loop ends *)

(** From every draw on, at every slot, an attempt is accepted after
    finitely many refused ones. *)
Definition EventuallyAccepted : Prop :=
  forall surfaceCount generated k,
    exists k', Refused surfaceCount generated k k'
               /\ refusedAt surfaceCount generated k' = false.

Lemma heartLoop_refused (count surfaceCount generated : nat)
    (pts : list R) (k k' : nat) :
  (generated < count)%nat ->
  Refused surfaceCount generated k k' ->
  exists m, forall fuel,
    heartLoop random (m + fuel) count surfaceCount generated pts k
    = heartLoop random fuel count surfaceCount generated pts k'.
Proof.
  intros Hlt Href. induction Href as [k|k k' Hr _ [m IH]].
  - exists 0%nat. reflexivity.
  - exists (S m). intro fuel. cbn [Nat.add].
    rewrite heartLoop_attempt by assumption. rewrite Hr. apply IH.
Qed.

Lemma heartLoop_ends (n : nat) :
  EventuallyAccepted ->
  forall (count surfaceCount generated : nat) (pts : list R) (k : nat),
    (count - generated = n)%nat ->
    exists fuel pts',
      fst (heartLoop random fuel count surfaceCount generated pts k)
      = Some pts'.
Proof.
  intro Hfair. induction n as [|n IH];
    intros count surfaceCount generated pts k Hn.
  - exists 0%nat, pts. now rewrite heartLoop_done by lia.
  - assert (generated < count)%nat as Hlt by lia.
    destruct (Hfair surfaceCount generated k) as (k' & Href & Hacc).
    destruct (heartLoop_refused count surfaceCount generated pts k k'
                Hlt Href) as [m Hm].
    destruct (IH count surfaceCount (S generated)
                (write3 generated
                   (scaled (fst (candidate random surfaceCount generated k')))
                   pts)
                (drawsAfter surfaceCount generated k') ltac:(lia))
      as (fuel & pts' & Hres).
    exists (m + S fuel)%nat, pts'.
    rewrite Hm, heartLoop_attempt by assumption. now rewrite Hacc.
Qed.

End Attempts.

(** With every sample equal to 1/4 every candidate is away from the axis
    and is accepted at once, with no leak draw. *)
Lemma quarter_accepted (surfaceCount generated k : nat) :
  refusedAt (fun _ => / 4) surfaceCount generated k = false.
Proof.
  assert (forall x z k1,
             0.15 <= x ->
             fst (centerLineSkip (fun _ => / 4) x z k1) = false) as Hout.
  { intros x z k1 Hx. apply centerLineSkip_false. left.
    unfold CENTER_LINE_AVOID. intros [Hax _].
    rewrite Rabs_pos_eq in Hax by lra. lra. }
  unfold refusedAt, candidate.
  destruct (generated <? surfaceCount)%nat.
  - unfold surfaceCandidate, gbind, Math_random, gret. cbv zeta.
    cbn [fst snd]. apply Hout.
    replace (/ 4 * PI * 2) with (PI / 2) by lra.
    replace (/ 4 * PI) with (PI / 4) by lra.
    rewrite sin_PI2, sin_PI4.
    assert (0 < sqrt 2 <= 2) as Hs.
    { split; [apply sqrt_lt_R0; lra|].
      rewrite <- (sqrt_square 2) at 2 by lra. apply sqrt_le_1_alt. lra. }
    assert (/ 2 <= 1 / sqrt 2) as Hinv.
    { unfold Rdiv. rewrite Rmult_1_l. apply Rinv_le_contravar; lra. }
    replace (16 * 1 ^ 3 / 16) with 1 by (simpl; lra). nra.
  - unfold interiorCandidate, gbind, Math_random, gret. cbv zeta.
    cbn [fst snd]. apply Hout.
    replace (/ 4 * PI * 2) with (PI / 2) by lra. rewrite sin_PI2.
    replace (/ 4) with (/ 2 * / 2) by lra.
    rewrite sqrt_square by lra.
    replace (16 * 1 ^ 3 / 16) with 1 by (simpl; lra). lra.
Qed.

Lemma quarter_EventuallyAccepted : EventuallyAccepted (fun _ => / 4).
Proof.
  intros surfaceCount generated k. exists k.
  split; [apply Refused_none | apply quarter_accepted].
Qed.

(** *** The claims on the heart generator *)

Lemma generateHeartPoints_unfold (random : nat -> R) (fuel count : nat) :
  generateHeartPoints random fuel count
  = heartLoop random fuel count (floor_0_7 count) 0
      (replicate (count * 3) 0).
Proof. reflexivity. Qed.

(** The surface share of [PARTICLE_COUNT] points, and a count on which
    the binary64 product falls below the integer. *)
Lemma floor_0_7_PARTICLE_COUNT : floor_0_7 PARTICLE_COUNT = Z.to_nat 35000.
Proof.
  unfold floor_0_7, Number_of_nat, PARTICLE_COUNT, Math_floor_nat.
  rewrite Z2Nat.id by lia.
  match goal with
  | |- context [Prim2SF ?x] =>
    let v := eval vm_compute in (Prim2SF x) in change (Prim2SF x) with v
  end.
  cbv iota. f_equal.
Qed.

Lemma floor_0_7_90 : floor_0_7 90 = 62%nat.
Proof. vm_compute. reflexivity. Qed.

(** The loop of [generateHeartPoints] ends on every sample sequence on
    which each slot is accepted after finitely many refused attempts. *)
Lemma generateHeartPoints_ends (random : nat -> R) (count k : nat) :
  EventuallyAccepted random ->
  exists fuel pts,
    fst (generateHeartPoints random fuel count k) = Some pts
    /\ length pts = (count * 3)%nat
    /\ forall i, (i < count)%nat -> is_Some (pointOf pts i).
Proof.
  intro Hfair.
  destruct (heartLoop_ends random count Hfair count (floor_0_7 count) 0%nat
              (replicate (count * 3) 0) k ltac:(lia)) as (fuel & pts & Hres).
  exists fuel, pts. rewrite generateHeartPoints_unfold.
  split; [exact Hres|].
  destruct (heartLoop_filtered random fuel count (floor_0_7 count) 0
              (replicate (count * 3) 0) k pts Hres) as [Hlen Hall].
  - now rewrite length_replicate.
  - lia.
  - intros j Hj. lia.
  - split; [exact Hlen|].
    intros i Hi. destruct (Hall i Hi) as (? & ? & ? & ? & _ & _ & ->).
    eauto.
Qed.




End GeneratorFacts.

(** ** The animation tick *)

Module EngineFacts.

Import Particles GeneratorFacts.

Local Open Scope R_scope.

(** The easing step of one coordinate. *)
Definition ease (target live : R) : R := live + (target - live) * EASING.

(** The target of a coordinate whose stored target is [v]. *)
Definition targetOf (currentMode : jsval) (heartbeat v : R) : R :=
  if strictEqStr currentMode "heart" then v * heartbeat else v.

(** The target array of the current mode. *)
Definition activeTargets (currentMode : jsval)
    (heartTargets spaceTargets : option nat) : option nat :=
  if strictEqStr currentMode "heart" then heartTargets else spaceTargets.

(** Coordinate [c] of [P'] is coordinate [c] of [P] eased towards the
    target of coordinate [c] of [T]. *)
Definition easedAt (currentMode : jsval) (heartbeat : R)
    (P T P' : list R) (c : nat) : Prop :=
  exists x t,
    P !! c = Some x /\ T !! c = Some t
    /\ P' !! c = Some (ease (targetOf currentMode heartbeat t) x).

Lemma write3_lookup (i : nat) (a b c : R) (pts : list R) :
  (i * 3 + 2 < length pts)%nat ->
  write3 i (a, b, c) pts !! (i * 3)%nat = Some a
  /\ write3 i (a, b, c) pts !! (i * 3 + 1)%nat = Some b
  /\ write3 i (a, b, c) pts !! (i * 3 + 2)%nat = Some c
  /\ forall j, ~ (i * 3 <= j < i * 3 + 3)%nat ->
               write3 i (a, b, c) pts !! j = pts !! j.
Proof.
  intro Hi. unfold write3. repeat split.
  - rewrite !list_lookup_insert_ne by lia.
    now rewrite list_lookup_insert_eq by lia.
  - rewrite list_lookup_insert_ne by lia.
    now rewrite list_lookup_insert_eq by (rewrite length_insert; lia).
  - now rewrite list_lookup_insert_eq by (rewrite !length_insert; lia).
  - intros j Hj. now rewrite !list_lookup_insert_ne by lia.
Qed.

Section Tick.

Variables (currentMode : jsval) (heartbeat : R).
Variables (heartTargets spaceTargets : option nat) (posArray t : nat).
Variable T : list R.

Hypothesis Hactive :
  activeTargets currentMode heartTargets spaceTargets = Some t.
Hypothesis Hdistinct : posArray <> t.

(** One iteration of the particle loop writes the three eased coordinates
    of particle [i] into the live array and nothing else. *)
Lemma animateParticle_spec (i : nat) (h : list Buffer) (P : list R) :
  h !! posArray = Some P -> h !! t = Some T ->
  (i * 3 + 2 < length P)%nat -> (i * 3 + 2 < length T)%nat ->
  exists x y z tx ty tz,
    P !! (i * 3)%nat = Some x /\ P !! (i * 3 + 1)%nat = Some y
    /\ P !! (i * 3 + 2)%nat = Some z
    /\ T !! (i * 3)%nat = Some tx /\ T !! (i * 3 + 1)%nat = Some ty
    /\ T !! (i * 3 + 2)%nat = Some tz
    /\ animateParticle currentMode heartbeat heartTargets spaceTargets
         posArray i h
       = Some (<[posArray :=
                   write3 i (ease (targetOf currentMode heartbeat tx) x,
                             ease (targetOf currentMode heartbeat ty) y,
                             ease (targetOf currentMode heartbeat tz) z) P]> h).
Proof using Hactive Hdistinct.
  intros HP HT HiP HiT.
  destruct (lookup_lt_is_Some_2 P (i * 3) ltac:(lia)) as [x Hx].
  destruct (lookup_lt_is_Some_2 P (i * 3 + 1) ltac:(lia)) as [y Hy].
  destruct (lookup_lt_is_Some_2 P (i * 3 + 2) ltac:(lia)) as [z Hz].
  destruct (lookup_lt_is_Some_2 T (i * 3) ltac:(lia)) as [tx Htx].
  destruct (lookup_lt_is_Some_2 T (i * 3 + 1) ltac:(lia)) as [ty Hty].
  destruct (lookup_lt_is_Some_2 T (i * 3 + 2) ltac:(lia)) as [tz Htz].
  exists x, y, z, tx, ty, tz. repeat (split; [assumption|]).
  pose proof (lookup_lt_Some _ _ _ HP) as Hp.
  assert (forall c, readAt h (Some t) c = T !! c) as Hread
    by (intro c; unfold readAt; now rewrite HT).
  unfold animateParticle, targetOf, activeTargets in *.
  assert ((if strictEqStr currentMode "heart"
           then
             targetX ← readAt h heartTargets (i * 3);
             targetY ← readAt h heartTargets (i * 3 + 1);
             targetZ ← readAt h heartTargets (i * 3 + 2);
             Some (targetX * heartbeat, targetY * heartbeat,
                   targetZ * heartbeat)
           else
             targetX ← readAt h spaceTargets (i * 3);
             targetY ← readAt h spaceTargets (i * 3 + 1);
             targetZ ← readAt h spaceTargets (i * 3 + 2);
             Some (targetX, targetY, targetZ))
          = Some (if strictEqStr currentMode "heart"
                  then (tx * heartbeat, ty * heartbeat, tz * heartbeat)
                  else (tx, ty, tz))) as ->.
  { destruct (strictEqStr currentMode "heart"); rewrite Hactive, !Hread,
      Htx, Hty, Htz; reflexivity. }
  cbn [mbind option_bind].
  assert (forall (Q : list R) (c : nat) (v : R),
            writeAt (<[posArray := Q]> h) posArray c v
            = <[posArray := <[c := v]> Q]> h) as Hwrite.
  { intros Q c v. unfold writeAt.
    rewrite list_lookup_insert_eq by assumption.
    now rewrite list_insert_insert_eq. }
  assert (forall (Q : list R) (c : nat),
            readAt (<[posArray := Q]> h) (Some posArray) c = Q !! c) as Hlive.
  { intros Q c. unfold readAt.
    now rewrite list_lookup_insert_eq by assumption. }
  assert (forall (c : nat) (v : R),
            writeAt h posArray c v = <[posArray := <[c := v]> P]> h)
    as Hwrite0 by (intros c v; unfold writeAt; now rewrite HP).
  assert (forall c, readAt h (Some posArray) c = P !! c) as Hlive0
    by (intro c; unfold readAt; now rewrite HP).
  destruct (strictEqStr currentMode "heart");
    rewrite Hlive0, Hx; cbn [mbind option_bind];
    rewrite Hwrite0, Hlive;
    rewrite list_lookup_insert_ne by lia; rewrite Hy;
    cbn [mbind option_bind];
    rewrite Hwrite, Hlive;
    rewrite !list_lookup_insert_ne by lia; rewrite Hz;
    cbn [mbind option_bind];
    rewrite Hwrite; reflexivity.
Qed.

(** The particle loop eases the coordinates of the particles it visits
    and leaves the other coordinates, and the other arrays, alone. *)
Lemma forParticles_animate (n : nat) :
  forall (i : nat) (h : list Buffer) (P : list R),
    h !! posArray = Some P -> h !! t = Some T ->
    ((i + n) * 3 <= length P)%nat -> ((i + n) * 3 <= length T)%nat ->
    exists P',
      forParticles i n
        (animateParticle currentMode heartbeat heartTargets spaceTargets
           posArray) h
      = Some (<[posArray := P']> h)
      /\ length P' = length P
      /\ (forall c, (i * 3 <= c < (i + n) * 3)%nat ->
                    easedAt currentMode heartbeat P T P' c)
      /\ (forall c, ~ (i * 3 <= c < (i + n) * 3)%nat -> P' !! c = P !! c).
Proof using Hactive Hdistinct.
  induction n as [|n IH]; intros i h P HP HT HlP HlT.
  - exists P. cbn [forParticles]. rewrite list_insert_id by assumption.
    repeat split; try reflexivity. intros c Hc. lia.
  - destruct (animateParticle_spec i h P HP HT ltac:(lia) ltac:(lia))
      as (x & y & z & tx & ty & tz & Hx & Hy & Hz & Htx & Hty & Htz & Hstep).
    set (P1 := write3 i (ease (targetOf currentMode heartbeat tx) x,
                         ease (targetOf currentMode heartbeat ty) y,
                         ease (targetOf currentMode heartbeat tz) z) P) in *.
    pose proof (lookup_lt_Some _ _ _ HP) as Hp.
    destruct (write3_lookup i (ease (targetOf currentMode heartbeat tx) x)
                (ease (targetOf currentMode heartbeat ty) y)
                (ease (targetOf currentMode heartbeat tz) z) P ltac:(lia))
      as (W0 & W1 & W2 & Wne).
    fold P1 in W0, W1, W2, Wne.
    destruct (IH (S i) (<[posArray := P1]> h) P1) as (P' & Hrun & Hlen & He & Hu).
    + now apply list_lookup_insert_eq.
    + now rewrite list_lookup_insert_ne.
    + subst P1. rewrite write3_length. lia.
    + lia.
    + exists P'. cbn [forParticles]. rewrite Hstep. cbn [mbind option_bind].
      rewrite Hrun, list_insert_insert_eq.
      split; [reflexivity|].
      split; [subst P1; now rewrite Hlen, write3_length|].
      split.
      * intros c Hc. destruct (Nat.lt_ge_cases c (i * 3 + 3)) as [Hlt|Hge].
        -- assert (c = i * 3 \/ c = i * 3 + 1 \/ c = i * 3 + 2)%nat
             as [->|[->| ->]] by lia.
           ++ exists x, tx. rewrite Hu by lia. auto.
           ++ exists y, ty. rewrite Hu by lia. auto.
           ++ exists z, tz. rewrite Hu by lia. auto.
        -- destruct (He c ltac:(lia)) as (x' & t' & H1 & H2 & H3).
           exists x', t'. rewrite <- Wne by lia. auto.
      * intros c Hc. rewrite Hu by lia. apply Wne. lia.
Qed.

End Tick.

(** *** The engine between two ticks *)

(** The arrays are in place: the live array [p] (also the array of the
    geometry's position attribute), the heart targets [ht] and the
    starfield targets [st], the live array distinct from both target
    arrays, each with [3 * PARTICLE_COUNT] coordinates. *)
Definition Ready (e : Engine) (p ht st : nat) : Prop :=
  positions e = Some p /\ particleGeometry e = Some p
  /\ heartTargets e = Some ht /\ spaceTargets e = Some st
  /\ p <> ht /\ p <> st
  /\ (exists P, heap e !! p = Some P
                /\ length P = (PARTICLE_COUNT * 3)%nat)
  /\ (exists H, heap e !! ht = Some H
                /\ length H = (PARTICLE_COUNT * 3)%nat)
  /\ (exists S, heap e !! st = Some S
                /\ length S = (PARTICLE_COUNT * 3)%nat).

(** Live coordinate [c]. *)
Definition liveAt (e : Engine) (c : nat) : option R :=
  readAt (heap e) (positions e) c.

(** The heartbeat multiplier of the tick that starts in [e]. *)
Definition tickHeartbeat (e : Engine) : R :=
  if strictEqStr (currentMode e) "heart"
  then 1 + HEARTBEAT_AMPLITUDE * sin ((time e + 0.016) * HEARTBEAT_SPEED)
  else 1.

(** The target of coordinate [c] in the tick that starts in [e]: the
    heart target times the heartbeat in mode ['heart'], the starfield
    target otherwise. *)
Definition tickTarget (e : Engine) (c : nat) : option R :=
  if strictEqStr (currentMode e) "heart"
  then option_map (fun v => v * tickHeartbeat e)
         (readAt (heap e) (heartTargets e) c)
  else readAt (heap e) (spaceTargets e) c.

Lemma animate_spec (e : Engine) (p ht st : nat) :
  Ready e p ht st ->
  exists e',
    animate e = Some e'
    /\ Ready e' p ht st
    /\ currentMode e' = currentMode e
    /\ time e' = time e + 0.016
    /\ heap e' !! ht = heap e !! ht
    /\ heap e' !! st = heap e !! st
    /\ targetRotationX e' = targetRotationX e
    /\ targetRotationY e' = targetRotationY e
    /\ currentRotationX e'
       = currentRotationX e
         + (targetRotationX e - currentRotationX e) * ROTATION_EASING
    /\ currentRotationY e'
       = currentRotationY e
         + (targetRotationY e - currentRotationY e) * ROTATION_EASING
    /\ forall c, (c < PARTICLE_COUNT * 3)%nat ->
         exists x t,
           liveAt e c = Some x /\ tickTarget e c = Some t
           /\ liveAt e' c = Some (ease t x).
Proof.
  intros (Hpos & Hgeo & Hht & Hst & Hpht & Hpst & (P & HP & HlP)
          & (H & HH & HlH) & (S & HS & HlS)).
  pose proof (lookup_lt_Some _ _ _ HP) as Hp.
  set (hb := if strictEqStr (currentMode e) "heart"
             then 1 + HEARTBEAT_AMPLITUDE
                      * sin ((time e + 0.016) * HEARTBEAT_SPEED)
             else 1).
  assert (exists t T,
             activeTargets (currentMode e) (heartTargets e) (spaceTargets e)
             = Some t
             /\ p <> t /\ heap e !! t = Some T
             /\ length T = (PARTICLE_COUNT * 3)%nat)
    as (t & T & Hact & Hpt & HT & HlT).
  { unfold activeTargets. destruct (strictEqStr (currentMode e) "heart").
    - exists ht, H. auto.
    - exists st, S. auto. }
  destruct (forParticles_animate (currentMode e) hb (heartTargets e)
              (spaceTargets e) p t T Hact Hpt PARTICLE_COUNT 0 (heap e) P
              HP HT ltac:(lia) ltac:(lia))
    as (P' & Hrun & Hlen & He & _).
  unfold animate. rewrite Hgeo. cbn [mbind option_bind].
  fold hb. rewrite Hrun. cbn [mbind option_bind].
  eexists. split; [reflexivity|].
  cbn [heap positions heartTargets spaceTargets particleGeometry
       currentMode time targetRotationX targetRotationY currentRotationX
       currentRotationY].
  split.
  { unfold Ready.
    cbn [heap positions heartTargets spaceTargets particleGeometry].
    repeat (split; [first [assumption | reflexivity]|]).
    split; [exists P'; split;
            [now apply list_lookup_insert_eq | now rewrite Hlen]|].
    split; [exists H | exists S];
      (split; [now rewrite list_lookup_insert_ne | assumption]). }
  repeat (split; [first [reflexivity | now rewrite list_lookup_insert_ne]|]).
  intros c Hc. destruct (He c ltac:(lia)) as (x & tv & Hx & Ht & Hx').
  exists x, (targetOf (currentMode e) hb tv).
  unfold liveAt, tickTarget, tickHeartbeat, readAt.
  cbn [heap positions]. rewrite Hpos, HP, Hx.
  rewrite list_lookup_insert_eq by assumption. rewrite Hx'.
  split; [reflexivity|]. split; [|reflexivity].
  unfold activeTargets, targetOf in *. fold hb.
  destruct (strictEqStr (currentMode e) "heart");
    rewrite Hact, HT, Ht; reflexivity.
Qed.

(** *** Distances *)

Definition dist3 (a b : R * R * R) : R :=
  let '(ax, ay, az) := a in
  let '(bx, b_y, bz) := b in
  sqrt ((ax - bx) * (ax - bx) + (ay - b_y) * (ay - b_y)
        + (az - bz) * (az - bz)).

(** The three coordinates of particle [i]. *)
Definition triple (f : nat -> option R) (i : nat) : option (R * R * R) :=
  match f (i * 3)%nat, f (i * 3 + 1)%nat, f (i * 3 + 2)%nat with
  | Some x, Some y, Some z => Some (x, y, z)
  | _, _, _ => None
  end.

Definition livePoint (e : Engine) : nat -> option (R * R * R) :=
  triple (liveAt e).

Definition targetPoint (e : Engine) : nat -> option (R * R * R) :=
  triple (tickTarget e).

Lemma EASING_unit : 0 < EASING < 1.
Proof. unfold EASING. lra. Qed.

Lemma ease_distance (t x : R) : ease t x - t = (x - t) * (1 - EASING).
Proof. unfold ease. ring. Qed.

Lemma ease_iter (t x : R) (K : nat) :
  Nat.iter K (ease t) x - t = (x - t) * (1 - EASING) ^ K.
Proof.
  induction K as [|K IH].
  - cbn [Nat.iter nat_rect pow]. ring.
  - change (Nat.iter (S K) (ease t) x) with (ease t (Nat.iter K (ease t) x)).
    rewrite ease_distance, IH. cbn [pow]. ring.
Qed.

Lemma dist3_ease (tx ty tz x y z : R) :
  dist3 (ease tx x, ease ty y, ease tz z) (x, y, z)
  = EASING * dist3 (tx, ty, tz) (x, y, z).
Proof.
  pose proof EASING_unit as HE. unfold dist3, ease.
  replace ((x + (tx - x) * EASING - x) * (x + (tx - x) * EASING - x)
           + (y + (ty - y) * EASING - y) * (y + (ty - y) * EASING - y)
           + (z + (tz - z) * EASING - z) * (z + (tz - z) * EASING - z))
    with (EASING * EASING
          * ((tx - x) * (tx - x) + (ty - y) * (ty - y)
             + (tz - z) * (tz - z))) by ring.
  pose proof (Rle_0_sqr (tx - x)) as H1.
  pose proof (Rle_0_sqr (ty - y)) as H2.
  pose proof (Rle_0_sqr (tz - z)) as H3.
  pose proof (Rle_0_sqr EASING) as H4.
  unfold Rsqr in *.
  rewrite sqrt_mult by lra. rewrite sqrt_square by lra. reflexivity.
Qed.

(** *** Mode switches and runs of ticks *)

Lemma setMode_Ready (m : jsval) (e : Engine) (p ht st : nat) :
  Ready e p ht st ->
  Ready (setMode m e) p ht st
  /\ forall c, liveAt (setMode m e) c = liveAt e c.
Proof.
  intro HR. unfold Ready, liveAt, setMode in *.
  destruct (negb (strictEqStr m "heart") && negb (strictEqStr m "space"));
    cbn [heap positions heartTargets spaceTargets particleGeometry];
    split; try assumption; reflexivity.
Qed.

Lemma tickTarget_space (e : Engine) (c : nat) :
  strictEqStr (currentMode e) "heart" = false ->
  tickTarget e c = readAt (heap e) (spaceTargets e) c.
Proof. intro Hm. unfold tickTarget. now rewrite Hm. Qed.

(** Outside the heart mode the target is fixed, and [K] ticks shrink the
    distance of every coordinate to it by the factor [(1 - EASING) ^ K]. *)
Lemma ticks_space (K : nat) :
  forall (e : Engine) (p ht st : nat),
    Ready e p ht st ->
    strictEqStr (currentMode e) "heart" = false ->
    exists eK,
      ticks K e = Some eK
      /\ Ready eK p ht st
      /\ currentMode eK = currentMode e
      /\ heap eK !! st = heap e !! st
      /\ forall c, (c < PARTICLE_COUNT * 3)%nat ->
           exists x0 t xK,
             liveAt e c = Some x0
             /\ readAt (heap e) (spaceTargets e) c = Some t
             /\ liveAt eK c = Some xK
             /\ xK - t = (x0 - t) * (1 - EASING) ^ K.
Proof.
  induction K as [|K IH]; intros e p ht st HR Hm.
  - exists e. cbn [ticks]. repeat (split; [first [assumption|reflexivity]|]).
    intros c Hc.
    destruct (animate_spec e p ht st HR) as (e' & _ & _ & _ & _ & _ & _ & _
                                             & _ & _ & _ & Hc').
    destruct (Hc' c Hc) as (x & t & Hx & Ht & _).
    rewrite tickTarget_space in Ht by assumption.
    exists x, t, x. repeat (split; [assumption|]). cbn [pow]. ring.
  - destruct (animate_spec e p ht st HR)
      as (e1 & Hrun & HR1 & Hm1 & _ & _ & Hst1 & _ & _ & _ & _ & Hc1).
    destruct (IH e1 p ht st HR1 ltac:(now rewrite Hm1))
      as (eK & HrunK & HRK & HmK & HstK & HcK).
    exists eK. cbn [ticks]. rewrite Hrun. cbn [mbind option_bind].
    split; [assumption|]. split; [assumption|].
    split; [congruence|]. split; [congruence|].
    intros c Hc.
    destruct (Hc1 c Hc) as (x0 & t & Hx0 & Ht & Hx1).
    rewrite tickTarget_space in Ht by assumption.
    destruct (HcK c Hc) as (x1 & t' & xK & Hx1' & Ht' & HxK & Heq).
    assert (t' = t) as ->.
    { destruct HR as (_ & _ & _ & Hs & _), HR1 as (_ & _ & _ & Hs1 & _).
      unfold readAt in Ht, Ht'. rewrite Hs in Ht. rewrite Hs1, Hst1 in Ht'.
      congruence. }
    assert (x1 = ease t x0) as -> by congruence.
    exists x0, t, xK. repeat (split; [assumption|]).
    rewrite Heq, ease_distance. cbn [pow]. ring.
Qed.

(** The tick in exact arithmetic, with no rounding at the stores (the
    stored numbers are in [Binary32Facts]): on an engine whose arrays are
    in place, [animate()] replaces every
    live coordinate [x] by [x + (t - x) * EASING], where [t] is the heart
    target times the heartbeat multiplier in mode ['heart'] and the
    starfield target otherwise; so every particle moves by [EASING] times
    its distance to its target, also in the tick that follows a
    [setMode], which leaves the live coordinates as they are.  With a
    fixed target [t], [K] easing steps take [x] to a point whose distance
    to [t] is [(1 - EASING) ^ K] times that of [x]; outside the heart mode
    the target is fixed, and that is what [K] ticks do to every live
    coordinate. *)
Theorem animate_eases_every_coordinate (e : Engine) (p ht st : nat) :
  Ready e p ht st ->
  (exists e',
      animate e = Some e'
      /\ Ready e' p ht st
      /\ (forall c, (c < PARTICLE_COUNT * 3)%nat ->
            exists x t,
              liveAt e c = Some x /\ tickTarget e c = Some t
              /\ liveAt e' c = Some (x + (t - x) * EASING))
      /\ (forall i, (i < PARTICLE_COUNT)%nat ->
            exists a t a',
              livePoint e i = Some a /\ targetPoint e i = Some t
              /\ livePoint e' i = Some a'
              /\ dist3 a' a = EASING * dist3 t a
              /\ dist3 a' a <= EASING * dist3 t a))
  /\ (forall m,
        Ready (setMode m e) p ht st
        /\ forall c, liveAt (setMode m e) c = liveAt e c)
  /\ (forall t x K,
        Nat.iter K (ease t) x - t = (x - t) * (1 - EASING) ^ K
        /\ Rabs (Nat.iter K (ease t) x - t)
           <= Rabs (x - t) * (1 - EASING) ^ K)
  /\ (strictEqStr (currentMode e) "heart" = false ->
      forall K,
        exists eK,
          ticks K e = Some eK
          /\ forall c, (c < PARTICLE_COUNT * 3)%nat ->
               exists x0 t xK,
                 liveAt e c = Some x0 /\ tickTarget e c = Some t
                 /\ liveAt eK c = Some xK
                 /\ xK = Nat.iter K (ease t) x0
                 /\ Rabs (xK - t) <= Rabs (x0 - t) * (1 - EASING) ^ K).
Proof.
  intro HR. pose proof EASING_unit as HE.
  assert (forall t x K,
            Rabs (x - t) * (1 - EASING) ^ K
            = Rabs ((x - t) * (1 - EASING) ^ K)) as Habs.
  { intros t x K. rewrite Rabs_mult.
    rewrite (Rabs_pos_eq ((1 - EASING) ^ K)); [reflexivity|].
    apply pow_le. lra. }
  repeat apply conj.
  - destruct (animate_spec e p ht st HR)
      as (e' & Hrun & HR' & _ & _ & _ & _ & _ & _ & _ & _ & Hc).
    exists e'. split; [assumption|]. split; [assumption|]. split.
    + exact Hc.
    + intros i Hi.
      destruct (Hc (i * 3)%nat ltac:(lia)) as (x & tx & Hx & Htx & Hx').
      destruct (Hc (i * 3 + 1)%nat ltac:(lia)) as (y & ty & Hy & Hty & Hy').
      destruct (Hc (i * 3 + 2)%nat ltac:(lia)) as (z & tz & Hz & Htz & Hz').
      exists (x, y, z), (tx, ty, tz), (ease tx x, ease ty y, ease tz z).
      unfold livePoint, targetPoint, triple.
      rewrite Hx, Hy, Hz, Htx, Hty, Htz, Hx', Hy', Hz'.
      repeat (split; [reflexivity|]).
      rewrite dist3_ease. split; [reflexivity | lra].
  - intro m. now apply setMode_Ready.
  - intros t x K. rewrite (Habs t x K), (ease_iter t x K).
    split; [reflexivity | lra].
  - intros Hm K.
    destruct (ticks_space K e p ht st HR Hm)
      as (eK & Hrun & _ & _ & _ & Hc).
    exists eK. split; [assumption|].
    intros c Hlt. destruct (Hc c Hlt) as (x0 & t & xK & Hx0 & Ht & HxK & Heq).
    exists x0, t, xK. rewrite tickTarget_space by assumption.
    repeat (split; [assumption|]).
    pose proof (ease_iter t x0 K) as Hit.
    split; [lra|]. rewrite (Habs t x0 K), Heq. lra.
Qed.

(** An engine to run a tick on: the heart targets all 1, the starfield
    targets all 2, every particle at the origin. *)
Definition sampleEngine : Engine :=
  {| heap := [replicate (PARTICLE_COUNT * 3) 0;
              replicate (PARTICLE_COUNT * 3) 1;
              replicate (PARTICLE_COUNT * 3) 2];
     positions := Some 0%nat;
     heartTargets := Some 1%nat;
     spaceTargets := Some 2%nat;
     particleGeometry := Some 0%nat;
     particleMaterial := Some {| u_time := 0; u_mode := 0.0 |};
     particleContainer := Some (0, 0);
     currentMode := JString "space";
     time := 0;
     targetRotationX := 0;
     targetRotationY := 0;
     currentRotationX := 0;
     currentRotationY := 0;
     console := [] |}.

Lemma sampleEngine_Ready : Ready sampleEngine 0 1 2.
Proof.
  unfold Ready, sampleEngine.
  cbn [heap positions heartTargets spaceTargets particleGeometry].
  repeat (split; [first [reflexivity | lia]|]).
  split; [|split]; eexists; (split; [reflexivity | apply length_replicate]).
Qed.

(** In exact arithmetic the first tick of [sampleEngine] moves coordinate
    0 from 0 to [0 + (2 - 0) * EASING]. *)
Lemma animate_eases_sampleEngine :
  Ready sampleEngine 0 1 2
  /\ exists e',
       animate sampleEngine = Some e'
       /\ liveAt e' 0 = Some (0 + (2 - 0) * EASING).
Proof.
  split; [exact sampleEngine_Ready|].
  destruct (animate_eases_every_coordinate sampleEngine 0 1 2
              sampleEngine_Ready)
    as ((e' & Hrun & _ & Hc & _) & _).
  exists e'. split; [exact Hrun|].
  assert (0 < PARTICLE_COUNT * 3)%nat as Hpos
    by (unfold PARTICLE_COUNT; lia).
  destruct (Hc 0%nat Hpos) as (x & t & Hx & Ht & Hx').
  assert (liveAt sampleEngine 0 = Some 0) as Hx0.
  { unfold liveAt, readAt, sampleEngine. cbn [heap positions].
    change ([replicate (PARTICLE_COUNT * 3) 0;
             replicate (PARTICLE_COUNT * 3) 1;
             replicate (PARTICLE_COUNT * 3) 2] !! 0%nat)
      with (Some (replicate (PARTICLE_COUNT * 3) 0)).
    now apply lookup_replicate_2. }
  assert (tickTarget sampleEngine 0 = Some 2) as Ht0.
  { unfold tickTarget, readAt, sampleEngine.
    cbn [heap spaceTargets currentMode strictEqStr String.eqb Ascii.eqb
         Bool.eqb].
    change ([replicate (PARTICLE_COUNT * 3) 0;
             replicate (PARTICLE_COUNT * 3) 1;
             replicate (PARTICLE_COUNT * 3) 2] !! 2%nat)
      with (Some (replicate (PARTICLE_COUNT * 3) 2)).
    now apply lookup_replicate_2. }
  rewrite Hx0 in Hx. rewrite Ht0 in Ht.
  injection Hx as <-. injection Ht as <-. exact Hx'.
Defined.

(** *** Initialization *)

Lemma lookup_three_new (l : list Buffer) (a b c : Buffer) :
  (l ++ [a; b; c]) !! length l = Some a
  /\ (l ++ [a; b; c]) !! (length l + 1)%nat = Some b
  /\ (l ++ [a; b; c]) !! (length l + 2)%nat = Some c.
Proof.
  repeat split; rewrite lookup_app_r by lia.
  - now replace (length l - length l)%nat with 0%nat by lia.
  - now replace (length l + 1 - length l)%nat with 1%nat by lia.
  - now replace (length l + 2 - length l)%nat with 2%nat by lia.
Qed.

(** What [initParticles] has set up when it calls [startAnimation()]:
    three new arrays, the heart targets, the starfield targets and the
    live array, the last a copy of the starfield targets. *)
Lemma initScene_spec (random : nat -> R) (fuel k : nat) (e0 e1 : Engine) :
  fst (initScene random fuel e0 k) = Some e1 ->
  exists hp,
    fst (generateHeartPoints random fuel PARTICLE_COUNT k) = Some hp
    /\ let sp :=
         fst (generateSpacePoints random PARTICLE_COUNT SPACE_RADIUS
                (snd (generateHeartPoints random fuel PARTICLE_COUNT k))) in
       heap e1 = heap e0 ++ [hp; sp; sp]
       /\ heartTargets e1 = Some (length (heap e0))
       /\ spaceTargets e1 = Some (length (heap e0) + 1)%nat
       /\ positions e1 = Some (length (heap e0) + 2)%nat
       /\ particleGeometry e1 = Some (length (heap e0) + 2)%nat
       /\ currentMode e1 = currentMode e0.
Proof.
  unfold initScene, gbind.
  destruct (generateHeartPoints random fuel PARTICLE_COUNT k)
    as [[hp|] k1]; [|discriminate].
  unfold alloc.
  destruct (generateSpacePoints random PARTICLE_COUNT SPACE_RADIUS k1)
    as [sp k2] eqn:ES.
  unfold gret. cbn [fst snd]. intros [= <-]. exists hp.
  split; [reflexivity|]. rewrite ES.
  cbn [fst heap heartTargets spaceTargets positions particleGeometry
       currentMode].
  rewrite !length_app. cbn [length].
  assert (((heap e0 ++ [hp]) ++ [sp]) !! (length (heap e0) + 1)%nat
          = Some sp) as ->.
  { rewrite <- app_assoc. rewrite lookup_app_r by lia.
    now replace (length (heap e0) + 1 - length (heap e0))%nat
      with 1%nat by lia. }
  cbn [default from_option]. rewrite <- !app_assoc. cbn [app].
  repeat split; f_equal; lia.
Qed.

(** Outside the heart mode, a tick moves no particle that sits on its
    starfield target. *)
Lemma animate_at_rest (e : Engine) (p ht st : nat) (P : list R) :
  Ready e p ht st ->
  strictEqStr (currentMode e) "heart" = false ->
  heap e !! p = Some P -> heap e !! st = Some P ->
  exists e',
    animate e = Some e' /\ Ready e' p ht st
    /\ currentMode e' = currentMode e
    /\ heap e' !! p = Some P /\ heap e' !! st = Some P.
Proof.
  intros HR Hm HP HS.
  destruct (animate_spec e p ht st HR)
    as (e' & Hrun & HR' & Hm' & _ & _ & Hst & _ & _ & _ & _ & Hc).
  exists e'. repeat (split; [assumption|]).
  split; [|congruence].
  destruct HR as (Hpos & _ & _ & Hsp & _ & _ & (P0 & HP0 & HlP) & _).
  destruct HR' as (Hpos' & _ & _ & _ & _ & _ & (P' & HP' & HlP') & _).
  assert (P0 = P) as -> by congruence.
  rewrite HP'. f_equal.
  apply (list_eq_same_length _ _ (PARTICLE_COUNT * 3)); try assumption.
  intros c x' y Hlt Hx' Hy.
  destruct (Hc c Hlt) as (x & t & Hx & Ht & Hxe).
  rewrite tickTarget_space in Ht by assumption.
  unfold liveAt, readAt in *.
  rewrite Hpos in Hx. rewrite Hsp in Ht. rewrite Hpos' in Hxe.
  rewrite HP0 in Hx. rewrite HS in Ht. rewrite HP' in Hxe.
  assert (x = y) as -> by congruence. assert (t = y) as -> by congruence.
  assert (x' = ease y y) as -> by congruence.
  unfold ease. ring.
Qed.

Lemma ticks_at_rest (K : nat) :
  forall (e : Engine) (p ht st : nat) (P : list R),
    Ready e p ht st ->
    strictEqStr (currentMode e) "heart" = false ->
    heap e !! p = Some P -> heap e !! st = Some P ->
    exists eK,
      ticks K e = Some eK /\ positions eK = Some p
      /\ heap eK !! p = Some P /\ heap eK !! st = Some P.
Proof.
  induction K as [|K IH]; intros e p ht st P HR Hm HP HS.
  - exists e. cbn [ticks]. destruct HR as (Hpos & _). auto.
  - destruct (animate_at_rest e p ht st P HR Hm HP HS)
      as (e1 & Hrun & HR1 & Hm1 & HP1 & HS1).
    destruct (IH e1 p ht st P HR1 ltac:(now rewrite Hm1) HP1 HS1)
      as (eK & HrunK & HK).
    exists eK. cbn [ticks]. rewrite Hrun. cbn [mbind option_bind]. auto.
Qed.

(** C10: when [initParticles] calls [startAnimation()], the live buffer
    is a new array, distinct from both target arrays, with the contents of
    the starfield target array (and the heart targets are the output of
    [generateHeartPoints]).  With the mode not ['heart'], as by default,
    [initParticles] returns with the live buffer still equal to the
    starfield targets, and any number of ticks leaves every particle where
    it is. *)
Theorem initParticles_live_buffer_is_the_starfield
    (random : nat -> R) (fuel k : nat) (e0 e1 : Engine) :
  fst (initScene random fuel e0 k) = Some e1 ->
  exists p ht st P H,
    positions e1 = Some p /\ particleGeometry e1 = Some p
    /\ heartTargets e1 = Some ht /\ spaceTargets e1 = Some st
    /\ p <> st /\ p <> ht /\ st <> ht
    /\ heap e1 !! p = Some P /\ heap e1 !! st = Some P
    /\ heap e1 !! ht = Some H
    /\ fst (generateHeartPoints random fuel PARTICLE_COUNT k) = Some H
    /\ P = fst (generateSpacePoints random PARTICLE_COUNT SPACE_RADIUS
                  (snd (generateHeartPoints random fuel PARTICLE_COUNT k)))
    /\ length P = (PARTICLE_COUNT * 3)%nat
    /\ (strictEqStr (currentMode e0) "heart" = false ->
        (forall K,
            exists eK,
              ticks K e1 = Some eK /\ positions eK = Some p
              /\ heap eK !! p = Some P /\ heap eK !! st = Some P)
        /\ exists e2,
             fst (initParticles random fuel e0 k) = Some e2
             /\ positions e2 = Some p /\ heap e2 !! p = Some P).
Proof.
  intro Hscene.
  destruct (initScene_spec random fuel k e0 e1 Hscene)
    as (hp & Hhp & Hheap & Hht & Hst & Hpos & Hgeo & Hmode).
  cbv zeta in Hheap.
  assert (length (fst (generateSpacePoints random PARTICLE_COUNT SPACE_RADIUS
                         (snd (generateHeartPoints random fuel
                                 PARTICLE_COUNT k))))
          = (PARTICLE_COUNT * 3)%nat) as Hlsp
    by apply generateSpacePoints_points.
  remember (fst (generateSpacePoints random PARTICLE_COUNT SPACE_RADIUS
                   (snd (generateHeartPoints random fuel PARTICLE_COUNT k))))
    as sp eqn:Esp.
  remember (length (heap e0)) as n eqn:En.
  destruct (lookup_three_new (heap e0) hp sp sp) as (L0 & L1 & L2).
  rewrite <- En in L0, L1, L2. rewrite <- Hheap in L0, L1, L2.
  assert (length hp = (PARTICLE_COUNT * 3)%nat) as Hlhp.
  { rewrite generateHeartPoints_unfold in Hhp.
    apply (heartLoop_filtered random fuel PARTICLE_COUNT
             (floor_0_7 PARTICLE_COUNT) 0 (replicate (PARTICLE_COUNT * 3) 0)
             k hp Hhp);
      [now rewrite length_replicate | lia | intros j Hj; lia]. }
  assert (Ready e1 (n + 2) n (n + 1)) as HR.
  { unfold Ready. repeat (split; [first [assumption | lia]|]).
    split; [exists sp | split; [exists hp | exists sp]]; auto. }
  exists (n + 2)%nat, n, (n + 1)%nat, sp, hp.
  repeat (split; [first [assumption | lia]|]).
  split; [reflexivity|]. split; [assumption|].
  intro Hm. rewrite <- Hmode in Hm. split.
  - intro K. now apply (ticks_at_rest K e1 (n + 2) n (n + 1)).
  - destruct (animate_at_rest e1 (n + 2) n (n + 1) sp HR Hm L2 L1)
      as (e' & Hrun & HR' & _ & HP' & _).
    unfold initParticles, gbind.
    destruct (initScene random fuel e0 k) as [scene k'].
    cbn [fst] in Hscene. subst scene.
    unfold startAnimation. rewrite Hrun. unfold gret. cbn [fst].
    eexists. split; [reflexivity|].
    cbn [positions heap]. destruct HR' as (Hpos' & _). auto.
Qed.

(** C10, witness: the module's initial state and the constant sample 0,
    for which the heart loop ends within [PARTICLE_COUNT] iterations. *)
Lemma initParticles_from_initialEngine :
  exists e1,
    fst (initScene (fun _ => 0) PARTICLE_COUNT initialEngine 0%nat)
    = Some e1
    /\ exists p st P,
         positions e1 = Some p /\ spaceTargets e1 = Some st /\ p <> st
         /\ heap e1 !! p = Some P /\ heap e1 !! st = Some P
         /\ exists e3,
              ticks 3 e1 = Some e3 /\ heap e3 !! p = Some P.
Proof.
  assert (exists e1,
             fst (initScene (fun _ => 0) PARTICLE_COUNT initialEngine 0%nat)
             = Some e1) as [e1 He1].
  { destruct (heartLoop_no_skip (fun _ => 0) PARTICLE_COUNT
                ltac:(intro; lra) PARTICLE_COUNT (floor_0_7 PARTICLE_COUNT)
                0%nat (replicate (PARTICLE_COUNT * 3) 0) 0%nat ltac:(lia))
      as [hp Hhp].
    rewrite <- generateHeartPoints_unfold in Hhp.
    unfold initScene, gbind.
    destruct (generateHeartPoints (fun _ => 0) PARTICLE_COUNT PARTICLE_COUNT
                0%nat) as [o k1].
    cbn [fst] in Hhp. subst o. unfold alloc.
    destruct (generateSpacePoints (fun _ => 0) PARTICLE_COUNT SPACE_RADIUS k1).
    unfold gret. cbn [fst]. eauto. }
  exists e1. split; [exact He1|].
  destruct (initParticles_live_buffer_is_the_starfield
              (fun _ => 0) PARTICLE_COUNT 0%nat initialEngine e1 He1)
    as (p & ht & st & P & H & Hpos & _ & _ & Hst & Hne & _ & _ & HP & HS
        & _ & _ & _ & _ & Hrest).
  exists p, st, P. repeat (split; [assumption|]).
  destruct (proj1 (Hrest eq_refl) 3%nat) as (e3 & Hrun & _ & HP3 & _).
  exists e3. auto.
Defined.

End EngineFacts.

(** ** The animation tick on the stored numbers *)

Module Binary32Facts.

Import Particles.
Import Binary32.

Local Open Scope float_scope.

(** The value that a tick stores for a coordinate [x] whose target is
    [t]. *)
Definition step (t x : float) : float := fround (x + (t - x) * EASING).

Definition targetOf (currentMode : jsval) (heartbeat v : float) : float :=
  if strictEqStr currentMode "heart" then v * heartbeat else v.

Definition activeTargets (currentMode : jsval)
    (heartTargets spaceTargets : option nat) : option nat :=
  if strictEqStr currentMode "heart" then heartTargets else spaceTargets.

(** The three stores of an iteration. *)
Definition store3 (i : nat) (a b c : float) (P : list float) : list float :=
  <[(i * 3 + 2)%nat := c]> (<[(i * 3 + 1)%nat := b]> (<[(i * 3)%nat := a]> P)).

Lemma store3_length (i : nat) (a b c : float) (P : list float) :
  length (store3 i a b c P) = length P.
Proof. unfold store3. now rewrite !length_insert. Qed.

Lemma store3_lookup (i : nat) (a b c : float) (P : list float) :
  (i * 3 + 2 < length P)%nat ->
  store3 i a b c P !! (i * 3)%nat = Some a
  /\ store3 i a b c P !! (i * 3 + 1)%nat = Some b
  /\ store3 i a b c P !! (i * 3 + 2)%nat = Some c
  /\ forall j, ~ (i * 3 <= j < i * 3 + 3)%nat ->
               store3 i a b c P !! j = P !! j.
Proof.
  intro Hi. unfold store3. repeat split.
  - rewrite !list_lookup_insert_ne by lia.
    now rewrite list_lookup_insert_eq by lia.
  - rewrite list_lookup_insert_ne by lia.
    now rewrite list_lookup_insert_eq by (rewrite length_insert; lia).
  - now rewrite list_lookup_insert_eq by (rewrite !length_insert; lia).
  - intros j Hj. now rewrite !list_lookup_insert_ne by lia.
Qed.

Section Loop.

Variables (currentMode : jsval) (heartbeat : float).
Variables (heartTargets spaceTargets : option nat) (posArray t : nat).
Variable T : list float.

Hypothesis Hactive :
  activeTargets currentMode heartTargets spaceTargets = Some t.
Hypothesis Hdistinct : posArray <> t.

(** One iteration stores the three stepped coordinates of particle [i]
    into the live array and writes nothing else. *)
Lemma animateParticle_stores (i : nat) (h : list (list float))
    (P : list float) :
  h !! posArray = Some P -> h !! t = Some T ->
  (i * 3 + 2 < length P)%nat -> (i * 3 + 2 < length T)%nat ->
  exists x y z tx ty tz,
    P !! (i * 3)%nat = Some x /\ P !! (i * 3 + 1)%nat = Some y
    /\ P !! (i * 3 + 2)%nat = Some z
    /\ T !! (i * 3)%nat = Some tx /\ T !! (i * 3 + 1)%nat = Some ty
    /\ T !! (i * 3 + 2)%nat = Some tz
    /\ animateParticle currentMode heartbeat heartTargets spaceTargets
         posArray i h
       = Some (<[posArray :=
                   store3 i (step (targetOf currentMode heartbeat tx) x)
                            (step (targetOf currentMode heartbeat ty) y)
                            (step (targetOf currentMode heartbeat tz) z) P]>
                 h).
Proof using Hactive Hdistinct.
  intros HP HT HiP HiT.
  destruct (lookup_lt_is_Some_2 P (i * 3) ltac:(lia)) as [x Hx].
  destruct (lookup_lt_is_Some_2 P (i * 3 + 1) ltac:(lia)) as [y Hy].
  destruct (lookup_lt_is_Some_2 P (i * 3 + 2) ltac:(lia)) as [z Hz].
  destruct (lookup_lt_is_Some_2 T (i * 3) ltac:(lia)) as [tx Htx].
  destruct (lookup_lt_is_Some_2 T (i * 3 + 1) ltac:(lia)) as [ty Hty].
  destruct (lookup_lt_is_Some_2 T (i * 3 + 2) ltac:(lia)) as [tz Htz].
  exists x, y, z, tx, ty, tz. repeat (split; [assumption|]).
  pose proof (lookup_lt_Some _ _ _ HP) as Hp.
  assert (forall c, readAt h (Some t) c = T !! c) as Hread
    by (intro c; unfold readAt; now rewrite HT).
  unfold animateParticle, targetOf, activeTargets, step, store3 in *.
  assert ((if strictEqStr currentMode "heart"
           then
             targetX ← readAt h heartTargets (i * 3);
             targetY ← readAt h heartTargets (i * 3 + 1);
             targetZ ← readAt h heartTargets (i * 3 + 2);
             Some (targetX * heartbeat, targetY * heartbeat,
                   targetZ * heartbeat)
           else
             targetX ← readAt h spaceTargets (i * 3);
             targetY ← readAt h spaceTargets (i * 3 + 1);
             targetZ ← readAt h spaceTargets (i * 3 + 2);
             Some (targetX, targetY, targetZ))
          = Some (if strictEqStr currentMode "heart"
                  then (tx * heartbeat, ty * heartbeat, tz * heartbeat)
                  else (tx, ty, tz))) as ->.
  { destruct (strictEqStr currentMode "heart"); rewrite Hactive, !Hread,
      Htx, Hty, Htz; reflexivity. }
  cbn [mbind option_bind].
  assert (forall (Q : list float) (c : nat) (v : float),
            writeAt (<[posArray := Q]> h) posArray c v
            = <[posArray := <[c := fround v]> Q]> h) as Hwrite.
  { intros Q c v. unfold writeAt.
    rewrite list_lookup_insert_eq by assumption.
    now rewrite list_insert_insert_eq. }
  assert (forall (Q : list float) (c : nat),
            readAt (<[posArray := Q]> h) (Some posArray) c = Q !! c)
    as Hlive.
  { intros Q c. unfold readAt.
    now rewrite list_lookup_insert_eq by assumption. }
  assert (forall (c : nat) (v : float),
            writeAt h posArray c v = <[posArray := <[c := fround v]> P]> h)
    as Hwrite0 by (intros c v; unfold writeAt; now rewrite HP).
  assert (forall c, readAt h (Some posArray) c = P !! c) as Hlive0
    by (intro c; unfold readAt; now rewrite HP).
  destruct (strictEqStr currentMode "heart");
    rewrite Hlive0, Hx; cbn [mbind option_bind];
    rewrite Hwrite0, Hlive;
    rewrite list_lookup_insert_ne by lia; rewrite Hy;
    cbn [mbind option_bind];
    rewrite Hwrite, Hlive;
    rewrite !list_lookup_insert_ne by lia; rewrite Hz;
    cbn [mbind option_bind];
    rewrite Hwrite; reflexivity.
Qed.

(** Coordinate [c] of [P'] is the stepped coordinate [c] of [P]. *)
Definition steppedAt (P P' : list float) (c : nat) : Prop :=
  exists x tv,
    P !! c = Some x /\ T !! c = Some tv
    /\ P' !! c = Some (step (targetOf currentMode heartbeat tv) x).

Lemma forParticles_stores (n : nat) :
  forall (i : nat) (h : list (list float)) (P : list float),
    h !! posArray = Some P -> h !! t = Some T ->
    ((i + n) * 3 <= length P)%nat -> ((i + n) * 3 <= length T)%nat ->
    exists P',
      forParticles i n
        (animateParticle currentMode heartbeat heartTargets spaceTargets
           posArray) h
      = Some (<[posArray := P']> h)
      /\ length P' = length P
      /\ (forall c, (i * 3 <= c < (i + n) * 3)%nat -> steppedAt P P' c)
      /\ (forall c, ~ (i * 3 <= c < (i + n) * 3)%nat -> P' !! c = P !! c).
Proof using Hactive Hdistinct.
  induction n as [|n IH]; intros i h P HP HT HlP HlT.
  - exists P. cbn [forParticles]. rewrite list_insert_id by assumption.
    repeat split; try reflexivity. intros c Hc. lia.
  - destruct (animateParticle_stores i h P HP HT ltac:(lia) ltac:(lia))
      as (x & y & z & tx & ty & tz & Hx & Hy & Hz & Htx & Hty & Htz & Hstep).
    set (P1 := store3 i (step (targetOf currentMode heartbeat tx) x)
                        (step (targetOf currentMode heartbeat ty) y)
                        (step (targetOf currentMode heartbeat tz) z) P) in *.
    pose proof (lookup_lt_Some _ _ _ HP) as Hp.
    destruct (store3_lookup i (step (targetOf currentMode heartbeat tx) x)
                (step (targetOf currentMode heartbeat ty) y)
                (step (targetOf currentMode heartbeat tz) z) P ltac:(lia))
      as (W0 & W1 & W2 & Wne).
    fold P1 in W0, W1, W2, Wne.
    destruct (IH (S i) (<[posArray := P1]> h) P1)
      as (P' & Hrun & Hlen & He & Hu).
    + now apply list_lookup_insert_eq.
    + now rewrite list_lookup_insert_ne.
    + subst P1. rewrite store3_length. lia.
    + lia.
    + exists P'. cbn [forParticles]. rewrite Hstep. cbn [mbind option_bind].
      rewrite Hrun, list_insert_insert_eq.
      split; [reflexivity|].
      split; [subst P1; now rewrite Hlen, store3_length|].
      split.
      * intros c Hc. destruct (Nat.lt_ge_cases c (i * 3 + 3)) as [Hlt|Hge].
        -- assert (c = i * 3 \/ c = i * 3 + 1 \/ c = i * 3 + 2)%nat
             as [->|[->| ->]] by lia.
           ++ exists x, tx. rewrite Hu by lia. auto.
           ++ exists y, ty. rewrite Hu by lia. auto.
           ++ exists z, tz. rewrite Hu by lia. auto.
        -- destruct (He c ltac:(lia)) as (x' & t' & H1 & H2 & H3).
           exists x', t'. rewrite <- Wne by lia. auto.
      * intros c Hc. rewrite Hu by lia. apply Wne. lia.
Qed.

End Loop.

(** The arrays are in place: the live array [p], the heart targets [ht]
    and the starfield targets [st], the live array distinct from both,
    each with [3 * PARTICLE_COUNT] numbers. *)
Definition Ready (e : Engine) (p ht st : nat) : Prop :=
  particleGeometry e = Some p
  /\ heartTargets e = Some ht /\ spaceTargets e = Some st
  /\ p <> ht /\ p <> st
  /\ (exists P, heap e !! p = Some P
                /\ length P = (PARTICLE_COUNT * 3)%nat)
  /\ (exists H, heap e !! ht = Some H
                /\ length H = (PARTICLE_COUNT * 3)%nat)
  /\ (exists S, heap e !! st = Some S
                /\ length S = (PARTICLE_COUNT * 3)%nat).

Definition liveAt (e : Engine) (c : nat) : option float :=
  readAt (heap e) (particleGeometry e) c.

Section Tick.

Variable Math_sin : float -> float.

(** The heartbeat multiplier of the tick that starts in [e]. *)
Definition tickHeartbeat (e : Engine) : float :=
  if strictEqStr (currentMode e) "heart"
  then 1 + HEARTBEAT_AMPLITUDE
           * Math_sin ((time e + 0.016) * HEARTBEAT_SPEED)
  else 1.

(** The target of coordinate [c] in the tick that starts in [e]. *)
Definition tickTarget (e : Engine) (c : nat) : option float :=
  if strictEqStr (currentMode e) "heart"
  then option_map (fun v => v * tickHeartbeat e)
         (readAt (heap e) (heartTargets e) c)
  else readAt (heap e) (spaceTargets e) c.

Lemma animate_stores (e : Engine) (p ht st : nat) :
  Ready e p ht st ->
  exists e',
    animate Math_sin e = Some e'
    /\ Ready e' p ht st
    /\ currentMode e' = currentMode e
    /\ time e' = time e + 0.016
    /\ (forall a, a <> p -> heap e' !! a = heap e !! a)
    /\ forall c, (c < PARTICLE_COUNT * 3)%nat ->
         exists x t,
           liveAt e c = Some x /\ tickTarget e c = Some t
           /\ liveAt e' c = Some (step t x).
Proof.
  intros (Hgeo & Hht & Hst & Hpht & Hpst & (P & HP & HlP)
          & (H & HH & HlH) & (S & HS & HlS)).
  pose proof (lookup_lt_Some _ _ _ HP) as Hp.
  set (hb := if strictEqStr (currentMode e) "heart"
             then 1 + HEARTBEAT_AMPLITUDE
                      * Math_sin ((time e + 0.016) * HEARTBEAT_SPEED)
             else 1).
  assert (exists t T,
             activeTargets (currentMode e) (heartTargets e) (spaceTargets e)
             = Some t
             /\ p <> t /\ heap e !! t = Some T
             /\ length T = (PARTICLE_COUNT * 3)%nat)
    as (t & T & Hact & Hpt & HT & HlT).
  { unfold activeTargets. destruct (strictEqStr (currentMode e) "heart").
    - exists ht, H. auto.
    - exists st, S. auto. }
  destruct (forParticles_stores (currentMode e) hb (heartTargets e)
              (spaceTargets e) p t T Hact Hpt PARTICLE_COUNT 0 (heap e) P
              HP HT ltac:(lia) ltac:(lia))
    as (P' & Hrun & Hlen & He & _).
  unfold animate. rewrite Hgeo. cbn [mbind option_bind].
  fold hb. rewrite Hrun. cbn [mbind option_bind].
  eexists. split; [reflexivity|].
  cbn [heap heartTargets spaceTargets particleGeometry currentMode time].
  split.
  { unfold Ready.
    cbn [heap heartTargets spaceTargets particleGeometry].
    repeat (split; [first [assumption | reflexivity]|]).
    split; [exists P'; split;
            [now apply list_lookup_insert_eq | now rewrite Hlen]|].
    split; [exists H | exists S];
      (split; [now rewrite list_lookup_insert_ne | assumption]). }
  split; [reflexivity|]. split; [reflexivity|].
  split; [intros a Ha; now rewrite list_lookup_insert_ne|].
  intros c Hc. destruct (He c ltac:(lia)) as (x & tv & Hx & Ht & Hx').
  exists x, (targetOf (currentMode e) hb tv).
  unfold liveAt, tickTarget, tickHeartbeat, readAt.
  cbn [heap particleGeometry]. rewrite Hgeo, HP, Hx.
  rewrite list_lookup_insert_eq by assumption. rewrite Hx'.
  split; [reflexivity|]. split; [|reflexivity].
  unfold activeTargets, targetOf in *. fold hb.
  destruct (strictEqStr (currentMode e) "heart");
    rewrite Hact, HT, Ht; reflexivity.
Qed.

(** Outside the heart mode the target of a coordinate is fixed, and [K]
    ticks apply [step] to it [K] times. *)
Lemma ticks_store (K : nat) :
  forall (e : Engine) (p ht st : nat),
    Ready e p ht st ->
    strictEqStr (currentMode e) "heart" = false ->
    exists eK,
      ticks Math_sin K e = Some eK
      /\ Ready eK p ht st
      /\ currentMode eK = currentMode e
      /\ forall c, (c < PARTICLE_COUNT * 3)%nat ->
           exists x0 t,
             liveAt e c = Some x0
             /\ readAt (heap e) (spaceTargets e) c = Some t
             /\ liveAt eK c = Some (Nat.iter K (step t) x0).
Proof.
  induction K as [|K IH]; intros e p ht st HR Hm.
  - exists e. cbn [ticks]. repeat (split; [first [assumption|reflexivity]|]).
    intros c Hc.
    destruct (animate_stores e p ht st HR) as (e' & _ & _ & _ & _ & _ & Hc').
    destruct (Hc' c Hc) as (x & t & Hx & Ht & _).
    unfold tickTarget in Ht. rewrite Hm in Ht.
    exists x, t. auto.
  - destruct (animate_stores e p ht st HR)
      as (e1 & Hrun & HR1 & Hm1 & _ & Hother & Hc1).
    destruct (IH e1 p ht st HR1 ltac:(now rewrite Hm1))
      as (eK & HrunK & HRK & HmK & HcK).
    exists eK. cbn [ticks]. rewrite Hrun. cbn [mbind option_bind].
    split; [assumption|]. split; [assumption|]. split; [congruence|].
    intros c Hc.
    destruct (Hc1 c Hc) as (x0 & t & Hx0 & Ht & Hx1).
    unfold tickTarget in Ht. rewrite Hm in Ht.
    destruct (HcK c Hc) as (x1 & t' & Hx1' & Ht' & HxK).
    assert (t' = t) as ->.
    { destruct HR as (_ & _ & Hs & _ & Hps & _),
               HR1 as (_ & _ & Hs1 & _).
      unfold readAt in Ht, Ht'. rewrite Hs in Ht.
      rewrite Hs1, Hother in Ht' by congruence. congruence. }
    assert (x1 = step t x0) as -> by congruence.
    exists x0, t. split; [assumption|]. split; [assumption|].
    rewrite HxK. f_equal. symmetry. apply Nat.iter_succ_r.
Qed.

End Tick.

(** C5, as amended: on an engine whose arrays are in place, [animate()]
    replaces every live coordinate [x] by the binary32 rounding of the
    binary64 value [x + (t - x) * EASING], where [t] is the heart target
    times the heartbeat multiplier in mode ['heart'] and the starfield
    target otherwise, whatever the mode was before; it writes no other
    array.  Outside the heart mode the target is fixed, and [K] ticks
    apply that rounded step [K] times to every live coordinate. *)
Theorem animate_stores_the_rounded_easing_step
    (Math_sin : float -> float) (e : Engine) (p ht st : nat) :
  Ready e p ht st ->
  (exists e',
      animate Math_sin e = Some e'
      /\ Ready e' p ht st
      /\ currentMode e' = currentMode e
      /\ (forall a, a <> p -> heap e' !! a = heap e !! a)
      /\ forall c, (c < PARTICLE_COUNT * 3)%nat ->
           exists x t,
             liveAt e c = Some x /\ tickTarget Math_sin e c = Some t
             /\ liveAt e' c = Some (fround (x + (t - x) * EASING)))
  /\ (strictEqStr (currentMode e) "heart" = false ->
      forall K,
        exists eK,
          ticks Math_sin K e = Some eK
          /\ forall c, (c < PARTICLE_COUNT * 3)%nat ->
               exists x0 t,
                 liveAt e c = Some x0 /\ tickTarget Math_sin e c = Some t
                 /\ liveAt eK c
                    = Some (Nat.iter K
                              (fun x => fround (x + (t - x) * EASING)) x0)).
Proof.
  intro HR. split.
  - destruct (animate_stores Math_sin e p ht st HR)
      as (e' & Hrun & HR' & Hm & _ & Hother & Hc).
    exists e'. repeat (split; [assumption|]). exact Hc.
  - intros Hm K.
    destruct (ticks_store Math_sin K e p ht st HR Hm)
      as (eK & Hrun & _ & _ & Hc).
    exists eK. split; [exact Hrun|]. intros c Hlt.
    destruct (Hc c Hlt) as (x0 & t & Hx0 & Ht & HxK).
    exists x0, t. unfold tickTarget. rewrite Hm. auto.
Qed.

(** An engine in mode ['space'] with every live coordinate [x], every
    heart target 1 and every starfield target 2. *)
Definition engineAt (x : float) : Engine :=
  {| heap := [replicate (PARTICLE_COUNT * 3) x;
              replicate (PARTICLE_COUNT * 3) 1;
              replicate (PARTICLE_COUNT * 3) 2];
     heartTargets := Some 1%nat;
     spaceTargets := Some 2%nat;
     particleGeometry := Some 0%nat;
     currentMode := JString "space";
     time := 0 |}.

Lemma engineAt_Ready (x : float) : Ready (engineAt x) 0 1 2.
Proof.
  unfold Ready, engineAt.
  cbn [heap heartTargets spaceTargets particleGeometry].
  repeat (split; [first [reflexivity | lia]|]).
  split; [|split]; eexists; (split; [reflexivity | apply length_replicate]).
Qed.

Lemma engineAt_coordinate (x : float) :
  liveAt (engineAt x) 0 = Some x
  /\ forall Math_sin, tickTarget Math_sin (engineAt x) 0 = Some 2.
Proof.
  assert (0 < PARTICLE_COUNT * 3)%nat as Hpos
    by (unfold PARTICLE_COUNT; lia).
  split.
  - unfold liveAt, readAt, engineAt. cbn [heap particleGeometry].
    change ([replicate (PARTICLE_COUNT * 3) x;
             replicate (PARTICLE_COUNT * 3) 1;
             replicate (PARTICLE_COUNT * 3) 2] !! 0%nat)
      with (Some (replicate (PARTICLE_COUNT * 3) x)).
    now apply lookup_replicate_2.
  - intro Math_sin. unfold tickTarget, readAt, engineAt.
    cbn [heap spaceTargets currentMode strictEqStr String.eqb Ascii.eqb
         Bool.eqb].
    change ([replicate (PARTICLE_COUNT * 3) x;
             replicate (PARTICLE_COUNT * 3) 1;
             replicate (PARTICLE_COUNT * 3) 2] !! 2%nat)
      with (Some (replicate (PARTICLE_COUNT * 3) 2)).
    now apply lookup_replicate_2.
Qed.

(** C5, witness: the first tick from 0 towards 2 stores
    0.05000000074505806, the binary32 number nearest to 0.05. *)
Lemma animate_first_tick_from_zero :
  Ready (engineAt 0) 0 1 2
  /\ exists e',
       animate (fun x => x) (engineAt 0) = Some e'
       /\ liveAt e' 0 = Some 0.05000000074505806.
Proof.
  split; [apply engineAt_Ready|].
  destruct (animate_stores_the_rounded_easing_step (fun x => x)
              (engineAt 0) 0 1 2 (engineAt_Ready 0))
    as ((e' & Hrun & _ & _ & _ & Hc) & _).
  exists e'. split; [exact Hrun|].
  assert (0 < PARTICLE_COUNT * 3)%nat as Hpos
    by (unfold PARTICLE_COUNT; lia).
  destruct (Hc 0%nat Hpos) as (x & t & Hx & Ht & Hx').
  destruct (engineAt_coordinate 0) as [Hx0 Ht0].
  rewrite Hx0 in Hx. rewrite Ht0 in Ht.
  injection Hx as <-. injection Ht as <-. rewrite Hx'.
  vm_compute. reflexivity.
Defined.

(** The bound of the claim after 600 ticks from distance 2, against the
    distance [5 / 2097152] at which the coordinate below stops. *)
Lemma geometric_bound_600 : (2 * (1 - 0.025) ^ 600 < 5 / 2097152)%R.
Proof.
  assert (0 <= (1 - 0.025) ^ 10 <= 0.7764)%R as H10
    by (split; [apply pow_le; lra | simpl; lra]).
  assert (0 <= 0.7764 ^ 4 <= 0.3635)%R as H4
    by (split; [apply pow_le; lra | simpl; lra]).
  assert (0 <= 0.3635 ^ 3 <= 0.0481)%R as H3
    by (split; [apply pow_le; lra | simpl; lra]).
  assert (0.0481 ^ 5 <= 0.00000026)%R as H5 by (simpl; lra).
  replace 600%nat with (10 * (4 * (3 * 5)))%nat by reflexivity.
  rewrite !pow_mult.
  assert (((((1 - 0.025) ^ 10) ^ 4) ^ 3) ^ 5 <= 0.00000026)%R; [|lra].
  eapply Rle_trans; [|exact H5].
  apply pow_incr. split; [apply pow_le, pow_le; lra|].
  eapply Rle_trans; [|apply H3].
  apply pow_incr. split; [apply pow_le; lra|].
  eapply Rle_trans; [|apply H4].
  apply pow_incr. exact H10.
Qed.

(** C5, as stated, fails on the stored numbers.  Take a live coordinate
    0 with target 2.  The first tick moves it to 0.05000000074505806,
    by more than [EASING * (2 - 0)].  After 534 ticks it is at
    1.999997615814209, and every later tick stores that number back: the
    coordinate stays at distance [5 / 2097152] from its target for ever,
    above [2 * (1 - EASING) ^ 600] already at tick 600. *)
Lemma animate_stalls_short_of_the_target :
  liveAt (engineAt 0) 0 = Some 0
  /\ tickTarget (fun x => x) (engineAt 0) 0 = Some 2
  /\ (exists e1,
         ticks (fun x => x) 1 (engineAt 0) = Some e1
         /\ liveAt e1 0 = Some 0.05000000074505806)
  /\ (EASING * (2 - 0) <? 0.05000000074505806) = true
  /\ (forall K, (534 <= K)%nat ->
        exists eK,
          ticks (fun x => x) K (engineAt 0) = Some eK
          /\ liveAt eK 0 = Some 1.999997615814209)
  /\ (1.999997615814209 <? 2) = true
  /\ (2 - 1.999997615814209 =? 5 / 2097152) = true
  /\ (2 * (1 - 0.025) ^ 600 < 5 / 2097152)%R.
Proof.
  destruct (engineAt_coordinate 0) as [Hx0 Ht0].
  assert (forall K,
             exists eK,
               ticks (fun x => x) K (engineAt 0) = Some eK
               /\ liveAt eK 0 = Some (Nat.iter K (step 2) 0)) as Hrun.
  { intro K.
    destruct (ticks_store (fun x => x) K (engineAt 0) 0 1 2
                (engineAt_Ready _) eq_refl) as (eK & Hrun & _ & _ & Hc).
    exists eK. split; [exact Hrun|].
    assert (0 < PARTICLE_COUNT * 3)%nat as Hpos
      by (unfold PARTICLE_COUNT; lia).
    destruct (Hc 0%nat Hpos) as (x0 & t & Hx & Ht & HxK).
    rewrite Hx0 in Hx. injection Hx as <-.
    pose proof (Ht0 (fun x => x)) as Ht0'. unfold tickTarget in Ht0'.
    cbn [currentMode engineAt strictEqStr String.eqb Ascii.eqb Bool.eqb]
      in Ht0'.
    rewrite Ht0' in Ht. injection Ht as <-. exact HxK. }
  split; [exact Hx0|]. split; [apply Ht0|].
  split.
  { destruct (Hrun 1%nat) as (e1 & He1 & Hl1). exists e1.
    split; [exact He1|]. rewrite Hl1. vm_compute. reflexivity. }
  split; [vm_compute; reflexivity|].
  split.
  { intros K HK. destruct (Hrun K) as (eK & HeK & HlK). exists eK.
    split; [exact HeK|]. rewrite HlK. f_equal.
    replace K with ((K - 534) + 534)%nat by lia.
    rewrite Nat.iter_add.
    assert (Nat.iter 534 (step 2) 0 = 1.999997615814209) as ->
      by (vm_compute; reflexivity).
    assert (step 2 1.999997615814209 = 1.999997615814209) as Hfix
      by (vm_compute; reflexivity).
    induction (K - 534)%nat as [|j IH]; [reflexivity|].
    rewrite Nat.iter_succ, IH. exact Hfix. }
  split; [vm_compute; reflexivity|].
  split; [vm_compute; reflexivity|].
  exact geometric_bound_600.
Qed.

End Binary32Facts.

(* ================================================================== *)
(** * Part III: further properties of the code                         *)
(* ================================================================== *)

(** ** The debouncer: what a caller can rely on *)

Module DebounceExtras.

Import GestureLogic DebounceFacts.

Local Open Scope Z_scope.

Lemma updateRaw_changes (d : GestureDetector) (r : option HandState) :
  (snd (updateRaw d r) = None
   <-> currentState (fst (updateRaw d r)) = currentState d)
  /\ (forall l, snd (updateRaw d r) = Some l ->
        currentState (fst (updateRaw d r)) = Some l
        /\ currentState d <> Some l /\ r = Some l).
Proof.
  unfold updateRaw.
  destruct (strictEq r None) eqn:E1; [cbn; repeat split; congruence|].
  destruct (strictEq r (currentState d)) eqn:E2;
    [cbn; repeat split; congruence|].
  destruct (strictEq r (pendingState d)) eqn:E3; cbn [negb];
    [|cbn; repeat split; congruence].
  apply strictEq_true in E3. apply strictEq_false in E1, E2.
  destruct (debounceFrames d <=? pendingCount d + 1);
    cbn [fst snd debounceFrames currentState].
  - rewrite <- E3. repeat split; congruence.
  - repeat split; congruence.
Qed.

Lemma updateRaw_threshold (d : GestureDetector) (r : option HandState) :
  debounceFrames (fst (updateRaw d r)) = debounceFrames d.
Proof.
  unfold updateRaw.
  destruct (strictEq r None); [reflexivity|].
  destruct (strictEq r (currentState d)); [reflexivity|].
  destruct (strictEq r (pendingState d)); cbn [negb]; [|reflexivity].
  now destruct (debounceFrames d <=? pendingCount d + 1).
Qed.

(** X1: [update] returns a state exactly when it changes the confirmed
    state, and what it returns is the new confirmed state, which is the
    frame's label and differs from the old confirmed state; the threshold
    is never changed. *)
Theorem update_returns_exactly_the_changes
    (d : GestureDetector) (r : option HandState) :
  let d' := fst (updateRaw d r) in
  let out := snd (updateRaw d r) in
  debounceFrames d' = debounceFrames d
  /\ (out = None <-> currentState d' = currentState d)
  /\ (forall l, out = Some l ->
        currentState d' = Some l /\ currentState d <> Some l /\ r = Some l).
Proof.
  cbv zeta. split; [apply updateRaw_threshold | apply updateRaw_changes].
Qed.

(** The shape of a detector between two calls. *)
Definition WellFormed (d : GestureDetector) : Prop :=
  match pendingState d with
  | None => pendingCount d = 0
  | Some l =>
    currentState d <> Some l
    /\ 1 <= pendingCount d < Z.max (debounceFrames d) 2
  end.

Lemma WellFormed_updateRaw (d : GestureDetector) (r : option HandState) :
  WellFormed d -> WellFormed (fst (updateRaw d r)).
Proof.
  intro HW. destruct r as [l|]; [|now rewrite updateRaw_unknown].
  destruct (strictEq (Some l) (currentState d)) eqn:Ecur.
  { apply strictEq_true in Ecur. now rewrite Ecur, updateRaw_confirmed. }
  apply strictEq_false in Ecur.
  destruct (strictEq (Some l) (pendingState d)) eqn:Epen.
  - apply strictEq_true in Epen. symmetry in Epen.
    rewrite updateRaw_pending by congruence.
    unfold WellFormed in HW. rewrite Epen in HW.
    destruct (Z.leb_spec (debounceFrames d) (pendingCount d + 1));
      unfold WellFormed; cbn; [reflexivity|].
    split; [congruence | lia].
  - apply strictEq_false in Epen.
    rewrite updateRaw_new_pending by congruence.
    unfold WellFormed. cbn. split; [congruence | lia].
Qed.

(** X2: between calls, a detector made by the constructor or by [reset]
    and driven by [update] has either no pending label and a count of 0,
    or a pending label that differs from the confirmed state and a count
    that is at least 1 and below the larger of the threshold and 2.  So a
    pending count is below the threshold when the threshold is 2 or more,
    and is 1 when the threshold is 1 or less; with the threshold 1 it
    equals the threshold, as after the first labelled frame.  [reset]
    gives the detector that the constructor gives for the same
    threshold. *)
Theorem detector_stays_well_formed :
  (forall T, WellFormed (constructor T))
  /\ (forall d, WellFormed (reset d)
                /\ reset d = constructor (debounceFrames d))
  /\ (forall d r, WellFormed d -> WellFormed (fst (updateRaw d r)))
  /\ (forall raws d, WellFormed d -> WellFormed (final d raws))
  /\ (forall d l, WellFormed d -> pendingState d = Some l ->
        currentState d <> Some l
        /\ (2 <= debounceFrames d -> 1 <= pendingCount d < debounceFrames d)
        /\ (debounceFrames d <= 1 -> pendingCount d = 1))
  /\ (forall d, WellFormed d -> pendingState d = None -> pendingCount d = 0)
  /\ (pendingState (fst (updateRaw (constructor 1) (Some open))) = Some open
      /\ pendingCount (fst (updateRaw (constructor 1) (Some open))) = 1
      /\ debounceFrames (fst (updateRaw (constructor 1) (Some open))) = 1).
Proof.
  split; [reflexivity|]. split; [intro d; split; reflexivity|].
  split; [intros d r; apply WellFormed_updateRaw|].
  split.
  { intro raws. induction raws as [|r raws IH]; intros d HW; [exact HW|].
    unfold final in *. cbn [feed].
    pose proof (WellFormed_updateRaw d r HW) as HW1.
    destruct (updateRaw d r) as [d1 o1]. specialize (IH d1 HW1).
    destruct (feed d1 raws). exact IH. }
  split.
  { intros d l HW Hp. unfold WellFormed in HW. rewrite Hp in HW.
    destruct HW as [Hne Hc]. split; [exact Hne|]. split; intro HT; lia. }
  split.
  { intros d HW Hp. unfold WellFormed in HW. now rewrite Hp in HW. }
  split; [reflexivity|]. split; reflexivity.
Qed.

(** The states a run of frames returned, in order. *)
Definition emitted (d : GestureDetector) (raws : list (option HandState))
  : list HandState := omap (fun o : option HandState => o) (emissions d raws).

(** No element equals the one before it, [prev] standing before the
    first. *)
Fixpoint alternates (prev : option HandState) (l : list HandState) : Prop :=
  match l with
  | [] => True
  | x :: l' => prev <> Some x /\ alternates (Some x) l'
  end.

Lemma last_cons_default {A} (a d : A) (l : list A) :
  List.last (a :: l) d = List.last l a.
Proof.
  revert a d. induction l as [|b l IH]; intros a d; [reflexivity|].
  change (List.last (a :: b :: l) d) with (List.last (b :: l) d).
  now rewrite !IH.
Qed.

(** X3: over any run of frames and for any threshold, the states that
    [update] returns alternate: the first differs from the state confirmed
    at the start and each one differs from the one before it; and
    [getState()] at the end is the last state returned, or the initial
    confirmed state when none was. *)
Theorem emitted_states_alternate
    (raws : list (option HandState)) (d : GestureDetector) :
  alternates (getState d) (emitted d raws)
  /\ getState (final d raws)
     = List.last (map Some (emitted d raws)) (getState d).
Proof.
  revert d. induction raws as [|r raws IH]; intro d.
  - split; [exact I | reflexivity].
  - unfold emitted, emissions, final, getState in *. cbn [feed].
    destruct (updateRaw_changes d r) as (Hnone & Hsome).
    destruct (updateRaw d r) as [d1 o1]. cbn [fst snd] in Hnone, Hsome.
    specialize (IH d1). destruct (feed d1 raws) as [dn outs].
    cbn [fst snd] in *.
    destruct o1 as [l|]; cbn [omap list_omap map alternates].
    + destruct (Hsome l eq_refl) as (H1 & H2 & _). rewrite H1 in IH.
      split; [tauto|]. destruct IH as [_ ->].
      now rewrite last_cons_default.
    + rewrite (proj1 Hnone eq_refl) in IH. exact IH.
Qed.

End DebounceExtras.

(** ** The classifier and [update] on landmarks *)

Module ClassifierExtras.

Import GestureLogic DebounceFacts ClassifierFacts.

Local Open Scope float_scope.

(** The label of a frame: [null] without landmarks or with fewer than
    21. *)
Definition classify (landmarks : option (list Point)) : option HandState :=
  match landmarks with
  | None => None
  | Some lm => if (length lm <? 21)%nat then None else classification lm
  end.

Lemma detectHandState_classify (landmarks : option (list Point))
    (log : list nat) :
  fst (detectHandState landmarks log) = Returned (classify landmarks).
Proof.
  destruct landmarks as [lm|]; [|reflexivity].
  unfold classify. destruct (Nat.ltb_spec (length lm) 21) as [Hlt|Hge].
  - now rewrite detectHandState_short.
  - now rewrite detectHandState_spec.
Qed.

Lemma update_classify (d : GestureDetector)
    (landmarks : option (list Point)) (log : list nat) :
  fst (update d landmarks log) = Returned (updateRaw d (classify landmarks)).
Proof.
  unfold update, bind.
  pose proof (detectHandState_classify landmarks log) as H.
  destruct (detectHandState landmarks log) as [o log'].
  cbn [fst] in H. subst o. reflexivity.
Qed.

(** X4: [update(landmarks)] never throws: it is the debounce step on the
    label of the frame.  A frame without landmarks, with fewer than 21,
    with a hand size below 0.01, or with 2 or 3 extended fingertips keeps
    the confirmed state, drops the pending label and returns [null]. *)
Theorem update_on_landmarks
    (d : GestureDetector) (landmarks : option (list Point))
    (log : list nat) :
  fst (update d landmarks log) = Returned (updateRaw d (classify landmarks))
  /\ (classify landmarks = None ->
      fst (update d landmarks log) = Returned (clearPending d, None))
  /\ (landmarks = None -> classify landmarks = None)
  /\ (forall lm, landmarks = Some lm ->
        ((length lm < 21)%nat -> classify landmarks = None)
        /\ ((handSizeOf lm <? 0.01) = true -> classify landmarks = None)
        /\ ((1 < extendedCount lm < 4)%nat -> classify landmarks = None)).
Proof.
  pose proof (update_classify d landmarks log) as Hup.
  split; [exact Hup|]. split.
  { intro Hnone. rewrite Hup, Hnone. now rewrite updateRaw_unknown. }
  split; [now intros ->|].
  intros lm ->. unfold classify, classification.
  repeat split.
  - intro Hlt. now destruct (Nat.ltb_spec (length lm) 21); [|lia].
  - intros ->. now destruct (length lm <? 21)%nat.
  - intro Hc. destruct (length lm <? 21)%nat; [reflexivity|].
    destruct (handSizeOf lm <? 0.01); [reflexivity|].
    unfold classifyByCount.
    destruct (Nat.leb_spec 4 (extendedCount lm)); [lia|].
    destruct (Nat.leb_spec (extendedCount lm) 1); [lia|reflexivity].
Qed.

(** The landmarks the classifier looks at. *)
Definition usedLandmarks : list nat :=
  [WRIST; INDEX_MCP; MIDDLE_MCP; RING_MCP; PINKY_MCP;
   THUMB_TIP; INDEX_TIP; MIDDLE_TIP; RING_TIP; PINKY_TIP].

(** X5: the classification depends on the wrist, the four MCP joints and
    the five fingertips only: two sets of at least 21 landmarks that
    agree on these ten get the same answer, whatever the other joints
    are. *)
Theorem detectHandState_uses_ten_landmarks
    (lm lm' : list Point) (log : list nat) :
  (21 <= length lm)%nat -> (21 <= length lm')%nat ->
  (forall i, In i usedLandmarks -> lm !! i = lm' !! i) ->
  fst (detectHandState (Some lm) log)
  = fst (detectHandState (Some lm') log).
Proof.
  intros Hlen Hlen' Hsame.
  assert (forall i, In i usedLandmarks -> pointAt lm i = pointAt lm' i)
    as Hpt by (intros i Hi; unfold pointAt; now rewrite Hsame).
  rewrite !detectHandState_spec by assumption. cbn [fst]. f_equal.
  assert (palmCenterOf lm = palmCenterOf lm') as Hpalm.
  { unfold palmCenterOf. rewrite !Hpt by (simpl; tauto). reflexivity. }
  assert (handSizeOf lm = handSizeOf lm') as Hsize.
  { unfold handSizeOf. rewrite !Hpt by (simpl; tauto). reflexivity. }
  assert (forall tip, In tip FINGERTIPS ->
            extended lm tip = extended lm' tip) as Hext.
  { intros tip Htip. unfold extended, normalizedDist.
    rewrite Hpalm, Hsize, Hpt; [reflexivity|].
    unfold FINGERTIPS in Htip. simpl in Htip. simpl. tauto. }
  unfold classification, extendedCount. rewrite Hsize.
  destruct (handSizeOf lm' <? 0.01); [reflexivity|].
  f_equal. f_equal. unfold FINGERTIPS in *. cbn [List.filter].
  rewrite !Hext by (simpl; tauto). reflexivity.
Qed.

(** X5, witness: the open hand with the thumb's CMC joint (landmark 1)
    moved. *)
Lemma detectHandState_ignores_thumb_cmc :
  fst (detectHandState
         (Some (<[1%nat := mkPoint 7 7 (Some 7)]> openHand)) [])
  = fst (detectHandState (Some openHand) []).
Proof.
  apply detectHandState_uses_ten_landmarks.
  - simpl. lia.
  - simpl. lia.
  - intros i Hi. simpl in Hi.
    repeat (destruct Hi as [<-|Hi]; [reflexivity|]). destruct Hi.
Defined.

(** *** Landmarks that are not numbers *)

Lemma is_nan_spec (x : float) :
  is_nan x = true <-> Prim2SF x = S754_nan.
Proof.
  unfold is_nan. rewrite FloatAxioms.eqb_spec. unfold SFeqb.
  destruct (Prim2SF x) as [s|s| |s m e]; cbn [SFcompare negb].
  - split; discriminate.
  - destruct s; split; discriminate.
  - split; reflexivity.
  - rewrite Z.compare_refl.
    change (PosDef.Pos.compare_cont Eq m m) with (Pos.compare m m).
    rewrite Pos.compare_refl. destruct s; split; discriminate.
Qed.

Lemma is_nan_sub (x y : float) :
  is_nan x || is_nan y = true -> is_nan (x - y) = true.
Proof.
  rewrite orb_true_iff, !is_nan_spec, FloatAxioms.sub_spec.
  intros [->| ->]; [reflexivity|]. now destruct (Prim2SF x) as [[]|[]| |].
Qed.

Lemma is_nan_add (x y : float) :
  is_nan x || is_nan y = true -> is_nan (x + y) = true.
Proof.
  rewrite orb_true_iff, !is_nan_spec, FloatAxioms.add_spec.
  intros [->| ->]; [reflexivity|]. now destruct (Prim2SF x) as [[]|[]| |].
Qed.

Lemma is_nan_mul (x y : float) :
  is_nan x || is_nan y = true -> is_nan (x * y) = true.
Proof.
  rewrite orb_true_iff, !is_nan_spec, FloatAxioms.mul_spec.
  intros [->| ->]; [reflexivity|]. now destruct (Prim2SF x) as [[]|[]| |].
Qed.

Lemma is_nan_div (x y : float) :
  is_nan x || is_nan y = true -> is_nan (x / y) = true.
Proof.
  rewrite orb_true_iff, !is_nan_spec, FloatAxioms.div_spec.
  intros [->| ->]; [reflexivity|]. now destruct (Prim2SF x) as [[]|[]| |].
Qed.

Lemma is_nan_sqrt (x : float) : is_nan x = true -> is_nan (PrimFloat.sqrt x) = true.
Proof.
  rewrite !is_nan_spec, FloatAxioms.sqrt_spec. now intros ->.
Qed.

Lemma ltb_nan (x y : float) :
  is_nan x || is_nan y = true -> (x <? y) = false.
Proof.
  rewrite orb_true_iff, !is_nan_spec, FloatAxioms.ltb_spec. unfold SFltb.
  intros [->| ->]; [reflexivity|]. now destruct (Prim2SF x) as [[]|[]| |].
Qed.

(** A [NaN] in [x] or [y] of either point makes the distance [NaN]. *)
Lemma distance_nan (p q : Point) :
  is_nan (pt_x p) || is_nan (pt_y p) || is_nan (pt_x q) || is_nan (pt_y q)
  = true ->
  is_nan (distance p q) = true.
Proof.
  intro H. unfold distance. cbv zeta. apply is_nan_sqrt.
  apply is_nan_add. apply orb_true_iff. left.
  apply is_nan_add. apply orb_true_iff.
  rewrite !orb_true_iff in H. destruct H as [[[H|H]|H]|H].
  - left. apply is_nan_mul, orb_true_iff. left.
    apply is_nan_sub, orb_true_iff. now left.
  - right. apply is_nan_mul, orb_true_iff. left.
    apply is_nan_sub, orb_true_iff. now left.
  - left. apply is_nan_mul, orb_true_iff. left.
    apply is_nan_sub, orb_true_iff. now right.
  - right. apply is_nan_mul, orb_true_iff. left.
    apply is_nan_sub, orb_true_iff. now right.
Qed.

(** X6: a hand whose wrist or middle MCP joint has a [NaN] in [x] or
    [y] is a fist.  The hand size is then [NaN], which is not below 0.01,
    and no normalized distance exceeds 1.3, so no fingertip counts as
    extended, whatever the other landmarks are. *)
Theorem detectHandState_nan_hand_is_a_fist
    (lm : list Point) (log : list nat) :
  (21 <= length lm)%nat ->
  is_nan (pt_x (pointAt lm WRIST)) || is_nan (pt_y (pointAt lm WRIST))
  || is_nan (pt_x (pointAt lm MIDDLE_MCP))
  || is_nan (pt_y (pointAt lm MIDDLE_MCP)) = true ->
  is_nan (handSizeOf lm) = true
  /\ extendedCount lm = 0%nat
  /\ fst (detectHandState (Some lm) log) = Returned (Some fist).
Proof.
  intros Hlen Hnan.
  assert (is_nan (handSizeOf lm) = true) as Hsize
    by now apply distance_nan.
  assert (extendedCount lm = 0%nat) as Hcount.
  { unfold extendedCount.
    assert (forall tip, extended lm tip = false) as Hext.
    { intro tip. unfold extended, normalizedDist. apply ltb_nan.
      apply orb_true_iff. right. apply is_nan_div, orb_true_iff.
      now right. }
    induction FINGERTIPS as [|tip tips IH]; [reflexivity|].
    cbn [List.filter]. now rewrite Hext. }
  split; [exact Hsize|]. split; [exact Hcount|].
  rewrite detectHandState_spec by assumption. cbn [fst].
  unfold classification.
  rewrite (ltb_nan (handSizeOf lm) 0.01)
    by (apply orb_true_iff; now left).
  now rewrite Hcount.
Qed.

(** X6, witness: the open hand with [NaN] as the [x] of its wrist. *)
Lemma detectHandState_nan_wrist_example :
  fst (detectHandState (Some (<[0%nat := mkPoint nan 0 None]> openHand)) [])
  = Returned (Some fist).
Proof.
  apply detectHandState_nan_hand_is_a_fist.
  - simpl. lia.
  - reflexivity.
Defined.

End ClassifierExtras.

(** ** From a frame to the mode *)

Module AppFacts.

Import GestureLogic Particles App.
Import DebounceFacts DebounceExtras ClassifierFacts ClassifierExtras.

(** The label the debouncer is given for a frame, if it is given the
    frame at all: a frame without a hand does not reach it. *)
Definition seen (results : option (list (list Point)))
  : option (option HandState) :=
  match results with
  | Some (landmarks :: _) => Some (classify (Some landmarks))
  | _ => None
  end.

(** The mode [main.js] asks for on a confirmed gesture. *)
Definition modeOf (s : HandState) : jsval :=
  match s with
  | fist => JString "heart"
  | open => JString "space"
  end.

(** [main.js] and the detector agree on the confirmed gesture, and the
    particle mode is the one of that gesture. *)
Definition InSync (sys : Tracker * Main) : Prop :=
  onHandStateChangeCallback (fst sys) = true
  /\ currentGestureState (snd sys) = currentState (gestureDetector (fst sys))
  /\ forall s, currentGestureState (snd sys) = Some s ->
               getMode (engine (snd sys)) = modeOf s.

Lemma detectFrame_spec (results : option (list (list Point)))
    (tr : Tracker) :
  match seen results with
  | None => detectFrame results tr = (tr, [])
  | Some raw =>
    exists pos,
      (pos = [] \/ exists x y, pos = [HandPosition x y])
      /\ detectFrame results tr
         = (mkTracker (fst (updateRaw (gestureDetector tr) raw))
                      (onHandStateChangeCallback tr)
                      (onHandPositionCallback tr),
            match snd (updateRaw (gestureDetector tr) raw) with
            | Some s =>
              if onHandStateChangeCallback tr
              then [HandStateChange s] else []
            | None => []
            end ++ pos)
  end.
Proof.
  destruct results as [[|landmarks hands]|]; try reflexivity.
  cbn [seen detectFrame].
  pose proof (update_classify (gestureDetector tr) (Some landmarks) [])
    as Hup.
  destruct (update (gestureDetector tr) (Some landmarks) []) as [o log'].
  cbn [fst] in Hup. subst o.
  destruct (updateRaw (gestureDetector tr) (classify (Some landmarks)))
    as [d' out].
  cbn [fst snd].
  destruct (onHandPositionCallback tr).
  - destruct (getPalmCenter2D landmarks []) as [[[x y]|e] log2].
    + eexists. split; [right; eauto | reflexivity].
    + exists []. split; [now left | now rewrite app_nil_r].
  - exists []. split; [now left | now rewrite app_nil_r].
Qed.

Section Wired.

Variable toReal : float -> R.

Lemma onHandStateChange_sync (s : HandState) (m : Main) :
  currentGestureState (onHandStateChange s m) = Some s
  /\ (currentGestureState m <> Some s ->
      getMode (engine (onHandStateChange s m)) = modeOf s)
  /\ heap (engine (onHandStateChange s m)) = heap (engine m).
Proof.
  unfold onHandStateChange.
  destruct (strictEq (Some s) (currentGestureState m)) eqn:E.
  - apply strictEq_true in E. repeat split; congruence.
  - destruct s; cbn [currentGestureState engine]; repeat split;
      reflexivity.
Qed.

Lemma onFrame_sync (results : option (list (list Point)))
    (sys : Tracker * Main) :
  InSync sys ->
  InSync (onFrame toReal results sys)
  /\ gestureDetector (fst (onFrame toReal results sys))
     = match seen results with
       | Some raw => fst (updateRaw (gestureDetector (fst sys)) raw)
       | None => gestureDetector (fst sys)
       end
  /\ heap (engine (snd (onFrame toReal results sys)))
     = heap (engine (snd sys)).
Proof.
  destruct sys as [tr m]. intros (Hcb & Hsame & Hmode).
  cbn [fst snd] in *. unfold onFrame. cbn [fst snd].
  pose proof (detectFrame_spec results tr) as Hspec.
  destruct (seen results) as [raw|].
  2:{ rewrite Hspec. cbn [fold_left fst snd]. repeat split; assumption. }
  destruct Hspec as (pos & Hpos & ->). rewrite Hcb.
  destruct (updateRaw_changes (gestureDetector tr) raw) as (Hnone & Hsome).
  destruct (updateRaw (gestureDetector tr) raw) as [d' out].
  cbn [fst snd] in *.
  assert (forall m0 : Main,
             currentGestureState (fold_left (dispatch toReal) pos m0)
             = currentGestureState m0
             /\ getMode (engine (fold_left (dispatch toReal) pos m0))
                = getMode (engine m0)
             /\ heap (engine (fold_left (dispatch toReal) pos m0))
                = heap (engine m0)) as Hposition.
  { intro m0. destruct Hpos as [->|(x & y & ->)]; repeat split. }
  rewrite fold_left_app.
  destruct out as [s|]; cbn [fold_left dispatch].
  - destruct (Hsome s eq_refl) as (Hd' & Hold & _).
    destruct (onHandStateChange_sync s m) as (H1 & H2 & H3).
    destruct (Hposition (onHandStateChange s m)) as (P1 & P2 & P3).
    split; [|split; [reflexivity | congruence]].
    unfold InSync. cbn [fst snd gestureDetector onHandStateChangeCallback].
    split; [reflexivity|]. split; [congruence|].
    intros s' Hs'. rewrite P1, H1 in Hs'. injection Hs' as <-.
    rewrite P2. apply H2. congruence.
  - destruct (Hposition m) as (P1 & P2 & P3).
    split; [|split; [reflexivity | congruence]].
    unfold InSync. cbn [fst snd gestureDetector onHandStateChangeCallback].
    split; [reflexivity|].
    split; [rewrite P1, (proj1 Hnone eq_refl); assumption|].
    intros s' Hs'. rewrite P1 in Hs'. rewrite P2. now apply Hmode.
Qed.

End Wired.

(** X7: the path from the camera to the particle mode.  Whatever the
    frames, [main.js] and the detector keep the same confirmed gesture and
    the particle mode is ['heart'] while Fist is confirmed and ['space']
    while Open is; the detector is driven by the frames that show a hand,
    in order, and a frame without a hand does not reach it (its pending
    count is kept); no frame touches the particle arrays. *)
Theorem mode_follows_confirmed_gesture
    (toReal : float -> R) (frames : list (option (list (list Point))))
    (sys : Tracker * Main) :
  InSync sys ->
  InSync (onFrames toReal frames sys)
  /\ gestureDetector (fst (onFrames toReal frames sys))
     = final (gestureDetector (fst sys)) (omap seen frames)
  /\ heap (engine (snd (onFrames toReal frames sys)))
     = heap (engine (snd sys)).
Proof.
  revert sys. unfold onFrames.
  induction frames as [|results frames IH]; intros sys Hsync.
  - split; [exact Hsync | split; reflexivity].
  - cbn [fold_left].
    destruct (onFrame_sync toReal results sys Hsync) as (H1 & H2 & H3).
    destruct (IH (onFrame toReal results sys) H1) as (I1 & I2 & I3).
    split; [exact I1|]. split; [|congruence].
    rewrite I2, H2. cbn [omap list_omap]. unfold final.
    destruct (seen results) as [raw|]; [|reflexivity].
    cbn [feed]. destruct (updateRaw (gestureDetector (fst sys)) raw).
    cbn [fst]. now destruct (feed g (omap seen frames)).
Qed.

(** The application when tracking starts: nothing confirmed, the mode set
    to ['space'] by [init]. *)
Definition started : Tracker * Main :=
  (startHandTracking,
   mkMain None (setMode (JString "space") initialEngine) []).

(** X7, witness: two fist frames, a frame without a hand and three more
    fist frames: Fist is confirmed on the last one and the mode is
    ['heart']. *)
Lemma five_fist_frames_give_the_heart :
  InSync started
  /\ getMode (engine (snd (onFrames (fun _ => 0%R)
                             [Some [fistHand]; Some [fistHand]; None;
                              Some [fistHand]; Some [fistHand];
                              Some [fistHand]] started)))
     = JString "heart".
Proof.
  assert (InSync started) as Hsync.
  { unfold InSync, started. cbn. repeat split. intros s Hs. discriminate. }
  split; [exact Hsync|].
  destruct (mode_follows_confirmed_gesture (fun _ => 0%R)
              [Some [fistHand]; Some [fistHand]; None;
               Some [fistHand]; Some [fistHand]; Some [fistHand]]
              started Hsync) as ((_ & Hsame & Hmode) & Hdet & _).
  apply (Hmode fist). rewrite Hsame, Hdet.
  vm_compute. reflexivity.
Defined.

(** The palm centre that [hand-tracking.js] reports, scaled to
    [[-1, 1]]. *)
Definition palmPosition (lm : list Point) : float * float :=
  let w := pointAt lm 0 in
  let a := pointAt lm 5 in
  let b := pointAt lm 9 in
  let c := pointAt lm 13 in
  let d := pointAt lm 17 in
  (((0 + pt_x w + pt_x a + pt_x b + pt_x c + pt_x d) / 5 - 0.5) * 2,
   ((0 + pt_y w + pt_y a + pt_y b + pt_y c + pt_y d) / 5 - 0.5) * 2)%float.

Lemma getPalmCenter2D_spec (lm : list Point) (log : list nat) :
  (18 <= length lm)%nat ->
  exists log',
    getPalmCenter2D lm log
    = (Returned
         (let w := pointAt lm 0 in
          let a := pointAt lm 5 in
          let b := pointAt lm 9 in
          let c := pointAt lm 13 in
          let d := pointAt lm 17 in
          ((0 + pt_x w + pt_x a + pt_x b + pt_x c + pt_x d) / 5,
           (0 + pt_y w + pt_y a + pt_y b + pt_y c + pt_y d) / 5)%float),
       log').
Proof.
  intro Hlen. cbv [getPalmCenter2D bind ret].
  repeat (rewrite landmarkAt_pointAt by lia; cbv beta iota).
  eexists. reflexivity.
Qed.

Lemma getPalmCenter2D_short (lm : list Point) (log : list nat) :
  (length lm < 18)%nat ->
  exists e log', getPalmCenter2D lm log = (Thrown e, log').
Proof.
  intro Hlen. cbv [getPalmCenter2D bind ret landmarkAt].
  destruct (lm !! 0%nat); [|eauto].
  destruct (lm !! 5%nat); [|eauto].
  destruct (lm !! 9%nat); [|eauto].
  destruct (lm !! 13%nat); [|eauto].
  destruct (lm !! 17%nat) eqn:E; [|eauto].
  apply lookup_lt_Some in E. lia.
Qed.

(** X8: what a frame with a hand calls.  With the position callback set,
    a hand of 18 landmarks or more gets exactly one position call, the
    last call of the frame, with the mean of [x] and of [y] over the
    wrist and the four MCP joints mapped from [[0, 1]] to [[-1, 1]]; it
    comes after the state change, when the frame confirms one.  With
    fewer than 18 landmarks [getPalmCenter] throws: nothing is called,
    and the detector has still counted the frame.  Only the first hand is
    looked at. *)
Theorem detectFrame_reports_the_palm
    (lm : list Point) (hands : list (list Point)) (tr : Tracker) :
  onHandPositionCallback tr = true ->
  detectFrame (Some (lm :: hands)) tr = detectFrame (Some [lm]) tr
  /\ gestureDetector (fst (detectFrame (Some (lm :: hands)) tr))
     = fst (updateRaw (gestureDetector tr) (classify (Some lm)))
  /\ ((18 <= length lm)%nat ->
      exists stateCalls,
        snd (detectFrame (Some (lm :: hands)) tr)
        = stateCalls
            ++ [HandPosition (fst (palmPosition lm)) (snd (palmPosition lm))]
        /\ (stateCalls = []
            \/ exists s,
                 stateCalls = [HandStateChange s]
                 /\ snd (updateRaw (gestureDetector tr) (classify (Some lm)))
                    = Some s))
  /\ ((length lm < 18)%nat ->
      snd (detectFrame (Some (lm :: hands)) tr) = []).
Proof.
  intro Hcb. split; [reflexivity|].
  cbn [detectFrame]. rewrite Hcb.
  pose proof (update_classify (gestureDetector tr) (Some lm) []) as Hup.
  destruct (update (gestureDetector tr) (Some lm) []) as [o log'].
  cbn [fst] in Hup. subst o.
  destruct (updateRaw (gestureDetector tr) (classify (Some lm)))
    as [d' out] eqn:Eraw.
  cbn [fst snd]. split; [|split].
  - now destruct (getPalmCenter2D lm []) as [[[x y]|e] log2].
  - intro Hlen.
    destruct (getPalmCenter2D_spec lm [] Hlen) as [log2 ->].
    cbv zeta. cbn [snd fst palmPosition].
    eexists. split; [reflexivity|].
    destruct out as [s|]; [|now left].
    destruct (onHandStateChangeCallback tr); [|now left].
    right. eauto.
  - intro Hlen.
    destruct (getPalmCenter2D_short lm [] Hlen) as (e & log2 & ->).
    cbn [snd].
    assert (classify (Some lm) = None) as Hnone.
    { unfold classify.
      now destruct (Nat.ltb_spec (length lm) 21) as [_|Hge]; [|lia]. }
    rewrite Hnone, updateRaw_unknown in Eraw. now injection Eraw as <- <-.
Qed.

(** X8, witness: the open hand on the tracker as [startHandTracking]
    leaves it: one call, the position. *)
Lemma detectFrame_open_hand_example :
  snd (detectFrame (Some [openHand]) startHandTracking)
  = [HandPosition (fst (palmPosition openHand))
                  (snd (palmPosition openHand))].
Proof.
  destruct (detectFrame_reports_the_palm openHand [] startHandTracking
              eq_refl) as (_ & _ & Hcalls & _).
  destruct (Hcalls ltac:(simpl; lia)) as (sc & -> & [->|(s & -> & Hs)]);
    [reflexivity|].
  vm_compute in Hs. discriminate Hs.
Defined.

End AppFacts.

(** ** The fallback listeners *)

Module FallbackFacts.

Import Particles App Fallback GeneratorFacts DebounceExtras.

Local Open Scope R_scope.

(** The mode that goes with the toggle. *)
Definition modeOfToggle (b : bool) : jsval :=
  if b then JString "heart" else JString "space".

(** The particle mode is the one of the toggle. *)
Definition Toggled (st : Handlers) : Prop :=
  getMode (engine (page st)) = modeOfToggle (isHeartMode st).

Lemma toggle_spec (st : Handlers) :
  isHeartMode (toggle st) = negb (isHeartMode st)
  /\ Toggled (toggle st)
  /\ heap (engine (page (toggle st))) = heap (engine (page st))
  /\ currentGestureState (page (toggle st)) = currentGestureState (page st)
  /\ lastMouseX (toggle st) = lastMouseX st
  /\ lastMouseY (toggle st) = lastMouseY st
  /\ touchStartX (toggle st) = touchStartX st
  /\ touchStartY (toggle st) = touchStartY st.
Proof.
  unfold Toggled, toggle. cbv zeta.
  destruct (isHeartMode st); cbn; repeat split.
Qed.

Section Window.

Variables innerWidth innerHeight : R.

Lemma listener_Toggled (e : Event) (st : Handlers) :
  Toggled st ->
  Toggled (listener innerWidth innerHeight e st)
  /\ heap (engine (page (listener innerWidth innerHeight e st)))
     = heap (engine (page st))
  /\ currentGestureState (page (listener innerWidth innerHeight e st))
     = currentGestureState (page st).
Proof.
  intro HT. destruct (toggle_spec st) as (_ & HT' & Hh & Hg & _).
  destruct e as [x y|x y|x y| |ts|ts|ts]; cbn [listener].
  - destruct (gtb (Rabs (x - lastMouseX st)) 5
              || gtb (Rabs (y - lastMouseY st)) 5); auto.
  - auto.
  - destruct (negb (isDragging st)); auto.
  - auto.
  - destruct ts as [|[x y] [|? ?]]; auto.
  - destruct ts as [|[x y] [|? ?]]; auto.
  - destruct ts as [|[x y] [|? ?]]; auto.
    destruct (ltb (Rabs (x - touchStartX st)) 10
              && ltb (Rabs (y - touchStartY st)) 10); auto.
Qed.

Lemma listeners_app (es es' : list Event) (st : Handlers) :
  listeners innerWidth innerHeight (es ++ es') st
  = listeners innerWidth innerHeight es'
      (listeners innerWidth innerHeight es st).
Proof. unfold listeners. apply fold_left_app. Qed.

Lemma listeners_cons (e : Event) (es : list Event) (st : Handlers) :
  listeners innerWidth innerHeight (e :: es) st
  = listeners innerWidth innerHeight es
      (listener innerWidth innerHeight e st).
Proof. reflexivity. Qed.

Lemma near_self (x : R) (d : R) : 0 < d -> ltb (Rabs (x - x)) d = true.
Proof.
  intro Hd. apply ltb_true.
  replace (x - x) with 0 by lra. rewrite Rabs_R0. exact Hd.
Qed.

(** The mouse position that the listeners remember after a drag along
    [path] that started at [p0]. *)
Lemma drag_remembers_the_end (path : list (R * R)) :
  forall (p0 : R * R) (st : Handlers),
    isDragging st = true ->
    lastMouseX st = fst p0 -> lastMouseY st = snd p0 ->
    let st' :=
      listeners innerWidth innerHeight
        (map (fun p => mousemove (fst p) (snd p)) path) st in
    isDragging st' = true
    /\ lastMouseX st' = fst (List.last path p0)
    /\ lastMouseY st' = snd (List.last path p0)
    /\ isHeartMode st' = isHeartMode st.
Proof.
  induction path as [|p path IH]; intros p0 st Hd Hx Hy; [cbn; auto|].
  cbv zeta. cbn [map]. rewrite listeners_cons.
  set (st1 := listener innerWidth innerHeight (mousemove (fst p) (snd p)) st).
  assert (isDragging st1 = true /\ lastMouseX st1 = fst p
          /\ lastMouseY st1 = snd p
          /\ isHeartMode st1 = isHeartMode st) as (Hd1 & Hx1 & Hy1 & Hm1).
  { subst st1. cbn [listener]. rewrite Hd. cbn. auto. }
  destruct (IH p st1 Hd1 Hx1 Hy1) as (H1 & H2 & H3 & H4).
  rewrite last_cons_default.
  split; [exact H1|]. split; [exact H2|]. split; [exact H3|]. congruence.
Qed.

(** The same for a one-finger move. *)
Lemma touch_remembers_the_end (path : list (R * R)) :
  forall (p0 : R * R) (st : Handlers),
    touchStartX st = fst p0 -> touchStartY st = snd p0 ->
    let st' :=
      listeners innerWidth innerHeight
        (map (fun p => touchmove [p]) path) st in
    touchStartX st' = fst (List.last path p0)
    /\ touchStartY st' = snd (List.last path p0)
    /\ isHeartMode st' = isHeartMode st.
Proof.
  induction path as [|p path IH]; intros p0 st Hx Hy; [cbn; auto|].
  cbv zeta. cbn [map]. rewrite listeners_cons.
  set (st1 := listener innerWidth innerHeight (touchmove [p]) st).
  assert (touchStartX st1 = fst p /\ touchStartY st1 = snd p
          /\ isHeartMode st1 = isHeartMode st) as (Hx1 & Hy1 & Hm1).
  { subst st1. destruct p as [x y]. cbn. auto. }
  destruct (IH p st1 Hx1 Hy1) as (H2 & H3 & H4).
  rewrite last_cons_default.
  split; [exact H2|]. split; [exact H3|]. congruence.
Qed.

End Window.

(** X9: with the fallback listeners, the particle mode is the one of
    the toggle [isHeartMode] after every event, starting from
    [setupFallbackInteraction] on a page in mode ['space']; no event
    touches the particle arrays or the gesture state. *)
Theorem fallback_mode_is_the_toggle
    (innerWidth innerHeight : R) (es : list Event) (st : Handlers) :
  Toggled st ->
  Toggled (listeners innerWidth innerHeight es st)
  /\ heap (engine (page (listeners innerWidth innerHeight es st)))
     = heap (engine (page st))
  /\ currentGestureState (page (listeners innerWidth innerHeight es st))
     = currentGestureState (page st).
Proof.
  revert st. induction es as [|e es IH]; intros st HT; [auto|].
  rewrite listeners_cons.
  destruct (listener_Toggled innerWidth innerHeight e st HT)
    as (HT1 & Hh1 & Hg1).
  destruct (IH _ HT1) as (HT' & Hh' & Hg').
  split; [exact HT'|]. split; congruence.
Qed.

(** X9, witness: the page as [init] leaves it when tracking fails, and
    a click, a drag and a tap. *)
Lemma fallback_mode_is_the_toggle_example :
  getMode
    (engine
       (page
          (listeners 800 600
             [click 0 0; mousedown 10 10; mousemove 300 10; mouseup;
              touchstart [(5, 5)]; touchend [(5, 5)]]
             (setupFallbackInteraction
                (mkMain None (setMode (JString "space") initialEngine) [])))))
  = modeOfToggle
      (isHeartMode
         (listeners 800 600
            [click 0 0; mousedown 10 10; mousemove 300 10; mouseup;
             touchstart [(5, 5)]; touchend [(5, 5)]]
            (setupFallbackInteraction
               (mkMain None (setMode (JString "space") initialEngine) [])))).
Proof.
  apply (fallback_mode_is_the_toggle 800 600). reflexivity.
Defined.

(** X10: the guard of the [click] listener does not tell a drag from a
    click.  The [mousemove] listener stores every position of a drag in
    [lastMouseX] and [lastMouseY], so the click that ends a drag, at the
    position of its last move, is within 5 of the stored position and
    toggles the mode, however far the drag went; a one-finger move ends
    the same way.  A click more than 5 away from the stored position
    changes nothing. *)
Theorem fallback_drag_toggles_the_mode
    (innerWidth innerHeight : R) (st : Handlers) (p0 : R * R)
    (path : list (R * R)) :
  let pEnd := List.last path p0 in
  isHeartMode
    (listeners innerWidth innerHeight
       ([mousedown (fst p0) (snd p0)]
          ++ map (fun p => mousemove (fst p) (snd p)) path
          ++ [mouseup; click (fst pEnd) (snd pEnd)]) st)
  = negb (isHeartMode st)
  /\ isHeartMode
       (listeners innerWidth innerHeight
          ([touchstart [p0]] ++ map (fun p => touchmove [p]) path
             ++ [touchend [pEnd]]) st)
     = negb (isHeartMode st)
  /\ forall x y,
       5 < Rabs (x - lastMouseX st) \/ 5 < Rabs (y - lastMouseY st) ->
       listener innerWidth innerHeight (click x y) st = st.
Proof.
  cbv zeta. split; [|split].
  - rewrite listeners_app, listeners_cons, listeners_app.
    change (listeners innerWidth innerHeight [] ?s) with s.
    set (st0 := listener innerWidth innerHeight
                  (mousedown (fst p0) (snd p0)) st).
    destruct (drag_remembers_the_end innerWidth innerHeight path p0 st0
                eq_refl eq_refl eq_refl) as (_ & Hx & Hy & Hm).
    set (st1 := listeners innerWidth innerHeight
                  (map (fun p => mousemove (fst p) (snd p)) path) st0) in *.
    rewrite !listeners_cons.
    change (listeners innerWidth innerHeight [] ?s) with s.
    cbn [listener lastMouseX lastMouseY]. rewrite Hx, Hy.
    unfold gtb.
    assert (forall v, ltb 5 (Rabs (v - v)) = false) as Hnear.
    { intro v. apply ltb_false. replace (v - v) with 0 by lra.
      rewrite Rabs_R0. lra. }
    rewrite !Hnear. cbn [orb].
    match goal with
    | |- isHeartMode (toggle ?s) = _ =>
      destruct (toggle_spec s) as (-> & _)
    end.
    cbn [isHeartMode]. now rewrite Hm.
  - rewrite listeners_app, listeners_cons, listeners_app.
    change (listeners innerWidth innerHeight [] ?s) with s.
    set (st0 := listener innerWidth innerHeight (touchstart [p0]) st).
    assert (touchStartX st0 = fst p0 /\ touchStartY st0 = snd p0
            /\ isHeartMode st0 = isHeartMode st) as (Hx0 & Hy0 & Hm0)
      by (subst st0; destruct p0; cbn; auto).
    destruct (touch_remembers_the_end innerWidth innerHeight path p0 st0
                Hx0 Hy0) as (Hx & Hy & Hm).
    set (st1 := listeners innerWidth innerHeight
                  (map (fun p => touchmove [p]) path) st0) in *.
    rewrite listeners_cons.
    change (listeners innerWidth innerHeight [] ?s) with s.
    destruct (List.last path p0) as [x y] eqn:E. cbn [fst snd] in *.
    cbn [listener]. rewrite Hx, Hy.
    rewrite !near_self by lra. cbn [andb].
    destruct (toggle_spec st1) as (-> & _). congruence.
  - intros x y Hfar. cbn [listener]. unfold gtb.
    destruct Hfar as [H|H]; apply ltb_true in H; rewrite H;
      [reflexivity | now rewrite orb_true_r].
Qed.

End FallbackFacts.

(** ** The generators: where the points are *)

Module GeneratorExtras.

Import Particles GeneratorFacts.

Local Open Scope R_scope.

(** *** The size of the heart *)

(** The outline [(sin^3 u, heartY(u) / 17)] and its radius. *)
Lemma outline_bounds (u : R) :
  let nx := 16 * sin u ^ 3 / 16 in
  let ny :=
    (13 * cos u - 5 * cos (2 * u) - 2 * cos (3 * u) - cos (4 * u)) / 17 in
  (-1 <= nx <= 1) /\ (- (21 / 17) <= ny <= 21 / 17)
  /\ 0 <= nx * nx + ny * ny <= 1.59 * 1.59.
Proof.
  intros nx ny.
  pose proof (SIN_bound u) as Hs.
  pose proof (COS_bound u) as H1. pose proof (COS_bound (2 * u)) as H2.
  pose proof (COS_bound (3 * u)) as H3. pose proof (COS_bound (4 * u)) as H4.
  assert (-1 <= nx <= 1) as Hnx.
  { subst nx. set (s := sin u) in *.
    assert (0 <= s * s <= 1) by nra.
    replace (16 * s ^ 3 / 16) with (s * (s * s)) by (simpl; field). nra. }
  assert (- (21 / 17) <= ny <= 21 / 17) as Hny by (subst ny; lra).
  repeat split; try lra; nra.
Qed.

(** A candidate before scaling lies in a fixed box. *)
Definition boxed (c : R * R * R) : Prop :=
  let '(x, y, z) := c in
  Rabs x <= 1.025 /\ Rabs y <= 1.27 /\ Rabs z <= 1.13.

Lemma surfaceCandidate_boxed (random : nat -> R) (k : nat) :
  (forall n, 0 <= random n < 1) ->
  boxed (fst (surfaceCandidate random k)).
Proof.
  intro Hrand.
  unfold surfaceCandidate, gbind, Math_random, gret. cbv zeta. cbn [fst].
  destruct (outline_bounds (random k * PI * 2)) as (Hnx & Hny & Hr).
  cbv zeta in Hnx, Hny, Hr.
  set (nx := 16 * sin (random k * PI * 2) ^ 3 / 16) in *.
  set (ny := (13 * cos (random k * PI * 2)
              - 5 * cos (2 * (random k * PI * 2))
              - 2 * cos (3 * (random k * PI * 2))
              - cos (4 * (random k * PI * 2))) / 17) in *.
  pose proof (SIN_bound (random (S k) * PI)) as Hsv.
  pose proof (COS_bound (random (S k) * PI)) as Hcv.
  set (sv := sin (random (S k) * PI)) in *.
  set (cv := cos (random (S k) * PI)) in *.
  pose proof (Hrand (S (S k))) as Hn1.
  pose proof (Hrand (S (S (S k)))) as Hn2.
  pose proof (Hrand (S (S (S (S k))))) as Hn3.
  assert (0 <= sqrt (nx * nx + ny * ny) <= 1.59) as Hhr.
  { split; [apply sqrt_pos|].
    rewrite <- (sqrt_square 1.59) by lra. apply sqrt_le_1_alt. lra. }
  set (hr := sqrt (nx * nx + ny * ny)) in *.
  unfold boxed. repeat split; apply Rabs_le; nra.
Qed.

Lemma interiorCandidate_boxed (random : nat -> R) (k : nat) :
  (forall n, 0 <= random n < 1) ->
  boxed (fst (interiorCandidate random k)).
Proof.
  intro Hrand.
  unfold interiorCandidate, gbind, Math_random, gret. cbv zeta. cbn [fst].
  destruct (outline_bounds (random k * PI * 2)) as (Hnx & Hny & Hr).
  cbv zeta in Hnx, Hny, Hr.
  set (a := 16 * sin (random k * PI * 2) ^ 3 / 16) in *.
  set (b := (13 * cos (random k * PI * 2)
             - 5 * cos (2 * (random k * PI * 2))
             - 2 * cos (3 * (random k * PI * 2))
             - cos (4 * (random k * PI * 2))) / 17) in *.
  pose proof (Hrand (S k)) as Hr2. pose proof (Hrand (S (S k))) as Hr3.
  assert (0 <= sqrt (random (S k)) <= 1) as Hf.
  { split; [apply sqrt_pos|].
    rewrite <- sqrt_1. apply sqrt_le_1_alt. lra. }
  set (f := sqrt (random (S k)) * 0.85).
  assert (0 <= f <= 0.85) as Hf' by (subst f; lra).
  assert (-0.85 <= a * f <= 0.85) as Hnx' by nra.
  assert (-1.05 <= b * f <= 1.05) as Hny' by nra.
  assert (0 <= sqrt (a * f * (a * f) + b * f * (b * f)) <= 1.3515) as Hhr.
  { split; [apply sqrt_pos|].
    rewrite <- (sqrt_square 1.3515) by lra. apply sqrt_le_1_alt.
    replace (a * f * (a * f) + b * f * (b * f))
      with ((a * a + b * b) * (f * f)) by ring.
    assert (0 <= f * f <= 0.85 * 0.85) by nra. nra. }
  set (hr := sqrt (a * f * (a * f) + b * f * (b * f))) in *.
  unfold boxed. repeat split; apply Rabs_le; nra.
Qed.


Lemma Rabs_le_between (x b : R) : Rabs x <= b -> - b <= x <= b.
Proof. unfold Rabs. destruct (Rcase_abs x); lra. Qed.

Lemma scaled_boxed (c : R * R * R) :
  boxed c ->
  let '(X, Y, Z) := scaled c in
  Rabs X <= 4 /\ Rabs Y <= 4.2 /\ Rabs Z <= 3.1.
Proof.
  destruct c as [[x y] z]. unfold boxed, scaled.
  unfold HEART_SCALE_X, HEART_SCALE_Y, HEART_SCALE_Z, HEART_SIZE.
  intros (Hx & Hy & Hz).
  apply Rabs_le_between in Hx, Hy, Hz.
  repeat split; apply Rabs_le; lra.
Qed.

(** Every point of a returned heart is a scaled candidate of the box. *)
Lemma generateHeartPoints_boxed (random : nat -> R) (fuel count k : nat)
    (pts : list R) :
  (forall n, 0 <= random n < 1) ->
  fst (generateHeartPoints random fuel count k) = Some pts ->
  length pts = (count * 3)%nat
  /\ forall i, (i < count)%nat ->
       exists c, boxed c /\ pointOf pts i = Some (scaled c).
Proof.
  intros Hrand Hres. rewrite generateHeartPoints_unfold in Hres.
  destruct (heartLoop_filtered random fuel count (floor_0_7 count) 0
              (replicate (count * 3) 0) k pts Hres) as [Hlen Hall];
    [now rewrite length_replicate | lia | intros j Hj; lia |].
  split; [exact Hlen|]. intros i Hi.
  destruct (Hall i Hi) as (k' & x & y & z & Hc & _ & Hp).
  exists (x, y, z). split; [|exact Hp].
  rewrite <- Hc. unfold candidate.
  destruct (i <? floor_0_7 count)%nat.
  - now apply surfaceCandidate_boxed.
  - now apply interiorCandidate_boxed.
Qed.

(** X11: with samples in [[0, 1)], every point of a returned heart lies
    in the box [|X| <= 4], [|Y| <= 4.2], [|Z| <= 3.1], hence within 6.6
    of the origin and inside the sphere of the starfield. *)
Theorem generateHeartPoints_fits_in_a_box
    (random : nat -> R) (fuel count k : nat) (pts : list R) :
  (forall n, 0 <= random n < 1) ->
  fst (generateHeartPoints random fuel count k) = Some pts ->
  forall i, (i < count)%nat ->
    exists X Y Z,
      pointOf pts i = Some (X, Y, Z)
      /\ Rabs X <= 4 /\ Rabs Y <= 4.2 /\ Rabs Z <= 3.1
      /\ sqrt (X * X + Y * Y + Z * Z) <= 6.6
      /\ sqrt (X * X + Y * Y + Z * Z) < SPACE_RADIUS.
Proof.
  intros Hrand Hres i Hi.
  destruct (generateHeartPoints_boxed random fuel count k pts Hrand Hres)
    as [_ Hall].
  destruct (Hall i Hi) as (c & Hc & Hp).
  pose proof (scaled_boxed c Hc) as Hbox.
  destruct (scaled c) as [[X Y] Z]. destruct Hbox as (HX & HY & HZ).
  exists X, Y, Z. repeat (split; [assumption|]).
  assert (sqrt (X * X + Y * Y + Z * Z) <= 6.6) as Hn.
  { rewrite <- (sqrt_square 6.6) by lra. apply sqrt_le_1_alt.
    apply Rabs_le_between in HX, HY, HZ. nra. }
  split; [exact Hn | unfold SPACE_RADIUS; lra].
Qed.

(** X11, witness: the constant sample 0 and ten points. *)
Lemma generateHeartPoints_box_example :
  exists pts,
    fst (generateHeartPoints (fun _ => 0) 10 10 0%nat) = Some pts
    /\ exists X Y Z,
         pointOf pts 3 = Some (X, Y, Z)
         /\ Rabs X <= 4 /\ Rabs Y <= 4.2 /\ Rabs Z <= 3.1.
Proof.
  destruct (heartLoop_no_skip (fun _ => 0) 10 ltac:(intro; lra)
              10%nat (floor_0_7 10) 0%nat (replicate (10 * 3) 0) 0%nat
              ltac:(lia)) as [pts Hpts].
  exists pts. split; [exact Hpts|].
  destruct (generateHeartPoints_fits_in_a_box (fun _ => 0) 10 10 0%nat pts
              ltac:(intro; lra) Hpts 3%nat ltac:(lia))
    as (X & Y & Z & Hp & HX & HY & HZ & _).
  exists X, Y, Z. auto.
Defined.

(** *** The points of the heart, draw by draw *)

(** X19: a returned heart is the run of its loop written out.  Slot by
    slot, from the draw at which the slot before it was accepted (from the
    first draw for slot 0), the loop makes refused attempts and then one
    accepted attempt, at draw [start i]; point [i] is the scaled candidate
    of that attempt, a surface candidate below [floor(0.7 count)] and an
    interior one from there on; every attempt uses at least three draws;
    and the draws made in all are those up to the end of the last accepted
    attempt.  An attempt is refused exactly when its candidate has both
    [|x|] and [|z|] below the threshold and the draw that follows is above
    0.08.  So no point is written except from an accepted attempt of its
    own slot. *)
Theorem generateHeartPoints_writes_the_accepted_attempts
    (random : nat -> R) (fuel count k : nat) (pts : list R) :
  fst (generateHeartPoints random fuel count k) = Some pts ->
  exists start : nat -> nat,
    (forall i, (i < count)%nat ->
       Refused random (floor_0_7 count) i
         (match i with
          | O => k
          | S j => drawsAfter random (floor_0_7 count) j (start j)
          end)
         (start i)
       /\ refusedAt random (floor_0_7 count) i (start i) = false
       /\ pointOf pts i
          = Some (scaled
                    (fst (candidate random (floor_0_7 count) i (start i))))
       /\ (start i + 3 <= drawsAfter random (floor_0_7 count) i (start i))%nat)
    /\ snd (generateHeartPoints random fuel count k)
       = match count with
         | O => k
         | S j => drawsAfter random (floor_0_7 count) j (start j)
         end
    /\ length pts = (count * 3)%nat
    /\ forall generated k',
         refusedAt random (floor_0_7 count) generated k' = true
         <-> (let '(x, _, z) :=
                fst (candidate random (floor_0_7 count) generated k') in
              Rabs x < CENTER_LINE_AVOID /\ Rabs z < CENTER_LINE_AVOID
              /\ 0.08 < random
                          (snd (candidate random (floor_0_7 count)
                                  generated k'))).
Proof.
  intro Hres. rewrite generateHeartPoints_unfold in *.
  destruct (heartLoop random fuel count (floor_0_7 count) 0
              (replicate (count * 3) 0) k) as [o kend] eqn:Erun.
  cbn [fst snd] in *. subst o.
  destruct (heartLoop_trace random fuel count (floor_0_7 count) 0%nat
              (replicate (count * 3) 0) k pts kend Erun)
    as (start & Hall & _ & Hend & Hlen).
  { now rewrite length_replicate. }
  { lia. }
  exists start. split; [|split; [|split]].
  - intros i Hi. destruct (Hall i ltac:(lia)) as (Href & Hacc & Hp).
    split; [|split; [exact Hacc|split; [exact Hp|apply drawsAfter_lt]]].
    destruct i as [|j]; [exact Href|].
    cbn [Nat.eqb] in Href.
    now replace (S j - 1)%nat with j in Href by lia.
  - rewrite Hend. destruct count as [|j]; [reflexivity|].
    destruct (Nat.ltb_spec 0 (S j)) as [_|?]; [|lia].
    now replace (S j - 1)%nat with j by lia.
  - exact Hlen.
  - intros generated k'. apply refusedAt_true.
Qed.

(** X19, witness: with every sample equal to 1/4 the loop ends, and the
    last of ten points is the candidate of an accepted attempt. *)
Lemma generateHeartPoints_accepted_attempts_example :
  exists fuel pts start,
    fst (generateHeartPoints (fun _ => / 4) fuel 10 0%nat) = Some pts
    /\ refusedAt (fun _ => / 4) (floor_0_7 10) 9 (start 9%nat) = false
    /\ pointOf pts 9
       = Some (scaled
                 (fst (candidate (fun _ => / 4) (floor_0_7 10) 9
                         (start 9%nat)))).
Proof.
  destruct (generateHeartPoints_ends (fun _ => / 4) 10 0%nat
              quarter_EventuallyAccepted) as (fuel & pts & Hres & _).
  destruct (generateHeartPoints_writes_the_accepted_attempts
              (fun _ => / 4) fuel 10 0%nat pts Hres)
    as (start & Hall & _).
  destruct (Hall 9%nat ltac:(lia)) as (_ & Hacc & Hp & _).
  exists fuel, pts, start. auto.
Defined.

(** *** The starfield, coordinate by coordinate *)

Lemma starPoint_height (random : nat -> R) (radius : R) (k : nat) :
  0 <= random (k + 1)%nat <= 1 ->
  let '(x, y, z) := starPoint random radius k in
  let r := radius * Math_cbrt (random (k + 2)%nat) in
  let t := 2 * random (k + 1)%nat - 1 in
  z = r * t /\ x * x + y * y = r * r * (1 - t * t).
Proof.
  intro Hu. unfold starPoint. cbv zeta.
  rewrite cos_acos by lra.
  set (r := radius * Math_cbrt (random (k + 2)%nat)).
  set (t := 2 * random (k + 1)%nat - 1).
  split; [reflexivity|].
  pose proof (sin2_cos2 (acos t)) as Hp.
  pose proof (sin2_cos2 (random k * PI * 2)) as Ht.
  unfold Rsqr in Hp, Ht. rewrite cos_acos in Hp by (subst t; lra).
  set (sp := sin (acos t)) in *.
  set (st := sin (random k * PI * 2)) in *.
  set (ct := cos (random k * PI * 2)) in *.
  replace (r * sp * ct * (r * sp * ct) + r * sp * st * (r * sp * st))
    with (r * r * (sp * sp) * (st * st + ct * ct)) by ring.
  rewrite Ht. replace (sp * sp) with (1 - t * t) by lra. ring.
Qed.

Lemma coordinate_le_norm (x y z : R) :
  Rabs x <= sqrt (x * x + y * y + z * z)
  /\ Rabs y <= sqrt (x * x + y * y + z * z)
  /\ Rabs z <= sqrt (x * x + y * y + z * z).
Proof.
  pose proof (Rle_0_sqr x) as Hx. pose proof (Rle_0_sqr y) as Hy.
  pose proof (Rle_0_sqr z) as Hz. unfold Rsqr in *.
  repeat split.
  - rewrite <- (sqrt_Rsqr_abs x). apply sqrt_le_1_alt. unfold Rsqr. lra.
  - rewrite <- (sqrt_Rsqr_abs y). apply sqrt_le_1_alt. unfold Rsqr. lra.
  - rewrite <- (sqrt_Rsqr_abs z). apply sqrt_le_1_alt. unfold Rsqr. lra.
Qed.

(** X12: [generateSpacePoints(count, radius)] makes exactly [3 * count]
    calls of [Math.random()], three per point, and with samples in
    [[0, 1)] the third coordinate of point [i] is
    [radius * cbrt(r3) * (2 * r2 - 1)], linear in its second sample, while
    [x^2 + y^2] is the rest of the squared radius; every coordinate is at
    most [radius] in absolute value. *)
Theorem generateSpacePoints_height_is_linear_in_the_sample
    (random : nat -> R) (count : nat) (radius : R) (k : nat) :
  0 <= radius ->
  (forall n, 0 <= random n < 1) ->
  snd (generateSpacePoints random count radius k) = (k + 3 * count)%nat
  /\ forall i, (i < count)%nat ->
       exists x y z,
         pointOf (fst (generateSpacePoints random count radius k)) i
         = Some (x, y, z)
         /\ (let r := radius * Math_cbrt (random (k + 3 * i + 2)%nat) in
             let t := 2 * random (k + 3 * i + 1)%nat - 1 in
             z = r * t /\ x * x + y * y = r * r * (1 - t * t))
         /\ Rabs x <= radius /\ Rabs y <= radius /\ Rabs z <= radius.
Proof.
  intros Hr Hrand.
  destruct (generateSpacePoints_points random radius count k)
    as (Hk & _ & Hpts).
  split; [exact Hk|]. intros i Hi. rewrite (Hpts i Hi).
  pose proof (starPoint_height random radius (k + 3 * i)
                ltac:(specialize (Hrand (k + 3 * i + 1)%nat); lra)) as Hh.
  pose proof (starPoint_norm random radius (k + 3 * i) Hr (Hrand _)) as Hn.
  destruct (starPoint random radius (k + 3 * i)) as [[x y] z].
  exists x, y, z. split; [reflexivity|]. split; [exact Hh|].
  destruct Hn as [_ Hn].
  destruct (coordinate_le_norm x y z) as (Hx & Hy & Hz).
  repeat split; lra.
Qed.

(** X12, witness: radius 15 and the constant sample 0, for which every
    point is the origin. *)
Lemma generateSpacePoints_height_example :
  snd (generateSpacePoints (fun _ => 0) 2 15 0%nat) = 6%nat
  /\ exists x y z,
       pointOf (fst (generateSpacePoints (fun _ => 0) 2 15 0%nat)) 1
       = Some (x, y, z)
       /\ z = 15 * Math_cbrt 0 * (2 * 0 - 1).
Proof.
  destruct (generateSpacePoints_height_is_linear_in_the_sample
              (fun _ => 0) 2 15 0%nat ltac:(lra) ltac:(intro; lra))
    as [Hk Hall].
  split; [exact Hk|].
  destruct (Hall 1%nat ltac:(lia)) as (x & y & z & Hp & [Hz _] & _).
  exists x, y, z. split; [exact Hp | exact Hz].
Defined.

(** A bound on the points of a flat array is a bound on its entries. *)
Lemma flat_bound (B : R) (n : nat) (pts : list R) :
  length pts = (n * 3)%nat ->
  (forall i, (i < n)%nat ->
     exists x y z, pointOf pts i = Some (x, y, z)
                   /\ Rabs x <= B /\ Rabs y <= B /\ Rabs z <= B) ->
  forall c v, pts !! c = Some v -> Rabs v <= B.
Proof.
  intros Hlen Hall c v Hv.
  pose proof (lookup_lt_Some _ _ _ Hv) as Hc. rewrite Hlen in Hc.
  pose proof (Nat.div_mod_eq c 3) as Hdm.
  pose proof (Nat.mod_upper_bound c 3 ltac:(lia)) as Hm.
  destruct (Hall (c / 3)%nat ltac:(lia)) as (x & y & z & Hp & Hx & Hy & Hz).
  unfold pointOf in Hp.
  destruct (pts !! (c / 3 * 3)%nat) as [x'|] eqn:E0; [|discriminate].
  destruct (pts !! (c / 3 * 3 + 1)%nat) as [y'|] eqn:E1; [|discriminate].
  destruct (pts !! (c / 3 * 3 + 2)%nat) as [z'|] eqn:E2; [|discriminate].
  injection Hp as -> -> ->.
  assert (c = (c / 3 * 3)%nat \/ c = (c / 3 * 3 + 1)%nat
          \/ c = (c / 3 * 3 + 2)%nat) as [Hc0|[Hc1|Hc2]] by lia.
  - rewrite <- Hc0 in E0. congruence.
  - rewrite <- Hc1 in E1. congruence.
  - rewrite <- Hc2 in E2. congruence.
Qed.

End GeneratorExtras.

(** ** Colours and sizes *)

Module PaletteFacts.

Import Particles GeneratorFacts Palette.

Local Open Scope R_scope.

(** *** [hslToRgb] *)

Lemma ltb_cases (a b : R) :
  (ltb a b = true /\ a < b) \/ (ltb a b = false /\ b <= a).
Proof.
  destruct (ltb a b) eqn:E.
  - left. split; [reflexivity | now apply ltb_true].
  - right. split; [reflexivity | now apply ltb_false].
Qed.

Ltac by_ltb a b :=
  let H := fresh "H" in
  destruct (ltb_cases a b) as [[-> H]|[-> H]].

Ltac split_ltb :=
  repeat match goal with
         | |- context [ltb ?a ?b] =>
           lazymatch a with
           | context [ltb _ _] => fail
           | _ => idtac
           end;
           lazymatch b with
           | context [ltb _ _] => fail
           | _ => idtac
           end;
           let H := fresh "H" in
           destruct (ltb_cases a b) as [[-> H]|[-> H]]
         end.

(** [hue2rgb] stays between [p] and [q]. *)
Lemma hue2rgb_between (p q t : R) :
  p <= q -> -1 <= t <= 2 -> p <= hue2rgb p q t <= q.
Proof.
  intros Hpq Ht. unfold hue2rgb, gtb. split_ltb; try lra; nra.
Qed.

(** Of the three hues [h + 1/3], [h] and [h - 1/3], one gives [q] and one
    gives [p]. *)
Lemma hue2rgb_extremes (p q h : R) :
  0 <= h < 1 ->
  (hue2rgb p q (h + 1 / 3) = q \/ hue2rgb p q h = q
   \/ hue2rgb p q (h - 1 / 3) = q)
  /\ (hue2rgb p q (h + 1 / 3) = p \/ hue2rgb p q h = p
      \/ hue2rgb p q (h - 1 / 3) = p).
Proof.
  intro Hh.
  assert (h < 1 / 6 \/ (1 / 6 <= h < 1 / 2) \/ (1 / 2 <= h < 5 / 6)
          \/ 5 / 6 <= h) as [H|[H|[H|H]]] by lra.
  - split.
    + left. unfold hue2rgb, gtb. split_ltb; try lra; reflexivity.
    + right. right. unfold hue2rgb, gtb. split_ltb; try lra; reflexivity.
  - split.
    + right. left. unfold hue2rgb, gtb. split_ltb; try lra; reflexivity.
    + assert (h < 1 / 3 \/ 1 / 3 <= h) as [H'|H'] by lra.
      * right. right. unfold hue2rgb, gtb. split_ltb; try lra; reflexivity.
      * left. unfold hue2rgb, gtb. split_ltb; try lra; reflexivity.
  - split.
    + right. right. unfold hue2rgb, gtb. split_ltb; try lra; reflexivity.
    + assert (h < 2 / 3 \/ 2 / 3 <= h) as [H'|H'] by lra.
      * left. unfold hue2rgb, gtb. split_ltb; try lra; reflexivity.
      * right. left. unfold hue2rgb, gtb. split_ltb; try lra; reflexivity.
  - split.
    + left. unfold hue2rgb, gtb. split_ltb; try lra; reflexivity.
    + right. left. unfold hue2rgb, gtb. split_ltb; try lra; reflexivity.
Qed.

Lemma Rmax3_Rmin3 (p q r g b : R) :
  p <= r <= q -> p <= g <= q -> p <= b <= q ->
  r = q \/ g = q \/ b = q -> r = p \/ g = p \/ b = p ->
  Rmax r (Rmax g b) = q /\ Rmin r (Rmin g b) = p.
Proof.
  intros Hr Hg Hb Hq Hp.
  pose proof (Rmax_l r (Rmax g b)). pose proof (Rmax_r r (Rmax g b)).
  pose proof (Rmax_l g b). pose proof (Rmax_r g b).
  pose proof (Rmin_l r (Rmin g b)). pose proof (Rmin_r r (Rmin g b)).
  pose proof (Rmin_l g b). pose proof (Rmin_r g b).
  assert (Rmax r (Rmax g b) <= q)
    by (apply Rmax_lub; [lra | apply Rmax_lub; lra]).
  assert (p <= Rmin r (Rmin g b))
    by (apply Rmin_glb; [lra | apply Rmin_glb; lra]).
  destruct Hq as [Hq|[Hq|Hq]], Hp as [Hp|[Hp|Hp]]; split; lra.
Qed.

(** The two bounds [p <= q] that [hslToRgb] computes. *)
Definition hslQ (s l : R) : R :=
  if ltb l 0.5 then l * (1 + s) else l + s - l * s.

Lemma hslQ_bounds (s l : R) :
  0 <= s <= 1 -> 0 <= l <= 1 ->
  let q := hslQ s l in
  let p := 2 * l - q in
  0 <= p /\ p <= q /\ q <= 1 /\ q - p = s * (1 - Rabs (2 * l - 1)).
Proof.
  intros Hs Hl. cbv zeta. unfold hslQ, Rabs.
  destruct (Rcase_abs (2 * l - 1)); split_ltb; try lra;
    repeat split; first [nra | ring].
Qed.

(** The largest channel is [q] and the smallest is [p]. *)
Lemma hslToRgb_extremes (h s l : R) :
  0 <= h < 1 -> 0 <= s <= 1 -> 0 <= l <= 1 ->
  let q := hslQ s l in
  let p := 2 * l - q in
  let '(r, g, b) := hslToRgb h s l in
  (p <= r <= q /\ p <= g <= q /\ p <= b <= q)
  /\ Rmax r (Rmax g b) = q /\ Rmin r (Rmin g b) = p.
Proof.
  intros Hh Hs Hl. unfold hslToRgb.
  destruct (hslQ_bounds s l Hs Hl) as (Hp0 & Hpq & Hq1 & Hchroma).
  cbv zeta in *.
  destruct (Req_dec_T s 0) as [Hs0|Hs0].
  - assert (hslQ s l = l) as -> by (subst s; unfold hslQ; split_ltb; lra).
    replace (2 * l - l) with l by lra.
    assert (Rmax l l = l) as Hmax
      by (unfold Rmax; now destruct (Rle_dec l l)).
    assert (Rmin l l = l) as Hmin
      by (unfold Rmin; now destruct (Rle_dec l l)).
    rewrite !Hmax, !Hmin. repeat split; lra.
  - fold (hslQ s l).
    set (q := hslQ s l) in *. set (p := 2 * l - q) in *.
    pose proof (hue2rgb_between p q (h + 1 / 3) Hpq ltac:(lra)) as Hr.
    pose proof (hue2rgb_between p q h Hpq ltac:(lra)) as Hg.
    pose proof (hue2rgb_between p q (h - 1 / 3) Hpq ltac:(lra)) as Hb.
    destruct (hue2rgb_extremes p q h Hh) as [Hmax Hmin].
    destruct (Rmax3_Rmin3 p q _ _ _ Hr Hg Hb Hmax Hmin) as [-> ->].
    repeat split; lra.
Qed.

(** X13: for a hue in [[0, 1)] and a saturation and a lightness in
    [[0, 1]], the three channels of [hslToRgb(h, s, l)] are in [[0, 1]],
    and the colour has the lightness and the chroma asked for: the
    largest and the smallest channel add up to [2 * l] and differ by
    [s * (1 - |2 * l - 1|)].  With [s = 0] the three channels are [l]. *)
Theorem hslToRgb_keeps_lightness_and_chroma (h s l : R) :
  0 <= h < 1 -> 0 <= s <= 1 -> 0 <= l <= 1 ->
  let '(r, g, b) := hslToRgb h s l in
  (0 <= r <= 1 /\ 0 <= g <= 1 /\ 0 <= b <= 1)
  /\ Rmax r (Rmax g b) + Rmin r (Rmin g b) = 2 * l
  /\ Rmax r (Rmax g b) - Rmin r (Rmin g b) = s * (1 - Rabs (2 * l - 1))
  /\ (s = 0 -> r = l /\ g = l /\ b = l).
Proof.
  intros Hh Hs Hl.
  pose proof (hslToRgb_extremes h s l Hh Hs Hl) as Hext.
  destruct (hslQ_bounds s l Hs Hl) as (Hp0 & Hpq & Hq1 & Hchroma).
  cbv zeta in *.
  assert (s = 0 -> hslToRgb h s l = (l, l, l)) as Hgrey.
  { intros ->. unfold hslToRgb. now destruct (Req_dec_T 0 0). }
  destruct (hslToRgb h s l) as [[r g] b].
  destruct Hext as ((Hr & Hg & Hb) & -> & ->).
  split; [repeat split; lra|]. split; [lra|]. split; [lra|].
  intro H0. injection (Hgrey H0) as -> -> ->. auto.
Qed.

(** X13, witness: a pink of [generateColors]. *)
Lemma hslToRgb_pink_example :
  let '(r, g, b) := hslToRgb 0.95 0.5 0.9 in
  0 <= r <= 1
  /\ Rmax r (Rmax g b) + Rmin r (Rmin g b) = 2 * 0.9.
Proof.
  pose proof (hslToRgb_keeps_lightness_and_chroma 0.95 0.5 0.9
                ltac:(lra) ltac:(lra) ltac:(lra)) as H.
  destruct (hslToRgb 0.95 0.5 0.9) as [[r g] b].
  destruct H as ((Hr & _) & Hl & _). split; [exact Hr | exact Hl].
Defined.

(** *** The loops *)




Section Loops.

Variable random : nat -> R.
Hypothesis Hrand : forall n, 0 <= random n < 1.













End Loops.





End PaletteFacts.

(** ** The engine over time *)

Module EngineExtras.

Import Particles GeneratorFacts EngineFacts GeneratorExtras.

Local Open Scope R_scope.




Lemma setRotationFromHand_Ready (normX normY : R) (e : Engine)
    (p ht st : nat) :
  Ready e p ht st ->
  Ready (setRotationFromHand normX normY e) p ht st
  /\ forall c, liveAt (setRotationFromHand normX normY e) c = liveAt e c.
Proof.
  intro HR. unfold Ready, liveAt, setRotationFromHand in *.
  cbn [heap positions heartTargets spaceTargets particleGeometry].
  split; [assumption | reflexivity].
Qed.




(** *** Where the particles can be *)

(** A call from outside or a tick. *)
Inductive Call : Type :=
| Animate
| SetMode (mode : jsval)
| SetRotationFromHand (normX normY : R).

Definition call (c : Call) (e : Engine) : option Engine :=
  match c with
  | Animate => animate e
  | SetMode mode => Some (setMode mode e)
  | SetRotationFromHand normX normY =>
    Some (setRotationFromHand normX normY e)
  end.

Fixpoint calls (cs : list Call) (e : Engine) : option Engine :=
  match cs with
  | [] => Some e
  | c :: cs' => e' ← call c e; calls cs' e'
  end.

(** Every live coordinate and every target coordinate, the heart at the
    top of its beat, is at most [B] in absolute value. *)
Definition Within (B : R) (e : Engine) : Prop :=
  (forall c x, liveAt e c = Some x -> Rabs x <= B)
  /\ (forall c v, readAt (heap e) (heartTargets e) c = Some v ->
                  (1 + HEARTBEAT_AMPLITUDE) * Rabs v <= B)
  /\ (forall c v, readAt (heap e) (spaceTargets e) c = Some v ->
                  Rabs v <= B).

Lemma tickHeartbeat_range (e : Engine) :
  1 - HEARTBEAT_AMPLITUDE <= tickHeartbeat e <= 1 + HEARTBEAT_AMPLITUDE.
Proof.
  unfold tickHeartbeat, HEARTBEAT_AMPLITUDE.
  destruct (strictEqStr (currentMode e) "heart"); [|lra].
  pose proof (SIN_bound ((time e + 0.016) * HEARTBEAT_SPEED)). lra.
Qed.

Lemma tickTarget_within (B : R) (e : Engine) (c : nat) (t : R) :
  Within B e -> tickTarget e c = Some t -> Rabs t <= B.
Proof.
  intros (_ & Hh & Hs). unfold tickTarget.
  destruct (strictEqStr (currentMode e) "heart"); [|apply Hs].
  destruct (readAt (heap e) (heartTargets e) c) as [v|] eqn:E;
    [|discriminate].
  cbn [option_map]. intros [= <-]. specialize (Hh c v E).
  pose proof (tickHeartbeat_range e) as Hb.
  unfold HEARTBEAT_AMPLITUDE in *.
  rewrite Rabs_mult, (Rabs_pos_eq (tickHeartbeat e)) by lra.
  pose proof (Rabs_pos v). nra.
Qed.

Lemma animate_within (B : R) (e : Engine) (p ht st : nat) :
  Ready e p ht st -> Within B e ->
  exists e',
    animate e = Some e' /\ Ready e' p ht st
    /\ heap e' !! ht = heap e !! ht /\ heap e' !! st = heap e !! st
    /\ Within B e'.
Proof.
  intros HR HW.
  destruct (animate_spec e p ht st HR)
    as (e' & Hrun & HR' & _ & _ & Hht & Hst & _ & _ & _ & _ & Hc).
  exists e'. split; [exact Hrun|]. split; [exact HR'|].
  split; [exact Hht|]. split; [exact Hst|].
  pose proof HR as (_ & _ & Hh & Hs & _).
  pose proof HR' as (Hpos' & _ & Hh' & Hs' & _ & _ & (P' & HP' & HlP') & _).
  destruct HW as (Hlive & Hheart & Hspace).
  split; [|split].
  - intros c x' Hx'.
    assert (c < PARTICLE_COUNT * 3)%nat as Hlt.
    { unfold liveAt, readAt in Hx'. rewrite Hpos', HP' in Hx'.
      apply lookup_lt_Some in Hx'. now rewrite HlP' in Hx'. }
    destruct (Hc c Hlt) as (x & t & Hx & Ht & Hx'').
    assert (x' = ease t x) as -> by congruence.
    pose proof (Hlive c x Hx) as Bx.
    pose proof (tickTarget_within B e c t
                  (conj Hlive (conj Hheart Hspace)) Ht) as Bt.
    apply Rabs_le_between in Bx, Bt.
    apply Rabs_le. unfold ease, EASING. lra.
  - intros c v Hv. apply (Hheart c v).
    unfold readAt in *. rewrite Hh' in Hv. rewrite Hh.
    now rewrite <- Hht.
  - intros c v Hv. apply (Hspace c v).
    unfold readAt in *. rewrite Hs' in Hv. rewrite Hs.
    now rewrite <- Hst.
Qed.

Lemma setMode_heap (m : jsval) (e : Engine) : heap (setMode m e) = heap e.
Proof.
  unfold setMode.
  now destruct (negb (strictEqStr m "heart") && negb (strictEqStr m "space")).
Qed.

Lemma setMode_within (B : R) (m : jsval) (e : Engine) :
  Within B e -> Within B (setMode m e).
Proof.
  unfold Within, liveAt, setMode.
  destruct (negb (strictEqStr m "heart") && negb (strictEqStr m "space"));
    cbn [heap positions heartTargets spaceTargets]; exact (fun H => H).
Qed.

Lemma setRotationFromHand_within (B : R) (normX normY : R) (e : Engine) :
  Within B e -> Within B (setRotationFromHand normX normY e).
Proof.
  unfold Within, liveAt, setRotationFromHand.
  cbn [heap positions heartTargets spaceTargets]. exact (fun H => H).
Qed.

Lemma calls_within (B : R) (cs : list Call) :
  forall (e : Engine) (p ht st : nat),
    Ready e p ht st -> Within B e ->
    exists e',
      calls cs e = Some e' /\ Ready e' p ht st
      /\ heap e' !! ht = heap e !! ht /\ heap e' !! st = heap e !! st
      /\ Within B e'.
Proof.
  induction cs as [|c cs IH]; intros e p ht st HR HW.
  - exists e. auto.
  - assert (exists e1, call c e = Some e1 /\ Ready e1 p ht st
                       /\ heap e1 !! ht = heap e !! ht
                       /\ heap e1 !! st = heap e !! st
                       /\ Within B e1) as (e1 & Hc & HR1 & Hh1 & Hs1 & HW1).
    { destruct c as [|m|x y]; cbn [call].
      - now apply animate_within.
      - eexists. split; [reflexivity|].
        split; [now apply setMode_Ready|].
        split; [now rewrite setMode_heap|].
        split; [now rewrite setMode_heap | now apply setMode_within].
      - eexists. split; [reflexivity|].
        split; [now apply setRotationFromHand_Ready|].
        split; [reflexivity|].
        split; [reflexivity | now apply setRotationFromHand_within]. }
    destruct (IH e1 p ht st HR1 HW1) as (e' & Hrun & HR' & Hh' & Hs' & HW').
    exists e'. cbn [calls]. rewrite Hc. cbn [mbind option_bind].
    repeat (split; [first [assumption | congruence]|]). exact HW'.
Qed.

(** The targets that the two generators give are within the radius of
    the starfield. *)
Lemma generated_targets_within (random : nat -> R) (fuel k : nat)
    (hp : list R) :
  (forall n, 0 <= random n < 1) ->
  fst (generateHeartPoints random fuel PARTICLE_COUNT k) = Some hp ->
  (length hp = (PARTICLE_COUNT * 3)%nat
   /\ forall c v, hp !! c = Some v ->
        (1 + HEARTBEAT_AMPLITUDE) * Rabs v <= SPACE_RADIUS)
  /\ forall k',
       length (fst (generateSpacePoints random PARTICLE_COUNT SPACE_RADIUS k'))
       = (PARTICLE_COUNT * 3)%nat
       /\ forall c v,
            fst (generateSpacePoints random PARTICLE_COUNT SPACE_RADIUS k')
              !! c = Some v ->
            Rabs v <= SPACE_RADIUS.
Proof.
  intros Hrand Hhp. split.
  - destruct (generateHeartPoints_boxed random fuel PARTICLE_COUNT k hp
                Hrand Hhp) as [Hlen Hall].
    split; [exact Hlen|]. intros c v Hv.
    assert (Rabs v <= 4.2) as Hb.
    { apply (flat_bound 4.2 PARTICLE_COUNT hp Hlen) with (c := c);
        [|exact Hv].
      intros i Hi. destruct (Hall i Hi) as (cd & Hcd & Hp).
      pose proof (scaled_boxed cd Hcd) as Hbox.
      destruct (scaled cd) as [[X Y] Z]. destruct Hbox as (HX & HY & HZ).
      exists X, Y, Z. repeat split; [exact Hp | lra | lra | lra]. }
    unfold HEARTBEAT_AMPLITUDE, SPACE_RADIUS. lra.
  - intro k'.
    destruct (generateSpacePoints_points random SPACE_RADIUS PARTICLE_COUNT
                k') as (_ & Hlen & Hpts).
    split; [exact Hlen|]. intros c v Hv.
    apply (flat_bound SPACE_RADIUS PARTICLE_COUNT _ Hlen) with (c := c);
      [|exact Hv].
    intros i Hi. rewrite (Hpts i Hi).
    pose proof (starPoint_norm random SPACE_RADIUS (k' + 3 * i)
                  ltac:(unfold SPACE_RADIUS; lra) (Hrand _)) as Hn.
    destruct (starPoint random SPACE_RADIUS (k' + 3 * i)) as [[x y] z].
    destruct Hn as [_ Hn].
    destruct (coordinate_le_norm x y z) as (Hx & Hy & Hz).
    exists x, y, z. repeat split; lra.
Qed.


(** The scene that [initParticles] sets up has its arrays in place. *)
Lemma initScene_Ready (random : nat -> R) (fuel k : nat) (e0 e1 : Engine) :
  fst (initScene random fuel e0 k) = Some e1 ->
  exists hp sp,
    Ready e1 (length (heap e0) + 2) (length (heap e0)) (length (heap e0) + 1)
    /\ fst (generateHeartPoints random fuel PARTICLE_COUNT k) = Some hp
    /\ sp = fst (generateSpacePoints random PARTICLE_COUNT SPACE_RADIUS
                   (snd (generateHeartPoints random fuel PARTICLE_COUNT k)))
    /\ heap e1 !! length (heap e0) = Some hp
    /\ heap e1 !! (length (heap e0) + 1)%nat = Some sp
    /\ heap e1 !! (length (heap e0) + 2)%nat = Some sp.
Proof.
  intro Hscene.
  destruct (initScene_spec random fuel k e0 e1 Hscene)
    as (hp & Hhp & Hheap & Hht & Hst & Hpos & Hgeo & _).
  cbv zeta in Hheap.
  assert (length (fst (generateSpacePoints random PARTICLE_COUNT SPACE_RADIUS
                         (snd (generateHeartPoints random fuel
                                 PARTICLE_COUNT k))))
          = (PARTICLE_COUNT * 3)%nat) as Hlsp
    by apply generateSpacePoints_points.
  remember (fst (generateSpacePoints random PARTICLE_COUNT SPACE_RADIUS
                   (snd (generateHeartPoints random fuel PARTICLE_COUNT k))))
    as sp eqn:Esp.
  remember (length (heap e0)) as n eqn:En.
  destruct (lookup_three_new (heap e0) hp sp sp) as (L0 & L1 & L2).
  rewrite <- En in L0, L1, L2. rewrite <- Hheap in L0, L1, L2.
  assert (length hp = (PARTICLE_COUNT * 3)%nat) as Hlhp.
  { rewrite generateHeartPoints_unfold in Hhp.
    apply (heartLoop_filtered random fuel PARTICLE_COUNT
             (floor_0_7 PARTICLE_COUNT) 0 (replicate (PARTICLE_COUNT * 3) 0)
             k hp Hhp);
      [now rewrite length_replicate | lia | intros j Hj; lia]. }
  exists hp, sp. split.
  { unfold Ready. repeat (split; [first [assumption | lia]|]).
    split; [exists sp | split; [exists hp | exists sp]]; auto. }
  split; [assumption|]. split; [reflexivity|]. auto.
Qed.

(** X17: no particle leaves the starfield.  With samples in [[0, 1)],
    from the scene that [initParticles] sets up and through any sequence
    of ticks, [setMode] and [setRotationFromHand] calls, no tick fails,
    neither target array is written, and every live coordinate stays at
    most [SPACE_RADIUS] in absolute value. *)
Theorem particles_stay_within_the_starfield_radius
    (random : nat -> R) (fuel k : nat) (e0 e1 : Engine) (cs : list Call) :
  (forall n, 0 <= random n < 1) ->
  fst (initScene random fuel e0 k) = Some e1 ->
  exists e' ht st,
    calls cs e1 = Some e'
    /\ heartTargets e' = Some ht /\ heartTargets e1 = Some ht
    /\ spaceTargets e' = Some st /\ spaceTargets e1 = Some st
    /\ heap e' !! ht = heap e1 !! ht
    /\ heap e' !! st = heap e1 !! st
    /\ forall c, (c < PARTICLE_COUNT * 3)%nat ->
         exists x, liveAt e' c = Some x /\ Rabs x <= SPACE_RADIUS.
Proof.
  intros Hrand Hscene.
  destruct (initScene_Ready random fuel k e0 e1 Hscene)
    as (hp & sp & HR & Hhp & Esp & L0 & L1 & L2).
  destruct (generated_targets_within random fuel k hp Hrand Hhp)
    as [[_ Bhp] Bsp].
  destruct (Bsp (snd (generateHeartPoints random fuel PARTICLE_COUNT k)))
    as [_ Bsp'].
  rewrite <- Esp in Bsp'. clear Bsp Esp.
  remember (length (heap e0)) as n eqn:En.
  assert (Within SPACE_RADIUS e1) as HW.
  { pose proof HR as (Hpos & _ & Hh & Hs & _).
    unfold Within, liveAt, readAt. rewrite Hpos, Hh, Hs, L0, L1, L2.
    repeat split; assumption. }
  destruct (calls_within SPACE_RADIUS cs e1 (n + 2) n (n + 1) HR HW)
    as (e' & Hrun & HR' & Hh' & Hs' & (Hlive & _)).
  exists e', n, (n + 1)%nat. split; [exact Hrun|].
  pose proof HR as (_ & _ & Hht & Hst & _).
  pose proof HR' as (Hpos' & _ & Hht' & Hst' & _ & _ & (P' & HP' & HlP') & _).
  repeat (split; [assumption|]).
  intros c Hc.
  destruct (lookup_lt_is_Some_2 P' c ltac:(lia)) as [x Hx].
  assert (liveAt e' c = Some x) as Hl
    by (unfold liveAt, readAt; now rewrite Hpos', HP').
  exists x. split; [exact Hl | now apply (Hlive c)].
Qed.

(** X17, witness: the module's initial state, the constant sample 0, and
    a tick, a switch to the heart, a tick, a hand position and a tick. *)
Lemma particles_stay_within_the_starfield_radius_example :
  exists e1 e',
    fst (initScene (fun _ => 0) PARTICLE_COUNT initialEngine 0%nat) = Some e1
    /\ calls [Animate; SetMode (JString "heart"); Animate;
              SetRotationFromHand 1 1; Animate] e1 = Some e'
    /\ forall c, (c < PARTICLE_COUNT * 3)%nat ->
         exists x, liveAt e' c = Some x /\ Rabs x <= SPACE_RADIUS.
Proof.
  assert (exists e1,
             fst (initScene (fun _ => 0) PARTICLE_COUNT initialEngine 0%nat)
             = Some e1) as [e1 He1].
  { destruct (heartLoop_no_skip (fun _ => 0) PARTICLE_COUNT
                ltac:(intro; lra) PARTICLE_COUNT (floor_0_7 PARTICLE_COUNT)
                0%nat (replicate (PARTICLE_COUNT * 3) 0) 0%nat ltac:(lia))
      as [hp Hhp].
    rewrite <- generateHeartPoints_unfold in Hhp.
    unfold initScene, gbind.
    destruct (generateHeartPoints (fun _ => 0) PARTICLE_COUNT PARTICLE_COUNT
                0%nat) as [o k1].
    cbn [fst] in Hhp. subst o. unfold alloc.
    destruct (generateSpacePoints (fun _ => 0) PARTICLE_COUNT SPACE_RADIUS k1).
    unfold gret. cbn [fst]. eauto. }
  destruct (particles_stay_within_the_starfield_radius
              (fun _ => 0) PARTICLE_COUNT 0%nat initialEngine e1
              [Animate; SetMode (JString "heart"); Animate;
               SetRotationFromHand 1 1; Animate]
              ltac:(intro; lra) He1)
    as (e' & ht & st & Hrun & _ & _ & _ & _ & _ & _ & Hall).
  exists e1, e'. auto.
Defined.

(** X18: [resetParticles()] moves no particle.  It replaces the two
    target arrays by two new arrays, the outputs of the two generators,
    leaves every array that existed as it was, and keeps the live
    coordinates, the mode, the time and the rotation; the engine's arrays
    are still in place, so the ticks that follow ease the particles from
    where they are to the new targets. *)
Theorem resetParticles_moves_no_particle
    (random : nat -> R) (fuel k : nat) (e e' : Engine) (p ht st : nat) :
  Ready e p ht st ->
  fst (resetParticles random fuel e k) = Some e' ->
  Ready e' p (length (heap e)) (length (heap e) + 1)
  /\ (forall c, liveAt e' c = liveAt e c)
  /\ (forall a, (a < length (heap e))%nat -> heap e' !! a = heap e !! a)
  /\ heap e' !! length (heap e)
     = fst (generateHeartPoints random fuel PARTICLE_COUNT k)
  /\ heap e' !! (length (heap e) + 1)%nat
     = Some (fst (generateSpacePoints random PARTICLE_COUNT SPACE_RADIUS
                    (snd (generateHeartPoints random fuel PARTICLE_COUNT k))))
  /\ currentMode e' = currentMode e /\ time e' = time e
  /\ currentRotationX e' = currentRotationX e
  /\ currentRotationY e' = currentRotationY e
  /\ targetRotationX e' = targetRotationX e
  /\ targetRotationY e' = targetRotationY e.
Proof.
  intros HR. unfold resetParticles, gbind.
  destruct (generateHeartPoints random fuel PARTICLE_COUNT k)
    as [[hp|] k1] eqn:Ehp; [|discriminate].
  unfold alloc. cbn [fst snd].
  assert (length (fst (generateSpacePoints random PARTICLE_COUNT SPACE_RADIUS
                         k1)) = (PARTICLE_COUNT * 3)%nat) as Hlsp
    by apply generateSpacePoints_points.
  destruct (generateSpacePoints random PARTICLE_COUNT SPACE_RADIUS k1)
    as [sp k2].
  unfold gret. cbn [fst snd] in *. intros [= <-].
  cbn [heap positions heartTargets spaceTargets particleGeometry currentMode
       time currentRotationX currentRotationY targetRotationX
       targetRotationY].
  assert (length hp = (PARTICLE_COUNT * 3)%nat) as Hlhp.
  { assert (fst (generateHeartPoints random fuel PARTICLE_COUNT k) = Some hp)
      as Hhp by now rewrite Ehp.
    rewrite generateHeartPoints_unfold in Hhp.
    apply (heartLoop_filtered random fuel PARTICLE_COUNT
             (floor_0_7 PARTICLE_COUNT) 0 (replicate (PARTICLE_COUNT * 3) 0)
             k hp Hhp);
      [now rewrite length_replicate | lia | intros j Hj; lia]. }
  remember (length (heap e)) as n eqn:En.
  assert (forall a, (a < n)%nat ->
            ((heap e ++ [hp]) ++ [sp]) !! a = heap e !! a) as Hold.
  { intros a Ha. rewrite <- app_assoc. apply lookup_app_l. lia. }
  assert (((heap e ++ [hp]) ++ [sp]) !! n = Some hp) as Hnew1.
  { rewrite <- app_assoc, lookup_app_r by lia.
    now replace (n - length (heap e))%nat with 0%nat by lia. }
  assert (((heap e ++ [hp]) ++ [sp]) !! (n + 1)%nat = Some sp) as Hnew2.
  { rewrite <- app_assoc, lookup_app_r by lia.
    now replace (n + 1 - length (heap e))%nat with 1%nat by lia. }
  rewrite length_app. cbn [length]. rewrite <- En.
  destruct HR as (Hpos & Hgeo & _ & _ & _ & _ & (P & HP & HlP) & _).
  pose proof (lookup_lt_Some _ _ _ HP) as Hp. rewrite <- En in Hp.
  split.
  { unfold Ready.
    cbn [heap positions heartTargets spaceTargets particleGeometry].
    repeat (split; [first [assumption | reflexivity | lia]|]).
    split; [exists P; split; [now rewrite Hold | assumption]|].
    split; [exists hp | exists sp]; auto. }
  split.
  { intro c. unfold liveAt, readAt. cbn [heap positions].
    rewrite Hpos. now rewrite Hold. }
  split; [exact Hold|]. split; [exact Hnew1|]. split; [exact Hnew2|].
  repeat split.
Qed.

(** X18, witness: the sample engine and the constant sample 0. *)
Lemma resetParticles_moves_no_particle_example :
  exists e',
    fst (resetParticles (fun _ => 0) PARTICLE_COUNT sampleEngine 0%nat)
    = Some e'
    /\ (forall c, liveAt e' c = liveAt sampleEngine c)
    /\ heartTargets e' = Some 3%nat /\ spaceTargets e' = Some 4%nat.
Proof.
  assert (exists e',
             fst (resetParticles (fun _ => 0) PARTICLE_COUNT sampleEngine
                    0%nat) = Some e') as [e' He'].
  { destruct (heartLoop_no_skip (fun _ => 0) PARTICLE_COUNT
                ltac:(intro; lra) PARTICLE_COUNT (floor_0_7 PARTICLE_COUNT)
                0%nat (replicate (PARTICLE_COUNT * 3) 0) 0%nat ltac:(lia))
      as [hp Hhp].
    rewrite <- generateHeartPoints_unfold in Hhp.
    unfold resetParticles, gbind.
    destruct (generateHeartPoints (fun _ => 0) PARTICLE_COUNT PARTICLE_COUNT
                0%nat) as [o k1].
    cbn [fst] in Hhp. subst o. unfold alloc.
    destruct (generateSpacePoints (fun _ => 0) PARTICLE_COUNT SPACE_RADIUS k1).
    unfold gret. cbn [fst]. eauto. }
  destruct (resetParticles_moves_no_particle (fun _ => 0) PARTICLE_COUNT
              0%nat sampleEngine e' 0 1 2 sampleEngine_Ready He')
    as ((_ & _ & Hh & Hs & _) & Hlive & _).
  exists e'. split; [exact He'|]. split; [exact Hlive|].
  split; [exact Hh | exact Hs].
Defined.

End EngineExtras.
